(** * pg-multiverse: routing, load balancing, cache, transactions, migrations

    A shallow embedding of the coordinator classes of pg-multiverse
    (src/cluster/LoadBalancer.ts, ClusterManager.ts, DistributedTransaction.ts,
    DistributedCache.ts, migrations/MigrationManager.ts) and the properties
    their design document states about them.

    Conventions.
    - A TypeScript class becomes a record of its fields; a method becomes a
      function from the record (and the method's arguments) to an outcome and
      the updated record.
    - [throw] becomes the [Throw] constructor of [result].
    - Calls into the PostgreSQL driver are answered by an environment
      (a Section variable); every statement sent on a connection is appended
      to a log, so that what each participant observed can be stated.
    - [Date.now()] readings are arguments of the functions that read the clock.
    - A JS [Map] whose iteration order is observable is an insertion-ordered
      association list ([JsMap]); the others are [gmap]s.
    - Averages and rates are JavaScript numbers, IEEE 754 binary64 values
      computed with the operations of [SpecFloat]; counters and clock
      differences are integers. *)

From Stdlib Require Import ZArith QArith Lia SpecFloat.
From stdpp Require Import base option list gmap strings.

Set Default Proof Using "Type".
Local Open Scope string_scope.
Local Open Scope nat_scope.

(** ** Outcomes *)

Inductive result (A : Type) : Type :=
| Ok (a : A)
| Throw (msg : string).
Arguments Ok {A} a.
Arguments Throw {A} msg.

Definition is_ok {A} (r : result A) : bool :=
  match r with Ok _ => true | Throw _ => false end.

Definition is_throw {A} (r : result A) : bool := negb (is_ok r).

(** JavaScript truthiness of an optional string: [undefined] and the empty
    string are falsy. *)
Definition truthy (s : option string) : bool :=
  match s with
  | Some s => negb (String.eqb s "")
  | None => false
  end.

(** The value of a truthy optional string, [None] when it is falsy. *)
Definition truthy_val (s : option string) : option string :=
  if truthy s then s else None.

(** ** JavaScript numbers *)

Module Number.

(** IEEE 754 binary64. *)
Definition t : Type := spec_float.
Definition prec : Z := 53.
Definition emax : Z := 1024.

(** The number that holds an integer: the integer itself below [2^53] in
    absolute value, the nearest binary64 value beyond. *)
Definition of_Z (n : Z) : t := binary_normalize prec emax n 0 false.

Definition add (x y : t) : t := SFadd prec emax x y.
Definition mul (x y : t) : t := SFmul prec emax x y.
Definition div (x y : t) : t := SFdiv prec emax x y.

(** The rational a finite number stands for. *)
Definition toQ (x : t) : option Q :=
  match x with
  | S754_zero _ => Some 0%Q
  | S754_finite s m e =>
      Some (Qmult (inject_Z (cond_Zopp s (Zpos m))) (Qpower (2 # 1) e))
  | S754_infinity _ | S754_nan => None
  end.

End Number.

(** ** Insertion-ordered maps (JS [Map]) *)

Module JsMap.

Abbreviation t V := (list (string * V)).

Fixpoint get {V} (k : string) (m : t V) : option V :=
  match m with
  | [] => None
  | (k', v) :: m' => if String.eqb k k' then Some v else get k m'
  end.

(** [Map.prototype.set]: an existing key keeps its position. *)
Fixpoint set {V} (k : string) (v : V) (m : t V) : t V :=
  match m with
  | [] => [(k, v)]
  | (k', v') :: m' =>
      if String.eqb k k' then (k, v) :: m' else (k', v') :: set k v m'
  end.

(** [Map.prototype.delete]: no binding of [k] is left. *)
Fixpoint delete {V} (k : string) (m : t V) : t V :=
  match m with
  | [] => []
  | (k', v') :: m' =>
      if String.eqb k k' then delete k m' else (k', v') :: delete k m'
  end.

Definition keys {V} (m : t V) : list string := map fst m.
Definition values {V} (m : t V) : list V := map snd m.
Definition size {V} (m : t V) : nat := length m.

(** Keys are pairwise distinct: every map built from [[]] by [set] and
    [delete] is of this shape. *)
Definition wf {V} (m : t V) : Prop := NoDup (keys m).

End JsMap.

(** ** LoadBalancer.ts *)

Module LoadBalancer.

Inductive LoadBalancingStrategy : Type :=
| round_robin
| weighted
| least_connections
| response_time
| health_aware.

(** [stats] is keyed by the replica index [i] (the source's key is the
    string replica_i, one per index). *)
Record t : Type := mk {
  strategy : LoadBalancingStrategy;
  currentIndex : nat;
  stats : gmap nat nat;
}.

(** [new LoadBalancer()] *)
Definition init : t :=
  {| strategy := round_robin; currentIndex := 0; stats := ∅ |}.

Definition setStrategy (s : LoadBalancingStrategy) (lb : t) : t :=
  {| strategy := s; currentIndex := 0; stats := stats lb |}.

Definition updateStats (index : nat) (lb : t) : t :=
  {| strategy := strategy lb;
     currentIndex := currentIndex lb;
     stats := <[index := default 0 (stats lb !! index) + 1]> (stats lb) |}.

Section Select.

Context {Replica Options : Type}.

(** The selectors that read floating-point pool metrics or draw from
    [Math.random] are answered by the environment:
    [weightedDraw] is the bucket walk of [weightedSelect] ([None] when no
    weights were given or the walk falls through, in which case the source
    calls [roundRobinSelect]); [metricIndex] is the index picked by
    [leastConnectionsSelect], [responseTimeSelect] and [healthAwareSelect]. *)
Variable weightedDraw : list Replica → Options → option nat.
Variable metricIndex : LoadBalancingStrategy → list Replica → Options → nat.

Definition roundRobinSelect (replicas : list Replica) (lb : t) : nat * t :=
  let index := currentIndex lb mod length replicas in
  let lb1 := {| strategy := strategy lb;
                currentIndex := (currentIndex lb + 1) mod length replicas;
                stats := stats lb |} in
  (index, updateStats index lb1).

Definition weightedSelect (replicas : list Replica) (options : Options)
    (lb : t) : nat * t :=
  match weightedDraw replicas options with
  | Some i => (i, updateStats i lb)
  | None => roundRobinSelect replicas lb
  end.

Definition metricSelect (replicas : list Replica) (options : Options)
    (lb : t) : nat * t :=
  let i := metricIndex (strategy lb) replicas options in
  (i, updateStats i lb).

Definition selectReplica (replicas : list Replica) (options : Options)
    (lb : t) : result (nat * t) :=
  match length replicas with
  | 0 => Throw "No replicas available"
  | 1 => Ok (0, lb)
  | _ =>
      match strategy lb with
      | round_robin => Ok (roundRobinSelect replicas lb)
      | weighted => Ok (weightedSelect replicas options lb)
      | least_connections | response_time | health_aware =>
          Ok (metricSelect replicas options lb)
      end
  end.

(** Consecutive [selectReplica] calls on the same balancer and replica list,
    one call per element of [optionss]; the indices are collected in call
    order. *)
Fixpoint selectMany (replicas : list Replica) (optionss : list Options)
    (lb : t) : result (list nat * t) :=
  match optionss with
  | [] => Ok ([], lb)
  | o :: os =>
      match selectReplica replicas o lb with
      | Throw e => Throw e
      | Ok (i, lb1) =>
          match selectMany replicas os lb1 with
          | Throw e => Throw e
          | Ok (is_, lb2) => Ok (i :: is_, lb2)
          end
      end
  end.

End Select.

Section MetricSelectors.

Context {Replica : Type}.

(** [getConnectionCount]: the [active] count of the replica's metrics, 0
    when it has none or [getMetrics] throws. *)
Variable getConnectionCount : Replica → Z.

(** The [forEach] of [leastConnectionsSelect]: [minConnections = None] stands
    for [Infinity]; the accumulator carries [selectedIndex] and the index of
    the element being visited. *)
Definition leastConnectionsScan (replicas : list Replica)
    : option Z * nat * nat :=
  fold_left
    (λ (acc : option Z * nat * nat) (replica : Replica),
       let '(minConnections, selectedIndex, index) := acc in
       let connections := getConnectionCount replica in
       let smaller :=
         match minConnections with
         | None => true
         | Some m => (connections <? m)%Z
         end in
       if smaller then (Some connections, index, S index)
       else (minConnections, selectedIndex, S index))
    replicas (None, 0, 0).

Definition leastConnectionsSelect (replicas : list Replica) (lb : t)
    : nat * t :=
  let selectedIndex := (leastConnectionsScan replicas).1.2 in
  (selectedIndex, updateStats selectedIndex lb).

End MetricSelectors.

End LoadBalancer.

(** ** The PostgreSQL driver (external collaborator) *)

Module Driver.

Inductive Stmt : Type :=
| BEGIN
| COMMIT
| ROLLBACK
| PREPARE_TRANSACTION (txid : string)
| COMMIT_PREPARED (txid : string)
| ROLLBACK_PREPARED (txid : string)
| SQL (sql : string) (params : list string).

(** Rows of a [QueryResult]. *)
Definition QueryResult : Type := list string.

Definition is_begin (s : Stmt) : bool :=
  match s with BEGIN => true | _ => false end.

End Driver.

(** ** ClusterManager.ts *)

Module ClusterManager.

Import Driver.

Inductive ClusterStatus : Type := initializing | active | down | maintenance.
Inductive OperationType : Type := read | write.
Inductive ConsistencyLevel : Type := eventual | strong.
Inductive IsolationLevel : Type :=
| READ_UNCOMMITTED | READ_COMMITTED | REPEATABLE_READ | SERIALIZABLE.

Definition status_is_active (s : ClusterStatus) : bool :=
  match s with active => true | _ => false end.

(** The fields of [QueryOptions] that [getConnection] destructures. *)
Record QueryOptions : Type := mkOptions {
  opt_schema : option string;
  opt_operation : option OperationType;
  opt_consistencyLevel : option ConsistencyLevel;
  opt_clusterId : option string;
}.

(** A [ConnectionPool] as the manager sees it: its id, and whether
    [pool.getConnection()] resolves (it rejects when the pool is closed or the
    driver cannot connect). *)
Record ConnectionPool : Type := mkPool {
  poolId : string;
  acquirable : bool;
}.

Definition pool_getConnection (p : ConnectionPool) : result unit :=
  if acquirable p then Ok ()
  else Throw ("Connection pool " +:+ poolId p +:+ " is closed").

Record ClusterInfo : Type := mkCluster {
  cluster_id : string;
  primary : option ConnectionPool;       (* pools.primary *)
  replicas : list ConnectionPool;        (* pools.replicas *)
  status : ClusterStatus;
  config_schemas : list string;          (* config.schemas *)
}.

(** [_clusterMetadata] of a wrapped connection. *)
Record WrappedConnection : Type := mkConn {
  conn_clusterId : string;
  conn_schema : option string;
  conn_pool : string;
}.

Record PerClusterStats : Type := mkPerCluster {
  queries : nat;
  errors : nat;
  avgResponseTime : Number.t;
  connections : nat;
}.

Record ClusterStats : Type := mkStats {
  totalConnections : nat;
  activeConnections : Z;
  totalQueries : nat;
  failedQueries : nat;
  clusterStats : gmap string PerClusterStats;
}.

Record t : Type := mk {
  isInitialized : bool;
  clusters : JsMap.t ClusterInfo;
  schemaClusterMap : gmap string string;
  loadBalancer : LoadBalancer.t;
  stats : ClusterStats;
}.

(** Every statement sent to the driver, oldest first, with the connection it
    was sent on. *)
Definition Log : Type := list (WrappedConnection * Stmt).

Definition set_loadBalancer (lb : LoadBalancer.t) (cm : t) : t :=
  {| isInitialized := isInitialized cm; clusters := clusters cm;
     schemaClusterMap := schemaClusterMap cm; loadBalancer := lb;
     stats := stats cm |}.

Definition set_stats (s : ClusterStats) (cm : t) : t :=
  {| isInitialized := isInitialized cm; clusters := clusters cm;
     schemaClusterMap := schemaClusterMap cm; loadBalancer := loadBalancer cm;
     stats := s |}.

Definition set_activeConnections (n : Z) (s : ClusterStats) : ClusterStats :=
  {| totalConnections := totalConnections s; activeConnections := n;
     totalQueries := totalQueries s; failedQueries := failedQueries s;
     clusterStats := clusterStats s |}.

Definition incr_totalQueries (s : ClusterStats) : ClusterStats :=
  {| totalConnections := totalConnections s;
     activeConnections := activeConnections s;
     totalQueries := totalQueries s + 1; failedQueries := failedQueries s;
     clusterStats := clusterStats s |}.

Definition incr_failedQueries (s : ClusterStats) : ClusterStats :=
  {| totalConnections := totalConnections s;
     activeConnections := activeConnections s;
     totalQueries := totalQueries s; failedQueries := failedQueries s + 1;
     clusterStats := clusterStats s |}.

Definition set_clusterStats (m : gmap string PerClusterStats)
    (s : ClusterStats) : ClusterStats :=
  {| totalConnections := totalConnections s;
     activeConnections := activeConnections s;
     totalQueries := totalQueries s; failedQueries := failedQueries s;
     clusterStats := m |}.

Definition _shouldUseReplica (operation : OperationType)
    (consistencyLevel : ConsistencyLevel) : bool :=
  match consistencyLevel with
  | strong => false
  | eventual =>
      match operation with
      | write => false
      | read => true
      end
  end.

(** [Array.from(this.clusters.keys()).filter(id => status === 'active')] *)
Definition availableClusters (cm : t) : list string :=
  map fst (filter (λ kv, status_is_active (status kv.2) = true) (clusters cm)).

(** Lines 190-211 of [getConnection]: the id of the target cluster. *)
Definition resolveTarget (options : QueryOptions) (cm : t) : result string :=
  match truthy_val (opt_clusterId options) with
  | Some c => Ok c
  | None =>
      match truthy_val (opt_schema options) with
      | Some s =>
          match truthy_val (schemaClusterMap cm !! s) with
          | Some c => Ok c
          | None => Throw ("No cluster configured for schema: " +:+ s)
          end
      | None =>
          match availableClusters cm with
          | [] => Throw "No active clusters available"
          | c :: _ => Ok c
          end
      end
  end.

Section Manager.

Variable weightedDraw : list ConnectionPool → QueryOptions → option nat.
Variable metricIndex :
  LoadBalancer.LoadBalancingStrategy → list ConnectionPool → QueryOptions → nat.

(** Lines 222-233: the pool choice at the head of the [try] block. An index
    outside the replica list leaves [pool] undefined, and the following
    [pool.getConnection()] raises a TypeError. *)
Definition selectPool (useReplica : bool) (targetCluster : string)
    (cluster : ClusterInfo) (options : QueryOptions) (lb : LoadBalancer.t)
    : result ConnectionPool * LoadBalancer.t :=
  if useReplica && (0 <? length (replicas cluster)) then
    match LoadBalancer.selectReplica weightedDraw metricIndex
            (replicas cluster) options lb with
    | Throw e => (Throw e, lb)
    | Ok (replicaIndex, lb') =>
        match replicas cluster !! replicaIndex with
        | Some pool => (Ok pool, lb')
        | None => (Throw "TypeError: pool is undefined", lb')
        end
    end
  else
    match primary cluster with
    | Some pool => (Ok pool, lb)
    | None =>
        (Throw ("No suitable connection pool found for cluster: "
                +:+ targetCluster), lb)
    end.

(** The [catch] block of [getConnection]. *)
Definition connectionError (cm : t) : t :=
  set_stats (incr_failedQueries (stats cm)) cm.

Definition getConnection (options : QueryOptions) (cm : t)
    : result WrappedConnection * t :=
  if negb (isInitialized cm) then (Throw "ClusterManager not initialized", cm)
  else
    match resolveTarget options cm with
    | Throw e => (Throw e, cm)
    | Ok targetCluster =>
        match JsMap.get targetCluster (clusters cm) with
        | None => (Throw ("Cluster not found: " +:+ targetCluster), cm)
        | Some cluster =>
            let useReplica :=
              _shouldUseReplica (default read (opt_operation options))
                (default eventual (opt_consistencyLevel options)) in
            match selectPool useReplica targetCluster cluster options
                    (loadBalancer cm) with
            | (Throw e, lb') =>
                (Throw e, connectionError (set_loadBalancer lb' cm))
            | (Ok pool, lb') =>
                let cm1 := set_loadBalancer lb' cm in
                match pool_getConnection pool with
                | Throw e => (Throw e, connectionError cm1)
                | Ok _ =>
                    (Ok {| conn_clusterId := targetCluster;
                           conn_schema := opt_schema options;
                           conn_pool := poolId pool |},
                     set_stats
                       (set_activeConnections
                          (activeConnections (stats cm1) + 1) (stats cm1))
                       cm1)
                end
            end
        end
    end.

(** [connection.release] as replaced by [_wrapConnection]. *)
Definition release (cm : t) : t :=
  set_stats
    (set_activeConnections
       (Z.max 0 (activeConnections (stats cm) - 1)) (stats cm)) cm.

Definition _updateClusterStats (clusterId : string) (responseTime : Z)
    (cm : t) : t :=
  match clusterStats (stats cm) !! clusterId with
  | Some s =>
      let s' := {| queries := queries s + 1; errors := errors s;
                   avgResponseTime :=
                     Number.div
                       (Number.add (avgResponseTime s)
                          (Number.of_Z responseTime))
                       (Number.of_Z 2);
                   connections := connections s |} in
      set_stats
        (set_clusterStats (<[clusterId := s']> (clusterStats (stats cm)))
           (stats cm)) cm
  | None => cm
  end.

(** The driver's answer to a statement, given everything sent before it. *)
Variable driver : Log → WrappedConnection → Stmt → result QueryResult.

Definition query (c : WrappedConnection) (s : Stmt) (log : Log)
    : result QueryResult * Log :=
  (driver log c s, (log ++ [(c, s)])%list).

(** [executeQuery]; [responseTime] is [endTime - startTime]. The [finally]
    block runs [connection.release()] and then decrements the counter once
    more. *)
Definition executeQuery (sql : string) (params : list string)
    (options : QueryOptions) (responseTime : Z) (cm : t) (log : Log)
    : result (QueryResult * string) * t * Log :=
  match getConnection options cm with
  | (Throw e, cm1) => (Throw e, cm1, log)
  | (Ok connection, cm1) =>
      let '(r, log1) := query connection (SQL sql params) log in
      let '(out, cm2) :=
        match r with
        | Ok rows =>
            (Ok (rows, conn_clusterId connection),
             _updateClusterStats (conn_clusterId connection) responseTime
               (set_stats (incr_totalQueries (stats cm1)) cm1))
        | Throw e => (Throw e, set_stats (incr_failedQueries (stats cm1)) cm1)
        end in
      let cm3 := release cm2 in
      let cm4 :=
        set_stats
          (set_activeConnections (activeConnections (stats cm3) - 1)
             (stats cm3)) cm3 in
      (out, cm4, log1)
  end.

(** [_singleClusterTransaction]. The callback is the caller's code: given
    the connection, it sends statements (it extends the log) and resolves or
    rejects. A rejected [ROLLBACK] in the [catch] block replaces the error
    being handled. *)
Definition _singleClusterTransaction {T : Type}
    (callback : WrappedConnection → Log → result T * Log)
    (options : QueryOptions) (cm : t) (log : Log) : result T * t * Log :=
  match getConnection
          {| opt_schema := opt_schema options; opt_operation := Some write;
             opt_consistencyLevel := opt_consistencyLevel options;
             opt_clusterId := opt_clusterId options |} cm with
  | (Throw e, cm1) => (Throw e, cm1, log)
  | (Ok connection, cm1) =>
      let body : result T * Log :=
        match query connection BEGIN log with
        | (Throw e, log1) => (Throw e, log1)
        | (Ok _, log1) =>
            match callback connection log1 with
            | (Throw e, log2) => (Throw e, log2)
            | (Ok r, log2) =>
                match query connection COMMIT log2 with
                | (Throw e, log3) => (Throw e, log3)
                | (Ok _, log3) => (Ok r, log3)
                end
            end
        end in
      let handled : result T * Log :=
        match body with
        | (Ok r, l) => (Ok r, l)
        | (Throw e, l) =>
            match query connection ROLLBACK l with
            | (Throw e', l') => (Throw e', l')
            | (Ok _, l') => (Throw e, l')
            end
        end in
      (handled.1, release cm1, handled.2)
  end.

(** The clusters of the listed schemas, as [transaction] collects them in a
    [Set]. *)
Definition involvedClusters (schemas : list string) (cm : t) : list string :=
  fold_left
    (λ acc schema,
       match truthy_val (schemaClusterMap cm !! schema) with
       | Some c => if existsb (String.eqb c) acc then acc else (acc ++ [c])%list
       | None => acc
       end)
    schemas [].

(** The loop of [transaction] that runs the callback once per cluster; the
    first rejection ends it. *)
Fixpoint perClusterTransactions {T : Type}
    (callback : WrappedConnection → Log → result T * Log)
    (todo : list string) (results : list T) (cm : t) (log : Log)
    : result (list T) * t * Log :=
  match todo with
  | [] => (Ok results, cm, log)
  | clusterId :: rest =>
      match _singleClusterTransaction callback
              {| opt_schema := None; opt_operation := None;
                 opt_consistencyLevel := None;
                 opt_clusterId := Some clusterId |} cm log with
      | (Throw e, cm1, log1) => (Throw e, cm1, log1)
      | (Ok r, cm1, log1) =>
          perClusterTransactions callback rest (results ++ [r])%list cm1 log1
      end
  end.

(** [transaction]. Its options are [TransactionOptions] and the schema
    list; none of their fields is one [getConnection] reads. The result is
    the callback's value for a single cluster and the list of values
    otherwise. *)
Definition transaction {T : Type}
    (callback : WrappedConnection → Log → result T * Log)
    (schemas : list string) (isolationLevel : option IsolationLevel)
    (cm : t) (log : Log) : result (list T) * t * Log :=
  let involved := involvedClusters schemas cm in
  if length involved <=? 1 then
    match _singleClusterTransaction callback
            {| opt_schema := None; opt_operation := None;
               opt_consistencyLevel := None; opt_clusterId := None |}
            cm log with
    | (Throw e, cm1, log1) => (Throw e, cm1, log1)
    | (Ok r, cm1, log1) => (Ok [r], cm1, log1)
    end
  else
    match isolationLevel with
    | Some READ_COMMITTED | Some REPEATABLE_READ | Some SERIALIZABLE =>
        (Throw "Distributed transactions not fully implemented. Use eventual consistency for cross-cluster operations.",
         cm, log)
    | Some READ_UNCOMMITTED | None =>
        perClusterTransactions callback involved [] cm log
    end.

End Manager.

Definition set_clusters (m : JsMap.t ClusterInfo) (cm : t) : t :=
  {| isInitialized := isInitialized cm; clusters := m;
     schemaClusterMap := schemaClusterMap cm; loadBalancer := loadBalancer cm;
     stats := stats cm |}.

(** [forceFailover], for a non-negative integer index. An index past the
    end of the replica list leaves [newPrimary] undefined: the pools are
    rewired all the same, and the [emit] that reads [newPrimary.getId()]
    raises a TypeError. *)
Definition forceFailover (clusterId : string) (targetReplicaIndex : nat)
    (cm : t) : result unit * t :=
  match JsMap.get clusterId (clusters cm) with
  | None => (Throw ("Cluster not found: " +:+ clusterId), cm)
  | Some cluster =>
      if length (replicas cluster) =? 0
      then (Throw ("No replicas available for failover in cluster: "
                   +:+ clusterId), cm)
      else
        let newPrimary := replicas cluster !! targetReplicaIndex in
        let oldPrimary := primary cluster in
        let spliced := delete targetReplicaIndex (replicas cluster) in
        let cluster' :=
          {| cluster_id := cluster_id cluster;
             primary := newPrimary;
             replicas :=
               match oldPrimary with
               | Some p => (spliced ++ [p])%list
               | None => spliced
               end;
             status := status cluster;
             config_schemas := config_schemas cluster |} in
        let cm' := set_clusters (JsMap.set clusterId cluster' (clusters cm)) cm
        in
        match newPrimary with
        | Some _ => (Ok (), cm')
        | None => (Throw "TypeError: newPrimary is undefined", cm')
        end
  end.

(** [close]: the registry, the pool index and the schema map are cleared. *)
Definition close (cm : t) : t :=
  if negb (isInitialized cm) then cm
  else
    {| isInitialized := false; clusters := []; schemaClusterMap := ∅;
       loadBalancer := loadBalancer cm; stats := stats cm |}.

End ClusterManager.

(** ** DistributedTransaction.ts *)

Module DistributedTransaction.

Import Driver.
Import ClusterManager.

Inductive TxState : Type :=
| preparing | prepared | committing | committed | aborting | aborted.

Definition TxState_eqb (a b : TxState) : bool :=
  match a, b with
  | preparing, preparing | prepared, prepared | committing, committing
  | committed, committed | aborting, aborting | aborted, aborted => true
  | _, _ => false
  end.

(** The state as the string the source stores in [transaction.state]. *)
Definition stateName (s : TxState) : string :=
  match s with
  | preparing => "preparing"
  | prepared => "prepared"
  | committing => "committing"
  | committed => "committed"
  | aborting => "aborting"
  | aborted => "aborted"
  end.

(** [tx_clusters] is the [Set<string>] of involved clusters, in insertion
    order and without repetition. *)
Record DistributedTransactionState : Type := mkTx {
  tx_id : string;
  tx_schemas : list string;
  tx_clusters : list string;
  state : TxState;
  tx_connections : JsMap.t WrappedConnection;
}.

Record TransactionMetrics : Type := mkMetrics {
  total : nat;
  active : Z;
  committed_count : nat;
  aborted_count : nat;
  avgDuration : Number.t;
  distributed : nat;
}.

Record t : Type := mk {
  activeTransactions : gmap string DistributedTransactionState;
  metrics : TransactionMetrics;
}.

(** [new DistributedTransaction(clusterManager)] *)
Definition init : t :=
  {| activeTransactions := ∅;
     metrics := {| total := 0; active := 0; committed_count := 0;
                   aborted_count := 0; avgDuration := Number.of_Z 0;
                   distributed := 0 |} |}.

(** The operation argument of [execute]. *)
Record Operation : Type := mkOp {
  op_sql : string;
  op_params : option (list string);
  op_schema : option string;
  op_clusterId : option string;
}.

Definition set_state (s : TxState) (tx : DistributedTransactionState)
    : DistributedTransactionState :=
  {| tx_id := tx_id tx; tx_schemas := tx_schemas tx;
     tx_clusters := tx_clusters tx; state := s;
     tx_connections := tx_connections tx |}.

Definition set_connections (c : JsMap.t WrappedConnection)
    (tx : DistributedTransactionState) : DistributedTransactionState :=
  {| tx_id := tx_id tx; tx_schemas := tx_schemas tx;
     tx_clusters := tx_clusters tx; state := state tx;
     tx_connections := c |}.

(** [Set.prototype.add] *)
Definition set_add (x : string) (l : list string) : list string :=
  if existsb (String.eqb x) l then l else (l ++ [x])%list.

(** First cluster, in registry order, whose [config.schemas] includes the
    schema. *)
Definition getClusterForSchema (schema : string) (cm : ClusterManager.t)
    : option string :=
  fst <$> List.find
            (λ kv : string * ClusterInfo,
               existsb (String.eqb schema) (config_schemas kv.2))
            (clusters cm).

(** The loop of [begin] that collects the involved clusters. *)
Definition involvedClusters (schemas : list string) (cm : ClusterManager.t)
    : list string :=
  fold_left
    (λ acc schema,
       match truthy_val (getClusterForSchema schema cm) with
       | Some c => set_add c acc
       | None => acc
       end)
    schemas [].

(** [this.metrics.active--; this.metrics.committed++] *)
Definition count_committed (m : TransactionMetrics) : TransactionMetrics :=
  {| total := total m; active := (active m - 1)%Z;
     committed_count := committed_count m + 1;
     aborted_count := aborted_count m; avgDuration := avgDuration m;
     distributed := distributed m |}.

(** [this.metrics.active--; this.metrics.aborted++] *)
Definition count_aborted (m : TransactionMetrics) : TransactionMetrics :=
  {| total := total m; active := (active m - 1)%Z;
     committed_count := committed_count m;
     aborted_count := aborted_count m + 1; avgDuration := avgDuration m;
     distributed := distributed m |}.

Definition count_started (multi : bool) (m : TransactionMetrics)
    : TransactionMetrics :=
  {| total := total m + 1; active := (active m + 1)%Z;
     committed_count := committed_count m;
     aborted_count := aborted_count m; avgDuration := avgDuration m;
     distributed := if multi then distributed m + 1 else distributed m |}.

Definition updateAvgDuration (duration : Z) (m : TransactionMetrics)
    : TransactionMetrics :=
  let totalTransactions := committed_count m + aborted_count m in
  let avg :=
    if totalTransactions =? 0 then Number.of_Z duration
    else
      Number.div
        (Number.add
           (Number.mul (avgDuration m)
              (Number.of_Z (Z.of_nat totalTransactions - 1)))
           (Number.of_Z duration))
        (Number.of_Z (Z.of_nat totalTransactions)) in
  {| total := total m; active := active m;
     committed_count := committed_count m;
     aborted_count := aborted_count m; avgDuration := avg;
     distributed := distributed m |}.

(** What a call leaves behind: the outcome, the transaction object as the
    call left it ([None] when the id was unknown), and the new states. *)
Record Outcome (A : Type) : Type := mkOutcome {
  returned : result A;
  final_tx : option DistributedTransactionState;
  dt_after : t;
  cm_after : ClusterManager.t;
  log_after : Log;
}.
Arguments mkOutcome {A}.
Arguments returned {A}.
Arguments final_tx {A}.
Arguments dt_after {A}.
Arguments cm_after {A}.
Arguments log_after {A}.

Section Transactions.

Variable weightedDraw : list ConnectionPool → QueryOptions → option nat.
Variable metricIndex :
  LoadBalancer.LoadBalancingStrategy → list ConnectionPool → QueryOptions → nat.
Variable driver : Log → WrappedConnection → Stmt → result QueryResult.

Local Abbreviation query := (ClusterManager.query driver).
Local Abbreviation getConnection :=
  (ClusterManager.getConnection weightedDraw metricIndex).

(** Sends [stmt c] on every connection of the list, in order, and records
    for each whether the driver accepted it. The callbacks of the source
    catch every rejection, so the loop itself never throws. *)
Fixpoint sendAll (stmt : Stmt) (cs : list (string * WrappedConnection))
    (log : Log) : list (string * bool) * Log :=
  match cs with
  | [] => ([], log)
  | (clusterId, connection) :: cs' =>
      let '(r, log1) := query connection stmt log in
      let '(rs, log2) := sendAll stmt cs' log1 in
      ((clusterId, is_ok r) :: rs, log2)
  end.

Definition rollbackConnections (tx : DistributedTransactionState)
    (log : Log) : Log :=
  (sendAll ROLLBACK (tx_connections tx) log).2.

(** Releases every connection, then [connections.clear()]. *)
Definition releaseConnections (tx : DistributedTransactionState)
    (cm : ClusterManager.t) : DistributedTransactionState * ClusterManager.t :=
  (set_connections [] tx,
   fold_left (λ cm' _, ClusterManager.release cm') (tx_connections tx) cm).

Definition abortPreparedTransactions (tx : DistributedTransactionState)
    (prepareResults : list (string * bool)) (log : Log) : Log :=
  fold_left
    (λ log' (r : string * bool),
       match JsMap.get r.1 (tx_connections tx) with
       | Some connection =>
           (query connection (ROLLBACK_PREPARED (tx_id tx)) log').2
       | None => log'
       end)
    (filter (λ r : string * bool, r.2 = true) prepareResults) log.

Definition failedClusters (rs : list (string * bool)) : list string :=
  map fst (filter (λ r : string * bool, r.2 = false) rs).

Definition twoPhaseCommit (tx : DistributedTransactionState) (log : Log)
    : result unit * Log :=
  let '(prepareResults, log1) :=
    sendAll (PREPARE_TRANSACTION (tx_id tx)) (tx_connections tx) log in
  match failedClusters prepareResults with
  | (_ :: _) as failedPrepares =>
      (Throw ("Prepare phase failed on clusters: "
              +:+ String.concat ", " failedPrepares),
       abortPreparedTransactions tx prepareResults log1)
  | [] =>
      let '(_, log2) :=
        sendAll (COMMIT_PREPARED (tx_id tx)) (tx_connections tx) log1 in
      (Ok (), log2)
  end.

Definition singleClusterCommit (tx : DistributedTransactionState) (log : Log)
    : result unit * Log :=
  match JsMap.values (tx_connections tx) with
  | connection :: _ =>
      let '(r, log1) := query connection COMMIT log in
      (match r with Ok _ => Ok () | Throw e => Throw e end, log1)
  | [] => (Throw "TypeError: connection is undefined", log)
  end.

(** [commit]; [duration] is [Date.now() - startTime]. *)
Definition commit (transactionId : string) (duration : Z) (dt : t)
    (cm : ClusterManager.t) (log : Log) : Outcome unit :=
  match activeTransactions dt !! transactionId with
  | None =>
      mkOutcome (Throw ("Transaction " +:+ transactionId +:+ " not found"))
        None dt cm log
  | Some transaction =>
      let tx1 := set_state committing transaction in
      let '(r, log1) :=
        if 1 <? length (tx_clusters tx1) then twoPhaseCommit tx1 log
        else singleClusterCommit tx1 log in
      let '(tx2, m2, log2) :=
        match r with
        | Ok _ =>
            (set_state committed tx1,
             updateAvgDuration duration (count_committed (metrics dt)),
             log1)
        | Throw _ =>
            let tx' := set_state aborted tx1 in
            (tx', count_aborted (metrics dt), rollbackConnections tx' log1)
        end in
      let '(tx3, cm3) := releaseConnections tx2 cm in
      mkOutcome r (Some tx3)
        {| activeTransactions := delete transactionId (activeTransactions dt);
           metrics := m2 |}
        cm3 log2
  end.

(** [rollback]; [rollbackConnections] swallows every rejection, so the [try]
    body always completes. *)
Definition rollback (transactionId : string) (duration : Z) (dt : t)
    (cm : ClusterManager.t) (log : Log) : Outcome unit :=
  match activeTransactions dt !! transactionId with
  | None =>
      mkOutcome (Throw ("Transaction " +:+ transactionId +:+ " not found"))
        None dt cm log
  | Some transaction =>
      let tx1 := set_state aborting transaction in
      let log1 := rollbackConnections tx1 log in
      let tx2 := set_state aborted tx1 in
      let '(tx3, cm3) := releaseConnections tx2 cm in
      mkOutcome (Ok ()) (Some tx3)
        {| activeTransactions := delete transactionId (activeTransactions dt);
           metrics := count_aborted (metrics dt) |}
        cm3 log1
  end.

(** Lines 127-131 of [execute]. *)
Definition executeTarget (operation : Operation) (cm : ClusterManager.t)
    : option string :=
  match truthy_val (op_clusterId operation) with
  | Some c => Some c
  | None =>
      match truthy_val (op_schema operation) with
      | Some s => truthy_val (getClusterForSchema s cm)
      | None => None
      end
  end.

Definition execute (transactionId : string) (operation : Operation) (dt : t)
    (cm : ClusterManager.t) (log : Log) : result QueryResult * Log :=
  match activeTransactions dt !! transactionId with
  | None => (Throw ("Transaction " +:+ transactionId +:+ " not found"), log)
  | Some transaction =>
      if negb (TxState_eqb (state transaction) prepared) then
        (Throw ("Transaction " +:+ transactionId +:+ " is in "
                +:+ stateName (state transaction)
                +:+ " state, cannot execute operations"), log)
      else
        match executeTarget operation cm with
        | None => (Throw "Cannot determine target cluster for operation", log)
        | Some targetCluster =>
            match JsMap.get targetCluster (tx_connections transaction) with
            | None =>
                (Throw ("No connection available for cluster "
                        +:+ targetCluster +:+ " in transaction "
                        +:+ transactionId), log)
            | Some connection =>
                query connection
                  (SQL (op_sql operation) (default [] (op_params operation)))
                  log
            end
        end
  end.

(** The loop of [begin] over the involved clusters: a write connection and a
    [BEGIN] per cluster; the first failure rolls back the connections
    collected so far and aborts the call. *)
Fixpoint openConnections (todo : list string)
    (tx : DistributedTransactionState) (cm : ClusterManager.t) (log : Log)
    : result DistributedTransactionState * ClusterManager.t * Log :=
  match todo with
  | [] => (Ok tx, cm, log)
  | clusterId :: rest =>
      let failed (e : string) cm' log' :=
        (Throw ("Failed to start transaction on cluster " +:+ clusterId
                +:+ ": " +:+ e),
         cm', rollbackConnections tx log') in
      match getConnection
              {| opt_schema := None; opt_operation := Some write;
                 opt_consistencyLevel := None;
                 opt_clusterId := Some clusterId |} cm with
      | (Throw e, cm1) => failed e cm1 log
      | (Ok connection, cm1) =>
          match query connection BEGIN log with
          | (Throw e, log1) => failed e cm1 log1
          | (Ok _, log1) =>
              openConnections rest
                (set_connections
                   (JsMap.set clusterId connection (tx_connections tx)) tx)
                cm1 log1
          end
      end
  end.

(** [begin]; [transactionId] is the value [uuidv4()] returns. *)
Definition begin (transactionId : string) (schemas : list string) (dt : t)
    (cm : ClusterManager.t) (log : Log) : Outcome string :=
  let clusters := involvedClusters schemas cm in
  let transaction :=
    {| tx_id := transactionId; tx_schemas := schemas;
       tx_clusters := clusters; state := preparing;
       tx_connections := [] |} in
  match openConnections clusters transaction cm log with
  | (Throw e, cm1, log1) => mkOutcome (Throw e) None dt cm1 log1
  | (Ok tx1, cm1, log1) =>
      let tx2 := set_state prepared tx1 in
      mkOutcome (Ok transactionId) (Some tx2)
        {| activeTransactions :=
             <[transactionId := tx2]> (activeTransactions dt);
           metrics :=
             count_started (1 <? length clusters) (metrics dt) |}
        cm1 log1
  end.

(** A client session: a sequence of calls with the clock readings and the
    ids the environment supplies. *)
Inductive Call : Type :=
| Begin (transactionId : string) (schemas : list string)
| Commit (transactionId : string) (duration : Z)
| Rollback (transactionId : string) (duration : Z).

(** Runs the calls in order. Besides the states, it collects the duration
    of every transaction that terminated (committed, aborted by a failed
    commit, or aborted by an explicit rollback), oldest first. *)
Fixpoint run (calls : list Call) (dt : t) (cm : ClusterManager.t) (log : Log)
    (terminated : list Z) : t * ClusterManager.t * Log * list Z :=
  match calls with
  | [] => (dt, cm, log, terminated)
  | Begin id schemas :: rest =>
      let o := begin id schemas dt cm log in
      run rest (dt_after o) (cm_after o) (log_after o) terminated
  | Commit id duration :: rest =>
      let o := commit id duration dt cm log in
      run rest (dt_after o) (cm_after o) (log_after o)
        (match final_tx o with
         | Some _ => (terminated ++ [duration])%list
         | None => terminated
         end)
  | Rollback id duration :: rest =>
      let o := rollback id duration dt cm log in
      run rest (dt_after o) (cm_after o) (log_after o)
        (match final_tx o with
         | Some _ => (terminated ++ [duration])%list
         | None => terminated
         end)
  end.

End Transactions.

(** Arithmetic mean of a list of durations (0 for the empty list). *)
Definition mean (ds : list Z) : Q :=
  match ds with
  | [] => 0%Q
  | _ => Qdiv (inject_Z (fold_right Z.add 0%Z ds))
              (inject_Z (Z.of_nat (length ds)))
  end.

End DistributedTransaction.

(** ** DistributedCache.ts *)

Module DistributedCache.

Inductive Strategy : Type := lru | lfu | fifo.

Record CacheConfig : Type := mkConfig {
  maxSize : nat;
  cfg_ttl : Z;
  enableCompression : bool;
  compressionThreshold : nat;
  strategy : Strategy;
}.

(** [ttl] holds the absolute expiry, [now + ttl] at insertion. *)
Record CacheEntry : Type := mkEntry {
  value : string;
  ttl : Z;
  createdAt : Z;
  accessCount : nat;
  lastAccessed : Z;
  size : nat;
  tags : list string;
  schema : option string;
  cluster : option string;
}.

Record CacheStats : Type := mkStats {
  hits : nat;
  misses : nat;
  hitRate : Number.t;
  totalSize : nat;
  itemCount : nat;
  evictions : nat;
}.

Inductive EvictionReason : Type := reason_ttl | reason_size | reason_manual.

Inductive Event : Type :=
| hit (key : string)
| miss (key : string)
| eviction (key : string) (reason : EvictionReason).

Record t : Type := mk {
  config : CacheConfig;
  cache : JsMap.t CacheEntry;
  stats : CacheStats;
  emitted : list Event;
}.

(** The defaults of the constructor. *)
Definition defaultConfig : CacheConfig :=
  {| maxSize := 1000; cfg_ttl := 300000; enableCompression := false;
     compressionThreshold := 1024; strategy := lru |}.

Definition create (config : CacheConfig) : t :=
  {| config := config; cache := [];
     stats := {| hits := 0; misses := 0; hitRate := Number.of_Z 0;
                 totalSize := 0;
                 itemCount := 0; evictions := 0 |};
     emitted := [] |}.

Record SetOptions : Type := mkSetOptions {
  set_ttl : option Z;
  set_tags : list string;
  set_schema : option string;
  set_cluster : option string;
}.

Definition updateHitRate (s : CacheStats) : CacheStats :=
  let total := hits s + misses s in
  {| hits := hits s; misses := misses s;
     hitRate :=
       if 0 <? total
       then Number.div (Number.of_Z (Z.of_nat (hits s)))
              (Number.of_Z (Z.of_nat total))
       else Number.of_Z 0;
     totalSize := totalSize s; itemCount := itemCount s;
     evictions := evictions s |}.

Definition updateStats (c : t) : t :=
  {| config := config c; cache := cache c;
     stats :=
       updateHitRate
         {| hits := hits (stats c); misses := misses (stats c);
            hitRate := hitRate (stats c);
            totalSize := foldr (λ e sum, size e + sum) 0
                           (JsMap.values (cache c));
            itemCount := JsMap.size (cache c);
            evictions := evictions (stats c) |};
     emitted := emitted c |}.

Definition isExpired (now : Z) (entry : CacheEntry) : bool :=
  (entry.(ttl) <? now)%Z.

Definition count_miss (s : CacheStats) : CacheStats :=
  {| hits := hits s; misses := misses s + 1; hitRate := hitRate s;
     totalSize := totalSize s; itemCount := itemCount s;
     evictions := evictions s |}.

Definition count_hit (s : CacheStats) : CacheStats :=
  {| hits := hits s + 1; misses := misses s; hitRate := hitRate s;
     totalSize := totalSize s; itemCount := itemCount s;
     evictions := evictions s |}.

Definition count_eviction (s : CacheStats) : CacheStats :=
  {| hits := hits s; misses := misses s; hitRate := hitRate s;
     totalSize := totalSize s; itemCount := itemCount s;
     evictions := evictions s + 1 |}.

Definition touch (now : Z) (entry : CacheEntry) : CacheEntry :=
  {| value := value entry; ttl := ttl entry; createdAt := createdAt entry;
     accessCount := accessCount entry + 1; lastAccessed := now;
     size := size entry; tags := tags entry; schema := schema entry;
     cluster := cluster entry |}.

(** [get]; [now] is the clock read by [isExpired], [now'] the one stored in
    [lastAccessed]. [None] is the source's [null]. *)
Definition get (key : string) (now now' : Z) (c : t) : option string * t :=
  match JsMap.get key (cache c) with
  | None =>
      (None,
       {| config := config c; cache := cache c;
          stats := updateHitRate (count_miss (stats c));
          emitted := (emitted c ++ [miss key])%list |})
  | Some entry =>
      if isExpired now entry then
        (None,
         {| config := config c; cache := JsMap.delete key (cache c);
            stats := updateHitRate (count_miss (stats c));
            emitted :=
              (emitted c ++ [miss key; eviction key reason_ttl])%list |})
      else
        (Some (value entry),
         {| config := config c;
            cache := JsMap.set key (touch now' entry) (cache c);
            stats := updateHitRate (count_hit (stats c));
            emitted := (emitted c ++ [hit key])%list |})
  end.

(** The scan of [evictLRU]: [oldestAccess = None] stands for [Infinity]. *)
Definition scanLRU (m : JsMap.t CacheEntry) : option string * option Z :=
  fold_left
    (λ (acc : option string * option Z) (kv : string * CacheEntry),
       let older :=
         match acc.2 with
         | None => true
         | Some oldestAccess => (lastAccessed kv.2 <? oldestAccess)%Z
         end in
       if older then (Some kv.1, Some (lastAccessed kv.2)) else acc)
    m (None, None).

Definition evictLRU (c : t) : t :=
  match truthy_val (scanLRU (cache c)).1 with
  | Some oldestKey =>
      {| config := config c; cache := JsMap.delete oldestKey (cache c);
         stats := count_eviction (stats c);
         emitted := (emitted c ++ [eviction oldestKey reason_size])%list |}
  | None => c
  end.

Definition calculateSize (value : string) : nat := String.length value * 2.

(** [compress] is the identity placeholder of the source. *)
Definition compress (value : string) : string := value.

(** [options.ttl || this.config.ttl] *)
Definition effectiveTtl (o : SetOptions) (cfg : CacheConfig) : Z :=
  match set_ttl o with
  | Some n => if (n =? 0)%Z then cfg_ttl cfg else n
  | None => cfg_ttl cfg
  end.

Definition set (key : string) (v : string) (options : SetOptions) (now : Z)
    (c : t) : bool * t :=
  let ttl_ms := effectiveTtl options (config c) in
  let size0 := calculateSize v in
  let compressed :=
    enableCompression (config c) && (compressionThreshold (config c) <? size0) in
  let processedValue := if compressed then compress v else v in
  let size1 := if compressed then calculateSize processedValue else size0 in
  let entry :=
    {| value := processedValue; ttl := (now + ttl_ms)%Z; createdAt := now;
       accessCount := 0; lastAccessed := now; size := size1;
       tags := set_tags options; schema := set_schema options;
       cluster := set_cluster options |} in
  let c1 :=
    if maxSize (config c) <=? JsMap.size (cache c) then evictLRU c else c in
  (true,
   updateStats
     {| config := config c1; cache := JsMap.set key entry (cache c1);
        stats := stats c1; emitted := emitted c1 |}).

(** The entry the documented eviction policy designates: the first entry,
    in insertion order, that minimises the strategy's field. *)
Definition policyRank (s : Strategy) (e : CacheEntry) : Z :=
  match s with
  | lru => lastAccessed e
  | lfu => Z.of_nat (accessCount e)
  | fifo => createdAt e
  end.

Definition policyVictim (s : Strategy) (m : JsMap.t CacheEntry)
    : option string :=
  fold_left
    (λ (acc : option (string * Z)) (kv : string * CacheEntry),
       match acc with
       | None => Some (kv.1, policyRank s kv.2)
       | Some (k, r) =>
           if (policyRank s kv.2 <? r)%Z then Some (kv.1, policyRank s kv.2)
           else acc
       end)
    m None ≫= λ kr, Some kr.1.

(** The loop of the [invalidateBy...] methods: the entries are visited in
    insertion order; a matching one is deleted and reported, and counted. *)
Definition invalidateStep (matches : CacheEntry → bool)
    (acc : JsMap.t CacheEntry * list Event * nat) (kv : string * CacheEntry)
    : JsMap.t CacheEntry * list Event * nat :=
  if matches kv.2
  then (JsMap.delete kv.1 acc.1.1,
        (acc.1.2 ++ [eviction kv.1 reason_manual])%list, acc.2 + 1)
  else acc.

Definition invalidateLoop (matches : CacheEntry → bool) (c : t) : nat * t :=
  let r := fold_left (invalidateStep matches) (cache c)
             (cache c, emitted c, 0) in
  (r.2,
   updateStats
     {| config := config c; cache := r.1.1; stats := stats c;
        emitted := r.1.2 |}).

(** [entry.schema === schema] *)
Definition hasSchema (s : string) (entry : CacheEntry) : bool :=
  match schema entry with Some s' => String.eqb s' s | None => false end.

(** [tags.some(tag => entry.tags.has(tag))] *)
Definition hasMatchingTag (ts : list string) (entry : CacheEntry) : bool :=
  existsb (λ tag, existsb (String.eqb tag) (tags entry)) ts.

(** [entry.cluster === cluster] *)
Definition hasCluster (s : string) (entry : CacheEntry) : bool :=
  match cluster entry with Some s' => String.eqb s' s | None => false end.

Definition invalidateBySchema (s : string) (c : t) : nat * t :=
  invalidateLoop (hasSchema s) c.

Definition invalidateByTags (ts : list string) (c : t) : nat * t :=
  invalidateLoop (hasMatchingTag ts) c.

Definition invalidateByCluster (s : string) (c : t) : nat * t :=
  invalidateLoop (hasCluster s) c.

Definition add_evictions (n : nat) (s : CacheStats) : CacheStats :=
  {| hits := hits s; misses := misses s; hitRate := hitRate s;
     totalSize := totalSize s; itemCount := itemCount s;
     evictions := evictions s + n |}.

(** [clear] *)
Definition clear (c : t) : t :=
  updateStats
    {| config := config c; cache := [];
       stats := add_evictions (JsMap.size (cache c)) (stats c);
       emitted := emitted c |}.

(** [cleanup], run by the timer; [now] is its clock reading. *)
Definition expiredKeys (now : Z) (m : JsMap.t CacheEntry) : list string :=
  JsMap.keys (List.filter (λ kv : string * CacheEntry, (ttl kv.2 <? now)%Z) m).

Definition cleanup (now : Z) (c : t) : t :=
  let expired := expiredKeys now (cache c) in
  let c1 :=
    fold_left
      (λ c' key,
         {| config := config c'; cache := JsMap.delete key (cache c');
            stats := stats c';
            emitted := (emitted c' ++ [eviction key reason_ttl])%list |})
      expired c in
  if 0 <? length expired then
    updateStats
      {| config := config c1; cache := cache c1;
         stats := add_evictions (length expired) (stats c1);
         emitted := emitted c1 |}
  else c1.

End DistributedCache.

(** ** MigrationManager.ts (rollback path) *)

Module MigrationManager.

(** A loaded migration: [down_throws] says whether its [down] function
    rejects when run. *)
Record Migration : Type := mkMigration {
  version : string;
  name : string;
  targetSchemas : list string;
  down_throws : bool;
}.

(** A row of the migrations table. *)
Record MigrationRecord : Type := mkRecord {
  rec_version : string;
  rec_name : string;
  rec_schema : string;
  rec_cluster : string;
}.

(** What the database and the migration bodies observe, oldest first. *)
Inductive Event : Type :=
| down_run (r : MigrationRecord)
| row_deleted (r : MigrationRecord).

Record MigrationRollbackOptions : Type := mkRollbackOptions {
  opt_targetVersion : option string;
  opt_steps : option Z;
  opt_targetSchemas : option (list string);
  opt_targetClusters : option (list string);
  opt_dryRun : option bool;
  opt_force : option bool;
}.

(** [clusterConfigs] is [clusterManager.getClusters()] reduced to each
    cluster's [config.schemas]; [table] holds the rows of the migrations
    table of every cluster. *)
Record t : Type := mk {
  isInitialized : bool;
  migrations : gmap string Migration;
  clusterConfigs : list (string * list string);
  schemaClusterMap : gmap string string;
  table : list MigrationRecord;
  trace : list Event;
}.

(** [Array.prototype.sort] with a comparator: stable. *)
Fixpoint insertBy {A} (c : A → A → comparison) (x : A) (l : list A)
    : list A :=
  match l with
  | [] => [x]
  | y :: l' =>
      match c x y with
      | Gt => y :: insertBy c x l'
      | _ => x :: l
      end
  end.

Definition sortBy {A} (c : A → A → comparison) (l : list A) : list A :=
  foldr (insertBy c) [] l.

(** [Array.prototype.slice(0, n)] *)
Definition slice0 {A} (n : Z) (l : list A) : list A :=
  if (0 <=? n)%Z then take (Z.to_nat n) l
  else take (length l - Z.to_nat (- n)) l.

Definition includes (x : string) (l : list string) : bool :=
  existsb (String.eqb x) l.

Definition set_add (x : string) (l : list string) : list string :=
  if includes x l then l else (l ++ [x])%list.

Definition nonEmptyList {A} (o : option (list A)) : option (list A) :=
  match o with
  | Some (_ :: _) => o
  | _ => None
  end.

Definition _getTargetSchemas (schemas : option (list string)) (st : t)
    : list string :=
  match nonEmptyList schemas with
  | Some l => l
  | None =>
      fold_left (λ acc kv, fold_left (λ acc' s, set_add s acc') kv.2 acc)
        (clusterConfigs st) []
  end.

Definition _getTargetClusters (clusters : option (list string)) (st : t)
    : list string :=
  match nonEmptyList clusters with
  | Some l => l
  | None => map fst (clusterConfigs st)
  end.

Definition _getClusterForSchema (schema : string) (st : t) : result string :=
  match truthy_val (schemaClusterMap st !! schema) with
  | Some cluster => Ok cluster
  | None => Throw ("No cluster found for schema: " +:+ schema)
  end.

Definition lockKey (r : MigrationRecord) : string :=
  "rollback-" +:+ rec_version r +:+ "-" +:+ rec_schema r +:+ "-"
  +:+ rec_cluster r.

Definition same_row (a b : MigrationRecord) : bool :=
  String.eqb (rec_version a) (rec_version b)
  && String.eqb (rec_schema a) (rec_schema b)
  && String.eqb (rec_cluster a) (rec_cluster b).

Section Rollback.

(** The two collations of the environment: the sign of
    [String.prototype.localeCompare] in the locale of the process, and the
    order of the [version] column in the database. *)
Variable localeCompare : string → string → comparison.
Variable versionOrder : string → string → comparison.

(** Answers of the database: whether the SELECT of [_getAppliedMigrations]
    rejects for a (schema, cluster), whether acquiring a lock key rejects,
    and whether the DELETE of a row rejects. *)
Variable selectFails : string → string → bool.
Variable lockFails : string → bool.
Variable deleteFails : MigrationRecord → bool.

(** Rows of (schema, cluster), [ORDER BY version ASC]; the empty list when
    the query rejects. *)
Definition _getAppliedMigrations (schema cluster : string) (st : t)
    : list MigrationRecord :=
  if selectFails schema cluster then []
  else
    sortBy (λ a b, versionOrder (rec_version a) (rec_version b))
      (filter
         (λ r, String.eqb (rec_schema r) schema
               && String.eqb (rec_cluster r) cluster = true)
         (table st)).

(** The candidates of one (schema, cluster): lines 610-622. *)
Definition migrationsForRollback (schema cluster : string)
    (targetVersion : option string) (steps : Z) (st : t)
    : list MigrationRecord :=
  let appliedMigrations := _getAppliedMigrations schema cluster st in
  let sorted :=
    sortBy (λ a b, localeCompare (rec_version b) (rec_version a))
      appliedMigrations in
  let filtered :=
    match truthy_val targetVersion with
    | Some v => filter (λ m, String.ltb v (rec_version m) = true) sorted
    | None => sorted
    end in
  if negb (steps =? 0)%Z && negb (truthy targetVersion)
  then slice0 steps filtered
  else filtered.

Fixpoint _getMigrationsToRollback (schemas clusters : list string)
    (targetVersion : option string) (steps : Z) (st : t)
    : result (list MigrationRecord) :=
  match schemas with
  | [] => Ok []
  | schema :: rest =>
      match _getClusterForSchema schema st with
      | Throw e => Throw e
      | Ok clusterForSchema =>
          let targetClusters :=
            if includes clusterForSchema clusters then [clusterForSchema]
            else if 0 <? length clusters
                 then filter (λ c, String.eqb c clusterForSchema = true)
                        clusters
                 else [clusterForSchema] in
          let here :=
            flat_map
              (λ cluster,
                 migrationsForRollback schema cluster targetVersion steps st)
              targetClusters in
          match _getMigrationsToRollback rest clusters targetVersion steps
                  st with
          | Throw e => Throw e
          | Ok more => Ok (here ++ more)%list
          end
      end
  end.

Definition add_event (e : Event) (st : t) : t :=
  {| isInitialized := isInitialized st; migrations := migrations st;
     clusterConfigs := clusterConfigs st;
     schemaClusterMap := schemaClusterMap st; table := table st;
     trace := (trace st ++ [e])%list |}.

Definition delete_row (r : MigrationRecord) (st : t) : t :=
  {| isInitialized := isInitialized st; migrations := migrations st;
     clusterConfigs := clusterConfigs st;
     schemaClusterMap := schemaClusterMap st;
     table := filter (λ r', same_row r' r = false) (table st);
     trace := (trace st ++ [row_deleted r])%list |}.

Definition _rollbackMigration (record : MigrationRecord) (force : bool)
    (st : t) : result unit * t :=
  match migrations st !! rec_version record with
  | None =>
      if negb force
      then (Throw ("Migration " +:+ rec_version record
                   +:+ " not found for rollback"), st)
      else (Ok (), st)
  | Some migration =>
      if lockFails (lockKey record)
      then (Throw ("Failed to acquire lock " +:+ lockKey record), st)
      else
        let st1 := add_event (down_run record) st in
        if down_throws migration
        then (Throw ("down of " +:+ rec_version record +:+ " rejected"), st1)
        else if deleteFails record
             then (Throw "DELETE rejected", st1)
             else (Ok (), delete_row record st1)
  end.

(** The [for] loop of [rollback] over the list it is given; returns
    [rolledBack], the number of errors, and the state. *)
Fixpoint rollbackLoop (records : list MigrationRecord) (force : bool)
    (rolledBack errors : nat) (st : t) : nat * nat * t :=
  match records with
  | [] => (rolledBack, errors, st)
  | migrationRecord :: rest =>
      match _rollbackMigration migrationRecord force st with
      | (Ok _, st1) => rollbackLoop rest force (rolledBack + 1) errors st1
      | (Throw _, st1) =>
          if negb force then (rolledBack, errors + 1, st1)
          else rollbackLoop rest force rolledBack (errors + 1) st1
      end
  end.

(** [rollback]: the outcome carries [rolledBack] and the number of errors
    in place of the status report. *)
Definition rollback (options : MigrationRollbackOptions) (st : t)
    : result (nat * nat) * t :=
  if negb (isInitialized st)
  then (Throw "MigrationManager not initialized. Call initialize() first.", st)
  else
    let steps := default 1%Z (opt_steps options) in
    let dryRun := default false (opt_dryRun options) in
    let force := default false (opt_force options) in
    let schemasToProcess := _getTargetSchemas (opt_targetSchemas options) st in
    let clustersToProcess :=
      _getTargetClusters (opt_targetClusters options) st in
    match _getMigrationsToRollback schemasToProcess clustersToProcess
            (opt_targetVersion options) steps st with
    | Throw e => (Throw e, st)
    | Ok migrationsToRollback =>
        if dryRun then (Ok (0, 0), st)
        else
          let '(rolledBack, errors, st1) :=
            rollbackLoop (reverse migrationsToRollback) force 0 0 st in
          (Ok (rolledBack, errors), st1)
    end.

End Rollback.

(** The order the documentation gives for undoing the records of one
    (schema, cluster): the [k] largest versions, largest first, each [down]
    followed by the deletion of its row. *)
Definition documentedTrace (localeCompare : string → string → comparison)
    (k : nat) (applied : list MigrationRecord) : list Event :=
  flat_map (λ r, [down_run r; row_deleted r])
    (take k
       (sortBy (λ a b, localeCompare (rec_version b) (rec_version a))
          applied)).

End MigrationManager.

(** ** MultiClusterPostgres: the transaction entry points *)

Module MultiClusterPostgres.

Import ClusterManager.

(** [transactionManager] is absent when the configuration disables
    transactions. *)
Record t : Type := mk {
  isInitialized : bool;
  clusterManager : ClusterManager.t;
  transactionManager : option DistributedTransaction.t;
}.

Definition set_managers (cm : ClusterManager.t)
    (dt : DistributedTransaction.t) (p : t) : t :=
  {| isInitialized := isInitialized p; clusterManager := cm;
     transactionManager := Some dt |}.

(** The guards every entry point starts with: [_ensureInitialized] and the
    test of [this.transactionManager]. *)
Definition guard (p : t) : result DistributedTransaction.t :=
  if negb (isInitialized p)
  then Throw "MultiClusterPostgres not initialized. Call initialize() first."
  else match transactionManager p with
       | None => Throw "Transactions not enabled"
       | Some dt => Ok dt
       end.

(** What the callback of [withTransaction] is given as [context.query]. *)
Definition ContextQuery : Type :=
  string → list string → QueryOptions → Log
  → result Driver.QueryResult * Log.

Section Coordinator.

Variable weightedDraw : list ConnectionPool → QueryOptions → option nat.
Variable metricIndex :
  LoadBalancer.LoadBalancingStrategy → list ConnectionPool → QueryOptions
  → nat.
Variable driver : Log → WrappedConnection → Driver.Stmt
                  → result Driver.QueryResult.

(** [beginTransaction]; [transactionId] is the uuid drawn by [begin]. *)
Definition beginTransaction (transactionId : string)
    (schemas : list string) (p : t) (log : Log) : result string * t * Log :=
  match guard p with
  | Throw e => (Throw e, p, log)
  | Ok dt =>
      let o :=
        DistributedTransaction.begin weightedDraw metricIndex driver
          transactionId schemas dt (clusterManager p) log in
      (DistributedTransaction.returned o,
       set_managers (DistributedTransaction.cm_after o)
         (DistributedTransaction.dt_after o) p,
       DistributedTransaction.log_after o)
  end.

(** [executeInTransaction]: the operation is [{sql, params, ...options}]. *)
Definition executeInTransaction (transactionId : string) (p : t)
    : ContextQuery :=
  λ sql params options log,
    match guard p with
    | Throw e => (Throw e, log)
    | Ok dt =>
        DistributedTransaction.execute driver transactionId
          {| DistributedTransaction.op_sql := sql;
             DistributedTransaction.op_params := Some params;
             DistributedTransaction.op_schema := opt_schema options;
             DistributedTransaction.op_clusterId := opt_clusterId options |}
          dt (clusterManager p) log
    end.

Definition commitTransaction (transactionId : string) (duration : Z)
    (p : t) (log : Log) : result unit * t * Log :=
  match guard p with
  | Throw e => (Throw e, p, log)
  | Ok dt =>
      let o :=
        DistributedTransaction.commit driver transactionId duration dt
          (clusterManager p) log in
      (DistributedTransaction.returned o,
       set_managers (DistributedTransaction.cm_after o)
         (DistributedTransaction.dt_after o) p,
       DistributedTransaction.log_after o)
  end.

Definition rollbackTransaction (transactionId : string) (duration : Z)
    (p : t) (log : Log) : result unit * t * Log :=
  match guard p with
  | Throw e => (Throw e, p, log)
  | Ok dt =>
      let o :=
        DistributedTransaction.rollback driver transactionId duration dt
          (clusterManager p) log in
      (DistributedTransaction.returned o,
       set_managers (DistributedTransaction.cm_after o)
         (DistributedTransaction.dt_after o) p,
       DistributedTransaction.log_after o)
  end.

(** The [catch] of [withTransaction]: roll back, then rethrow [error];
    a rejection of the rollback itself takes its place. *)
Definition rollbackAndRethrow {T : Type} (transactionId : string)
    (error : string) (duration : Z) (p : t) (log : Log)
    : result T * t * Log :=
  match rollbackTransaction transactionId duration p log with
  | (Throw e, p', log') => (Throw e, p', log')
  | (Ok _, p', log') => (Throw error, p', log')
  end.

(** [withTransaction]; [commitDuration] and [rollbackDuration] are the
    times the clock shows commit and rollback to have taken. *)
Definition withTransaction {T : Type} (transactionId : string)
    (schemas : list string) (callback : ContextQuery → Log → result T * Log)
    (commitDuration rollbackDuration : Z) (p : t) (log : Log)
    : result T * t * Log :=
  match beginTransaction transactionId schemas p log with
  | (Throw e, p1, log1) => (Throw e, p1, log1)
  | (Ok transactionId, p1, log1) =>
      match callback (executeInTransaction transactionId p1) log1 with
      | (Throw error, log2) =>
          rollbackAndRethrow transactionId error rollbackDuration p1 log2
      | (Ok result, log2) =>
          match commitTransaction transactionId commitDuration p1 log2 with
          | (Ok _, p3, log3) => (Ok result, p3, log3)
          | (Throw error, p3, log3) =>
              rollbackAndRethrow transactionId error rollbackDuration p3 log3
          end
      end
  end.

End Coordinator.

End MultiClusterPostgres.

(** ** Auxiliary definitions for the statements, and sample configurations *)

Module Scenario.

Import ClusterManager.

(** The answers of an environment in which the random and metric based
    selectors are never consulted. *)
Definition noDraw {R O : Type} : list R → O → option nat := λ _ _, None.
Definition firstIndex {R O : Type}
    : LoadBalancer.LoadBalancingStrategy → list R → O → nat := λ _ _ _, 0.

(** A driver that accepts every statement and returns no rows. *)
Definition accepting : Log → WrappedConnection → Driver.Stmt
    → result Driver.QueryResult := λ _ _ _, Ok [].

(** The manager with the status of every cluster replaced by [f]. *)
Definition with_status (f : ClusterInfo → ClusterStatus) (cm : t) : t :=
  {| isInitialized := isInitialized cm;
     clusters :=
       map (λ kv : string * ClusterInfo,
              (kv.1, {| cluster_id := cluster_id kv.2;
                        primary := primary kv.2; replicas := replicas kv.2;
                        status := f kv.2;
                        config_schemas := config_schemas kv.2 |}))
         (clusters cm);
     schemaClusterMap := schemaClusterMap cm;
     loadBalancer := loadBalancer cm;
     stats := stats cm |}.

Definition emptyStats : ClusterStats :=
  {| totalConnections := 0; activeConnections := 0; totalQueries := 0;
     failedQueries := 0; clusterStats := ∅ |}.

Definition noOptions : QueryOptions :=
  {| opt_schema := None; opt_operation := None;
     opt_consistencyLevel := None; opt_clusterId := None |}.

(** Cluster A serves schema users and has been marked down by the health
    checker; its primary pool still hands out connections. *)
Definition clusterA_down : ClusterInfo :=
  {| cluster_id := "A"; primary := Some (mkPool "A_primary" true);
     replicas := []; status := down; config_schemas := ["users"] |}.

Definition manager_A_down : t :=
  {| isInitialized := true;
     clusters := [("A", clusterA_down)];
     schemaClusterMap := {["users" := "A"]};
     loadBalancer := LoadBalancer.init;
     stats := emptyStats |}.

Definition options_users : QueryOptions :=
  {| opt_schema := Some "users"; opt_operation := None;
     opt_consistencyLevel := None; opt_clusterId := None |}.

(** Cluster B was registered without a primary connection and has no
    replica. *)
Definition clusterB_bare : ClusterInfo :=
  {| cluster_id := "B"; primary := None; replicas := []; status := active;
     config_schemas := ["orders"] |}.

Definition manager_B_bare : t :=
  {| isInitialized := true;
     clusters := [("B", clusterB_bare)];
     schemaClusterMap := {["orders" := "B"]};
     loadBalancer := LoadBalancer.init;
     stats := emptyStats |}.

Definition options_write_orders : QueryOptions :=
  {| opt_schema := Some "orders"; opt_operation := Some write;
     opt_consistencyLevel := None; opt_clusterId := None |}.

(** Cluster C: a primary and two replicas, all healthy; cluster D: a
    primary only. C serves schema users, D serves schema orders. *)
Definition clusterC : ClusterInfo :=
  {| cluster_id := "C"; primary := Some (mkPool "C_primary" true);
     replicas := [mkPool "C_replica_0" true; mkPool "C_replica_1" true];
     status := active; config_schemas := ["users"] |}.

Definition clusterD : ClusterInfo :=
  {| cluster_id := "D"; primary := Some (mkPool "D_primary" true);
     replicas := []; status := active; config_schemas := ["orders"] |}.

Definition manager_CD : t :=
  {| isInitialized := true;
     clusters := [("C", clusterC); ("D", clusterD)];
     schemaClusterMap := {["users" := "C"; "orders" := "D"]};
     loadBalancer := LoadBalancer.init;
     stats := emptyStats |}.

(** One read of schema users through [executeQuery], answered by the
    accepting driver in 5 ms; the manager it leaves. *)
Definition after_query (cm : t) : t :=
  (executeQuery noDraw firstIndex accepting "SELECT 1" [] options_users 5%Z
     cm []).1.2.

(** A driver that rejects [PREPARE TRANSACTION] on cluster D and accepts
    everything else. *)
Definition prepare_rejected_on_D : Log → WrappedConnection → Driver.Stmt
    → result Driver.QueryResult :=
  λ _ c s,
    match s with
    | Driver.PREPARE_TRANSACTION _ =>
        if String.eqb (conn_clusterId c) "D"
        then Throw "could not prepare" else Ok []
    | _ => Ok []
    end.

Definition connC : WrappedConnection :=
  {| conn_clusterId := "C"; conn_schema := None; conn_pool := "C_primary" |}.
Definition connD : WrappedConnection :=
  {| conn_clusterId := "D"; conn_schema := None; conn_pool := "D_primary" |}.

(** The transaction over schemas users and orders, as [begin] leaves it. *)
Definition tx1 : DistributedTransaction.DistributedTransactionState :=
  {| DistributedTransaction.tx_id := "tx1";
     DistributedTransaction.tx_schemas := ["users"; "orders"];
     DistributedTransaction.tx_clusters := ["C"; "D"];
     DistributedTransaction.state := DistributedTransaction.prepared;
     DistributedTransaction.tx_connections := [("C", connC); ("D", connD)] |}.

Definition begun (driver : Log → WrappedConnection → Driver.Stmt
                           → result Driver.QueryResult)
    : DistributedTransaction.Outcome string :=
  DistributedTransaction.begin noDraw firstIndex driver "tx1"
    ["users"; "orders"] DistributedTransaction.init manager_CD [].

Definition insert_order : DistributedTransaction.Operation :=
  {| DistributedTransaction.op_sql := "INSERT INTO orders VALUES ($1)";
     DistributedTransaction.op_params := Some ["42"];
     DistributedTransaction.op_schema := Some "orders";
     DistributedTransaction.op_clusterId := None |}.

(** A session: one transaction rolled back after 10 ms, then one committed
    after 20 ms. *)
Definition session : list DistributedTransaction.Call :=
  [DistributedTransaction.Begin "t1" ["users"];
   DistributedTransaction.Rollback "t1" 10;
   DistributedTransaction.Begin "t2" ["users"];
   DistributedTransaction.Commit "t2" 20].

Definition after_session
    : DistributedTransaction.t * ClusterManager.t * Log * list Z :=
  DistributedTransaction.run noDraw firstIndex accepting session
    DistributedTransaction.init manager_CD [] [].

(** A cache of capacity two configured for LFU eviction; key a is written
    at time 1 and read at time 2, key b is written at time 3. Both entries
    are unexpired, a has been used once and b never. *)
Definition lfu_config : DistributedCache.CacheConfig :=
  {| DistributedCache.maxSize := 2; DistributedCache.cfg_ttl := 300000;
     DistributedCache.enableCompression := false;
     DistributedCache.compressionThreshold := 1024;
     DistributedCache.strategy := DistributedCache.lfu |}.

Definition plain : DistributedCache.SetOptions :=
  {| DistributedCache.set_ttl := None; DistributedCache.set_tags := [];
     DistributedCache.set_schema := None;
     DistributedCache.set_cluster := None |}.

Definition lfu_cache_full : DistributedCache.t :=
  let c0 := DistributedCache.create lfu_config in
  let c1 := (DistributedCache.set "a" "1" plain 1 c0).2 in
  let c2 := (DistributedCache.get "a" 2 2 c1).2 in
  (DistributedCache.set "b" "2" plain 3 c2).2.

(** The same capacity under FIFO: a is written at 1, b at 2, and a is read
    at 3. *)
Definition fifo_config : DistributedCache.CacheConfig :=
  {| DistributedCache.maxSize := 2; DistributedCache.cfg_ttl := 300000;
     DistributedCache.enableCompression := false;
     DistributedCache.compressionThreshold := 1024;
     DistributedCache.strategy := DistributedCache.fifo |}.

Definition fifo_cache_full : DistributedCache.t :=
  let c0 := DistributedCache.create fifo_config in
  let c1 := (DistributedCache.set "a" "1" plain 1 c0).2 in
  let c2 := (DistributedCache.set "b" "2" plain 2 c1).2 in
  (DistributedCache.get "a" 3 3 c2).2.

(** Three migrations applied, in version order, to schema users on
    cluster A. *)
Definition applied (v : string) : MigrationManager.MigrationRecord :=
  {| MigrationManager.rec_version := v; MigrationManager.rec_name := "m";
     MigrationManager.rec_schema := "users";
     MigrationManager.rec_cluster := "A" |}.

Definition migration (v : string) : MigrationManager.Migration :=
  {| MigrationManager.version := v; MigrationManager.name := "m";
     MigrationManager.targetSchemas := ["users"];
     MigrationManager.down_throws := false |}.

Definition three_applied : MigrationManager.t :=
  {| MigrationManager.isInitialized := true;
     MigrationManager.migrations :=
       {[ "001" := migration "001"; "002" := migration "002";
          "003" := migration "003" ]};
     MigrationManager.clusterConfigs := [("A", ["users"])];
     MigrationManager.schemaClusterMap := {["users" := "A"]};
     MigrationManager.table := [applied "001"; applied "002"; applied "003"];
     MigrationManager.trace := [] |}.

Definition steps_two : MigrationManager.MigrationRollbackOptions :=
  {| MigrationManager.opt_targetVersion := None;
     MigrationManager.opt_steps := Some 2%Z;
     MigrationManager.opt_targetSchemas := Some ["users"];
     MigrationManager.opt_targetClusters := Some ["A"];
     MigrationManager.opt_dryRun := None;
     MigrationManager.opt_force := None |}.

(** On versions written with the same number of digits, the collation of
    every locale and of every database agrees with the order of the code
    units. *)
Definition digitOrder : string → string → comparison := String.compare.

(** A database that answers every control statement. *)
Definition rollback_two : result (nat * nat) * MigrationManager.t :=
  MigrationManager.rollback digitOrder digitOrder (λ _ _, false)
    (λ _, false) (λ _, false) steps_two three_applied.

(** A callback that sends one INSERT on the connection it is given. *)
Definition insert_callback : WrappedConnection → Log
    → result Driver.QueryResult * Log :=
  λ c l, ClusterManager.query accepting c (Driver.SQL "INSERT INTO t VALUES (1)" []) l.

Definition write_to (clusterId : string) : QueryOptions :=
  {| opt_schema := None; opt_operation := Some write;
     opt_consistencyLevel := None; opt_clusterId := Some clusterId |}.

(** A driver that rejects [BEGIN] on cluster D and accepts everything
    else, and one that rejects every statement. *)
Definition begin_rejected_on_D : Log → WrappedConnection → Driver.Stmt
    → result Driver.QueryResult :=
  λ _ c s,
    match s with
    | Driver.BEGIN =>
        if String.eqb (conn_clusterId c) "D"
        then Throw "could not begin" else Ok []
    | _ => Ok []
    end.

Definition rejecting : Log → WrappedConnection → Driver.Stmt
    → result Driver.QueryResult := λ _ _ _, Throw "connection lost".

(** The transaction over schema users alone, as [begin] leaves it, and the
    call that creates it. *)
Definition tx2 : DistributedTransaction.DistributedTransactionState :=
  {| DistributedTransaction.tx_id := "tx2";
     DistributedTransaction.tx_schemas := ["users"];
     DistributedTransaction.tx_clusters := ["C"];
     DistributedTransaction.state := DistributedTransaction.prepared;
     DistributedTransaction.tx_connections := [("C", connC)] |}.

Definition begun_users : DistributedTransaction.Outcome string :=
  DistributedTransaction.begin noDraw firstIndex accepting "tx2"
    ["users"] DistributedTransaction.init manager_CD [].

(** A cache with three entries: u1 (schema users, cluster C, tag hot),
    o1 (schema orders, cluster D, no tag) and u2 (schema users, cluster C,
    tag cold), written at times 1, 2 and 3. *)
Definition labelled (s c : string) (ts : list string)
    : DistributedCache.SetOptions :=
  {| DistributedCache.set_ttl := None; DistributedCache.set_tags := ts;
     DistributedCache.set_schema := Some s;
     DistributedCache.set_cluster := Some c |}.

Definition labelled_cache : DistributedCache.t :=
  let c0 := DistributedCache.create DistributedCache.defaultConfig in
  let c1 :=
    (DistributedCache.set "u1" "1" (labelled "users" "C" ["hot"]) 1 c0).2 in
  let c2 :=
    (DistributedCache.set "o1" "2" (labelled "orders" "D" []) 2 c1).2 in
  (DistributedCache.set "u2" "3" (labelled "users" "C" ["cold"]) 3 c2).2.

(** A cache of capacity one whose only entry is stored under the empty
    string. *)
Definition tiny_config : DistributedCache.CacheConfig :=
  {| DistributedCache.maxSize := 1; DistributedCache.cfg_ttl := 300000;
     DistributedCache.enableCompression := false;
     DistributedCache.compressionThreshold := 1024;
     DistributedCache.strategy := DistributedCache.lru |}.

Definition empty_key_cache : DistributedCache.t :=
  (DistributedCache.set "" "v" plain 1
     (DistributedCache.create tiny_config)).2.

(** A database in which every lock is taken, and one in which only the
    lock for undoing version 003 is. *)
Definition rollback_two_locked : result (nat * nat) * MigrationManager.t :=
  MigrationManager.rollback digitOrder digitOrder (λ _ _, false)
    (λ _, true) (λ _, false) steps_two three_applied.

Definition lock_003_taken : string → bool :=
  λ key, String.eqb key (MigrationManager.lockKey (applied "003")).

(** The same three rows when no migration file is loaded. *)
Definition none_loaded : MigrationManager.t :=
  {| MigrationManager.isInitialized := true;
     MigrationManager.migrations := ∅;
     MigrationManager.clusterConfigs := [("A", ["users"])];
     MigrationManager.schemaClusterMap := {["users" := "A"]};
     MigrationManager.table := [applied "001"; applied "002"; applied "003"];
     MigrationManager.trace := [] |}.


(** A coordinator over clusters C and D with transactions enabled, and a
    callback that inserts one order through [context.query]. *)
Definition coordinator_CD : MultiClusterPostgres.t :=
  {| MultiClusterPostgres.isInitialized := true;
     MultiClusterPostgres.clusterManager := manager_CD;
     MultiClusterPostgres.transactionManager :=
       Some DistributedTransaction.init |}.

Definition order_callback : MultiClusterPostgres.ContextQuery → Log
    → result Driver.QueryResult * Log :=
  λ query log,
    query "INSERT INTO orders VALUES ($1)" ["42"] options_write_orders log.

Definition order_transaction
    (driver : Log → WrappedConnection → Driver.Stmt
              → result Driver.QueryResult)
    : result Driver.QueryResult * MultiClusterPostgres.t * Log :=
  MultiClusterPostgres.withTransaction noDraw firstIndex driver "tx1"
    ["users"; "orders"] order_callback 7 1 coordinator_CD [].

End Scenario.

(** * Properties *)

(** ** Helper lemmas on insertion-ordered maps *)

Lemma JsMap_get_delete_eq {V} (k : string) (m : JsMap.t V) :
  JsMap.get k (JsMap.delete k m) = None.
Proof.
  induction m as [|[k' v] m IH]; simpl; [done|].
  destruct (String.eqb k k') eqn:E; [done|].
  simpl. by rewrite E.
Qed.

Lemma JsMap_get_delete_ne {V} (k k' : string) (m : JsMap.t V) :
  k ≠ k' → JsMap.get k' (JsMap.delete k m) = JsMap.get k' m.
Proof.
  intros Hne. induction m as [|[k0 v] m IH]; simpl; [done|].
  destruct (String.eqb k k0) eqn:E.
  - apply String.eqb_eq in E. subst k0.
    destruct (String.eqb k' k) eqn:E'; [|done].
    apply String.eqb_eq in E'. congruence.
  - simpl. by rewrite IH.
Qed.

Lemma JsMap_get_set_eq {V} (k : string) (v : V) (m : JsMap.t V) :
  JsMap.get k (JsMap.set k v m) = Some v.
Proof.
  induction m as [|[k' v'] m IH]; simpl.
  - by rewrite String.eqb_refl.
  - destruct (String.eqb k k') eqn:E; simpl.
    + by rewrite String.eqb_refl.
    + by rewrite E.
Qed.

Lemma JsMap_get_set_ne {V} (k k' : string) (v : V) (m : JsMap.t V) :
  k ≠ k' → JsMap.get k' (JsMap.set k v m) = JsMap.get k' m.
Proof.
  intros Hne. induction m as [|[k0 v0] m IH]; simpl.
  - destruct (String.eqb k' k) eqn:E; [|done].
    apply String.eqb_eq in E. congruence.
  - destruct (String.eqb k k0) eqn:E; simpl.
    + apply String.eqb_eq in E. subst k0.
      destruct (String.eqb k' k) eqn:E'; [|done].
      apply String.eqb_eq in E'. congruence.
    + by rewrite IH.
Qed.

Lemma JsMap_get_Some_elem {V} (k : string) (v : V) (m : JsMap.t V) :
  JsMap.get k m = Some v → (k, v) ∈ m.
Proof.
  induction m as [|[k' v'] m IH]; simpl; [done|].
  destruct (String.eqb k k') eqn:E.
  - apply String.eqb_eq in E. intros [= ->]. subst. left.
  - intros H. right. by apply IH.
Qed.

(** ** LoadBalancer: round robin is balanced *)

Section RoundRobin.

Context {Replica Options : Type}.
Variable weightedDraw : list Replica → Options → option nat.
Variable metricIndex :
  LoadBalancer.LoadBalancingStrategy → list Replica → Options → nat.

Local Abbreviation selectReplica :=
  (LoadBalancer.selectReplica weightedDraw metricIndex).
Local Abbreviation selectMany :=
  (LoadBalancer.selectMany weightedDraw metricIndex).

Lemma count_occ_seq (i a n : nat) :
  count_occ Nat.eq_dec (seq a n) i = if decide (a ≤ i < a + n) then 1 else 0.
Proof.
  revert a. induction n as [|n IH]; intros a; simpl.
  - case_decide; [lia|done].
  - destruct (Nat.eq_dec a i) as [->|Hne]; rewrite IH.
    + repeat case_decide; lia.
    + repeat case_decide; lia.
Qed.

Lemma seq_add_shift (a n : nat) : seq a n = map (λ j, a + j) (seq 0 n).
Proof.
  induction a as [|a IH].
  - by rewrite List.map_id.
  - rewrite <- seq_shift, IH, List.map_map. done.
Qed.

(** A window of [N] consecutive cursor values visits every index once. *)
Lemma count_occ_window (N c i : nat) :
  i < N →
  count_occ Nat.eq_dec (map (λ j, (c + j) mod N) (seq 0 N)) i = 1.
Proof.
  intros Hi. induction c as [|c IH].
  - rewrite (List.map_ext_in _ (λ j, j)).
    + rewrite List.map_id, count_occ_seq. case_decide; [done|lia].
    + intros j Hj. apply in_seq in Hj. simpl. apply Nat.mod_small. lia.
  - rewrite <- IH.
    pose (f := λ j, (c + j) mod N).
    assert (Hshift : map (λ j, (S c + j) mod N) (seq 0 N) = map f (seq 1 N)).
    { rewrite <- seq_shift, List.map_map. apply List.map_ext.
      intros j. unfold f. f_equal. lia. }
    rewrite Hshift. fold f.
    assert (H1 : count_occ Nat.eq_dec (map f (seq 0 (S N))) i
                 = count_occ Nat.eq_dec (map f (seq 0 N)) i
                   + count_occ Nat.eq_dec [f N] i).
    { rewrite seq_S, List.map_app, count_occ_app. done. }
    assert (H2 : count_occ Nat.eq_dec (map f (seq 0 (S N))) i
                 = count_occ Nat.eq_dec [f 0] i
                   + count_occ Nat.eq_dec (map f (seq 1 N)) i).
    { change (seq 0 (S N)) with ([0] ++ seq 1 N)%list.
      rewrite List.map_app, count_occ_app. done. }
    assert (Hf : f N = f 0).
    { unfold f. rewrite Nat.add_0_r.
      rewrite <- (Nat.Div0.add_mod_idemp_r c N N).
      rewrite Nat.Div0.mod_same, Nat.add_0_r. done. }
    rewrite Hf in H1. lia.
Qed.

Lemma count_occ_rounds (N K c i : nat) :
  i < N →
  count_occ Nat.eq_dec (map (λ j, (c + j) mod N) (seq 0 (N * K))) i = K.
Proof.
  intros Hi. revert c. induction K as [|K IH]; intros c.
  - by rewrite Nat.mul_0_r.
  - replace (N * S K) with (N + N * K) by lia.
    rewrite seq_app, List.map_app, count_occ_app, count_occ_window by done.
    simpl (0 + N).
    rewrite (seq_add_shift N), List.map_map.
    rewrite (List.map_ext _ (λ j, (c + N + j) mod N)).
    + by rewrite IH.
    + intros j. f_equal. lia.
Qed.

Lemma selectReplica_round_robin (replicas : list Replica) (o : Options)
    (lb : LoadBalancer.t) (c : nat) :
  1 ≤ length replicas →
  LoadBalancer.strategy lb = LoadBalancer.round_robin →
  LoadBalancer.currentIndex lb mod length replicas = c mod length replicas →
  ∃ lb',
    selectReplica replicas o lb = Ok (c mod length replicas, lb')
    ∧ LoadBalancer.strategy lb' = LoadBalancer.round_robin
    ∧ LoadBalancer.currentIndex lb' mod length replicas
      = S c mod length replicas.
Proof.
  intros HN Hs Hc. unfold LoadBalancer.selectReplica.
  destruct (length replicas) as [|[|n]] eqn:HL; [lia| |].
  - exists lb. by rewrite !Nat.mod_1_r.
  - rewrite Hs. unfold LoadBalancer.roundRobinSelect. rewrite HL.
    eexists. split; [by rewrite Hc|]. split; [done|].
    unfold LoadBalancer.updateStats. cbn [LoadBalancer.currentIndex].
    rewrite Nat.Div0.mod_mod.
    rewrite <- Nat.Div0.add_mod_idemp_l, Hc, Nat.Div0.add_mod_idemp_l.
    f_equal. lia.
Qed.

Lemma selectMany_round_robin (replicas : list Replica)
    (optionss : list Options) :
  1 ≤ length replicas →
  ∀ (lb : LoadBalancer.t) (c : nat),
    LoadBalancer.strategy lb = LoadBalancer.round_robin →
    LoadBalancer.currentIndex lb mod length replicas = c mod length replicas →
    ∃ lb',
      selectMany replicas optionss lb
      = Ok (map (λ j, (c + j) mod length replicas)
              (seq 0 (length optionss)), lb').
Proof.
  intros HN. induction optionss as [|o os IH]; intros lb c Hs Hc.
  - by exists lb.
  - destruct (selectReplica_round_robin replicas o lb c HN Hs Hc)
      as (lb1 & Hsel & Hs1 & Hc1).
    destruct (IH lb1 (S c) Hs1 Hc1) as (lb2 & Hrest).
    exists lb2. simpl. rewrite Hsel, Hrest. do 2 f_equal.
    rewrite Nat.add_0_r. f_equal.
    rewrite <- seq_shift, List.map_map. apply List.map_ext.
    intros j. f_equal. lia.
Qed.

(** C9. With [N ≥ 1] replicas and [K ≥ 1], any [N × K] consecutive
    [selectReplica] calls of a balancer whose strategy is round_robin all
    return, and each index [0 .. N-1] is returned exactly [K] times,
    whatever the cursor (and the statistics) at the first call and
    whatever options each call passes. *)
Theorem round_robin_balanced (replicas : list Replica)
    (optionss : list Options) (lb : LoadBalancer.t) (N K : nat) :
  length replicas = N → 1 ≤ N → 1 ≤ K →
  length optionss = N * K →
  LoadBalancer.strategy lb = LoadBalancer.round_robin →
  ∃ indices lb',
    selectMany replicas optionss lb = Ok (indices, lb')
    ∧ length indices = N * K
    ∧ ∀ i, i < N → count_occ Nat.eq_dec indices i = K.
Proof.
  intros HN H1 HK Hlen Hs. subst N.
  destruct (selectMany_round_robin replicas optionss H1 lb
              (LoadBalancer.currentIndex lb) Hs eq_refl) as (lb' & Hrun).
  eexists _, lb'. split; [exact Hrun|]. split.
  - by rewrite length_map, length_seq.
  - intros i Hi. rewrite Hlen. by apply count_occ_rounds.
Qed.

End RoundRobin.

(** C9 at three replicas, two rounds, the cursor left at 5 by earlier calls
    on a longer list. *)
Lemma round_robin_balanced_witness :
  ∃ indices lb',
    LoadBalancer.selectMany (Replica := unit) (Options := unit)
      Scenario.noDraw Scenario.firstIndex [(); (); ()] (replicate 6 ())
      {| LoadBalancer.strategy := LoadBalancer.round_robin;
         LoadBalancer.currentIndex := 5;
         LoadBalancer.stats := ∅ |}
    = Ok (indices, lb')
    ∧ length indices = 3 * 2
    ∧ ∀ i, i < 3 → count_occ Nat.eq_dec indices i = 2.
Proof.
  apply (round_robin_balanced Scenario.noDraw Scenario.firstIndex
           [(); (); ()] (replicate 6 ()) _ 3 2);
    [reflexivity | lia | lia | reflexivity | reflexivity].
Defined.

(** Scenario S2 of the design document: two replicas, six reads. *)
Example round_robin_two_replicas :
  fst <$> (match LoadBalancer.selectMany (Replica := unit) (Options := unit)
                   Scenario.noDraw Scenario.firstIndex [(); ()]
                   (replicate 6 ()) LoadBalancer.init with
           | Ok r => Some r
           | Throw _ => None
           end)
  = Some [0; 1; 0; 1; 0; 1].
Proof. reflexivity. Qed.

(** ** ClusterManager: routing *)

Section Routing.

Import ClusterManager.

Variable weightedDraw : list ConnectionPool → QueryOptions → option nat.
Variable metricIndex :
  LoadBalancer.LoadBalancingStrategy → list ConnectionPool → QueryOptions → nat.

Local Abbreviation getConnection :=
  (ClusterManager.getConnection weightedDraw metricIndex).
Local Abbreviation selectPool :=
  (ClusterManager.selectPool weightedDraw metricIndex).

(** The first active id of a well-formed registry is bound to an active
    cluster. *)
Lemma first_active_is_active (m : JsMap.t ClusterInfo) (c : string)
    (rest : list string) :
  JsMap.wf m →
  map fst (filter (λ kv : string * ClusterInfo,
                     status_is_active (status kv.2) = true) m) = c :: rest →
  ∃ cluster, JsMap.get c m = Some cluster ∧ status cluster = active.
Proof.
  unfold JsMap.wf, JsMap.keys.
  induction m as [|[k v] m IH]; intros Hwf Hf; [done|].
  simpl in Hwf. apply NoDup_cons in Hwf as [Hk Hwf].
  rewrite filter_cons in Hf. simpl in Hf. case_decide as Hact.
  - simpl in Hf. injection Hf as -> _. exists v. simpl.
    rewrite String.eqb_refl. split; [done|].
    by destruct (status v).
  - destruct (IH Hwf Hf) as (cl & Hget & Hst). exists cl. simpl.
    destruct (String.eqb c k) eqn:E; [|done].
    apply String.eqb_eq in E. subst k. exfalso. apply Hk.
    assert (Hin : c ∈ map fst (filter (λ kv : string * ClusterInfo,
                     status_is_active (status kv.2) = true) m)).
    { rewrite Hf. left. }
    apply list_elem_of_In in Hin.
    apply in_map_iff in Hin as ([k' v'] & Heq & Hin). simpl in Heq. subst k'.
    apply list_elem_of_In in Hin. apply list_elem_of_filter in Hin as [_ Hin].
    apply list_elem_of_In, in_map_iff. exists (c, v').
    split; [done|]. by apply list_elem_of_In.
Qed.

Lemma resolveTarget_with_status (f : ClusterInfo → ClusterStatus)
    (options : QueryOptions) (cm : t) :
  truthy (opt_clusterId options) = true ∨ truthy (opt_schema options) = true →
  resolveTarget options (Scenario.with_status f cm) = resolveTarget options cm.
Proof.
  intros H. unfold resolveTarget, truthy_val.
  destruct (truthy (opt_clusterId options)) eqn:E1.
  - by destruct (opt_clusterId options).
  - destruct H as [|H]; [done|]. rewrite H.
    by destruct (opt_schema options).
Qed.

Lemma get_with_status (f : ClusterInfo → ClusterStatus) (k : string)
    (m : JsMap.t ClusterInfo) :
  JsMap.get k
    (map (λ kv : string * ClusterInfo,
            (kv.1, {| cluster_id := cluster_id kv.2;
                      primary := primary kv.2; replicas := replicas kv.2;
                      status := f kv.2;
                      config_schemas := config_schemas kv.2 |})) m)
  = (λ v, {| cluster_id := cluster_id v; primary := primary v;
             replicas := replicas v; status := f v;
             config_schemas := config_schemas v |}) <$> JsMap.get k m.
Proof.
  induction m as [|[k' v] m IH]; simpl; [done|].
  by destruct (String.eqb k k').
Qed.

(** [getConnection] opened up after the registry lookup succeeded. *)
Lemma getConnection_found (options : QueryOptions) (cm : t)
    (target : string) (cluster : ClusterInfo) :
  isInitialized cm = true →
  resolveTarget options cm = Ok target →
  JsMap.get target (clusters cm) = Some cluster →
  (getConnection options cm).1
  = match (selectPool
             (_shouldUseReplica (default read (opt_operation options))
                (default eventual (opt_consistencyLevel options)))
             target cluster options (loadBalancer cm)).1 with
    | Throw e => Throw e
    | Ok pool =>
        match pool_getConnection pool with
        | Throw e => Throw e
        | Ok _ => Ok {| conn_clusterId := target;
                        conn_schema := opt_schema options;
                        conn_pool := poolId pool |}
        end
    end.
Proof.
  intros Hi Hr Hg. unfold ClusterManager.getConnection.
  rewrite Hi, Hr, Hg. simpl.
  destruct (selectPool _ _ _ _ _) as [[pool|e] lb']; simpl; [|done].
  by destruct (pool_getConnection pool).
Qed.

Lemma wf_position_get {V} (m before after : JsMap.t V) (k : string)
    (v : V) :
  JsMap.wf m → m = (before ++ (k, v) :: after)%list →
  JsMap.get k m = Some v.
Proof.
  intros Hwf ->. unfold JsMap.wf, JsMap.keys in Hwf.
  induction before as [|[k' v'] before IH]; cbn [app JsMap.get].
  - by rewrite String.eqb_refl.
  - cbn [app map fst] in Hwf. apply NoDup_cons in Hwf as [Hk Hwf].
    destruct (String.eqb k k') eqn:E; [|by apply IH].
    apply String.eqb_eq in E. subst k'. exfalso. apply Hk.
    rewrite map_app. apply elem_of_app. right. left.
Qed.

(** The list of active clusters is empty exactly when no cluster of the
    registry is active; otherwise its head is the key of the first active
    entry of the registry. *)
Lemma availableClusters_none (cm : t) :
  (∀ id cluster, (id, cluster) ∈ clusters cm → status cluster ≠ active) →
  availableClusters cm = [].
Proof.
  unfold availableClusters. intros Hnone.
  induction (clusters cm) as [|[k v] m IH]; [done|].
  rewrite filter_cons. cbn [snd]. case_decide as Hact.
  - exfalso. apply (Hnone k v); [left|]. by destruct (status v).
  - apply IH. intros id cluster Hin. apply (Hnone id cluster). by right.
Qed.

Lemma availableClusters_head (cm : t) (c : string) (rest : list string) :
  availableClusters cm = c :: rest →
  ∃ before cluster after,
    clusters cm = (before ++ (c, cluster) :: after)%list
    ∧ status cluster = active
    ∧ ∀ id cluster', (id, cluster') ∈ before → status cluster' ≠ active.
Proof.
  unfold availableClusters.
  induction (clusters cm) as [|[k v] m IH]; [done|].
  rewrite filter_cons. cbn [snd]. case_decide as Hact.
  - cbn [map fst]. intros [= -> _]. exists [], v, m.
    split; [done|]. split; [by destruct (status v)|].
    intros id cluster' Hin. by apply elem_of_nil in Hin.
  - intros Hrest.
    destruct (IH Hrest) as (before & cluster & after & -> & Hst & Hfirst).
    exists ((k, v) :: before), cluster, after.
    split; [done|]. split; [done|].
    intros id cluster' Hin. apply elem_of_cons in Hin as [Hin|Hin].
    + injection Hin as -> ->. intros Hv. apply Hact. by rewrite Hv.
    + by eapply Hfirst.
Qed.

(** C1, as the code has it. The status of the target is consulted only when
    the call names neither a cluster nor a schema: the default then is the
    first active cluster, so a connection obtained by default always belongs
    to an active cluster, and the call fails when no cluster is active. A
    cluster named by [clusterId] or resolved through the schema map is used
    whatever its status: the outcome of the call is the same under every
    assignment of statuses. *)
Theorem getConnection_status_only_by_default (options : QueryOptions)
    (cm : t) :
  JsMap.wf (clusters cm) →
  isInitialized cm = true →
  (truthy (opt_clusterId options) = false →
   truthy (opt_schema options) = false →
   ((∀ id cluster, (id, cluster) ∈ clusters cm → status cluster ≠ active) →
    getConnection options cm = (Throw "No active clusters available", cm))
   ∧ ∀ conn cm',
       getConnection options cm = (Ok conn, cm') →
       ∃ before cluster after,
         clusters cm
         = (before ++ (conn_clusterId conn, cluster) :: after)%list
         ∧ status cluster = active
         ∧ (∀ id cluster', (id, cluster') ∈ before →
              status cluster' ≠ active)
         ∧ JsMap.get (conn_clusterId conn) (clusters cm) = Some cluster)
  ∧ (truthy (opt_clusterId options) = true
     ∨ truthy (opt_schema options) = true →
     ∀ f : ClusterInfo → ClusterStatus,
       (getConnection options (Scenario.with_status f cm)).1
       = (getConnection options cm).1).
Proof.
  intros Hwf Hinit. split.
  - intros Hc Hs.
    assert (Hres : resolveTarget options cm
                   = match availableClusters cm with
                     | [] => Throw "No active clusters available"
                     | c :: _ => Ok c
                     end).
    { unfold resolveTarget, truthy_val. by rewrite Hc, Hs. }
    split.
    + intros Hnone. unfold ClusterManager.getConnection.
      by rewrite Hinit, Hres, (availableClusters_none cm Hnone).
    + intros conn cm' Hget.
      destruct (availableClusters cm) as [|c rest] eqn:Hav.
      { unfold ClusterManager.getConnection in Hget.
        rewrite Hinit, Hres in Hget. simpl in Hget. congruence. }
      destruct (availableClusters_head cm c rest Hav)
        as (before & cluster & after & Hcm & Hact & Hfirst).
      assert (Hc1 : JsMap.get c (clusters cm) = Some cluster).
      { apply (wf_position_get (clusters cm) before after c cluster Hwf Hcm). }
      pose proof (getConnection_found options cm c cluster Hinit Hres Hc1)
        as Hopen.
      rewrite Hget in Hopen. simpl in Hopen.
      exists before, cluster, after.
      destruct (selectPool _ _ _ _ _).1 as [pool|e]; [|done].
      destruct (pool_getConnection pool); [|done].
      injection Hopen as ->. done.
  - intros Hnamed f. unfold ClusterManager.getConnection.
    rewrite (resolveTarget_with_status f options cm Hnamed).
    change (isInitialized (Scenario.with_status f cm)) with (isInitialized cm).
    rewrite Hinit. simpl.
    destruct (resolveTarget options cm) as [target|e]; [|done].
    unfold Scenario.with_status at 1. cbn [clusters].
    rewrite get_with_status.
    destruct (JsMap.get target (clusters cm)) as [cluster|]; [|done].
    simpl.
    change (loadBalancer (Scenario.with_status f cm)) with (loadBalancer cm).
    unfold ClusterManager.selectPool. cbn [replicas primary].
    destruct (_ && _).
    + destruct (LoadBalancer.selectReplica _ _ _ _ _) as [[i lb']|e];
        [|done].
      destruct (replicas cluster !! i) as [pool|]; [|done].
      by destruct (pool_getConnection pool).
    + destruct (primary cluster) as [pool|]; [|done].
      by destruct (pool_getConnection pool).
Qed.

Lemma selectReplica_nonempty (rs : list ConnectionPool)
    (options : QueryOptions) (lb : LoadBalancer.t) :
  rs ≠ [] →
  ∃ index lb',
    LoadBalancer.selectReplica weightedDraw metricIndex rs options lb
    = Ok (index, lb').
Proof.
  intros Hne. unfold LoadBalancer.selectReplica.
  destruct rs as [|r [|r' rs]]; [done| |]; simpl.
  - by eexists _, _.
  - destruct (LoadBalancer.strategy lb);
      eexists _, _; f_equal; apply surjective_pairing.
Qed.

Lemma replica_branch_iff (operation : OperationType)
    (consistencyLevel : ConsistencyLevel) (rs : list ConnectionPool) :
  _shouldUseReplica operation consistencyLevel && (0 <? length rs) = true
  ↔ operation ≠ write ∧ consistencyLevel ≠ strong ∧ rs ≠ [].
Proof.
  destruct operation, consistencyLevel, rs; simpl; split;
    try done; try (intros (? & ? & ?); done).
Qed.

(** C3, as the code has it. Once the target cluster is resolved, the pool is
    taken from the replica list, at the index the load balancer returns,
    exactly when the operation is not write, the consistency level is not
    strong and the replica list is not empty. In every other case the
    primary pool is used if the cluster has one, and the call fails if it
    has none. *)
Theorem getConnection_pool_choice (options : QueryOptions) (cm : t)
    (target : string) (cluster : ClusterInfo) :
  isInitialized cm = true →
  resolveTarget options cm = Ok target →
  JsMap.get target (clusters cm) = Some cluster →
  let operation := default read (opt_operation options) in
  let consistencyLevel := default eventual (opt_consistencyLevel options) in
  let fromPool (pool : ConnectionPool) : result WrappedConnection :=
    match pool_getConnection pool with
    | Ok _ => Ok {| conn_clusterId := target;
                    conn_schema := opt_schema options;
                    conn_pool := poolId pool |}
    | Throw e => Throw e
    end in
  (operation ≠ write ∧ consistencyLevel ≠ strong ∧ replicas cluster ≠ [] →
   ∃ index lb',
     LoadBalancer.selectReplica weightedDraw metricIndex (replicas cluster)
       options (loadBalancer cm) = Ok (index, lb')
     ∧ (getConnection options cm).1
       = match replicas cluster !! index with
         | Some pool => fromPool pool
         | None => Throw "TypeError: pool is undefined"
         end)
  ∧ (¬ (operation ≠ write ∧ consistencyLevel ≠ strong
        ∧ replicas cluster ≠ []) →
     (getConnection options cm).1
     = match primary cluster with
       | Some pool => fromPool pool
       | None =>
           Throw ("No suitable connection pool found for cluster: "
                  +:+ target)
       end).
Proof.
  intros Hinit Hres Hget operation consistencyLevel fromPool.
  rewrite (getConnection_found options cm target cluster Hinit Hres Hget).
  unfold ClusterManager.selectPool.
  fold operation consistencyLevel.
  pose proof (replica_branch_iff operation consistencyLevel
                (replicas cluster)) as Hiff.
  destruct (_shouldUseReplica operation consistencyLevel
            && (0 <? length (replicas cluster))) eqn:Hb.
  - split; [|intros Hn; exfalso; apply Hn; by apply Hiff].
    intros (_ & _ & Hne).
    destruct (selectReplica_nonempty (replicas cluster) options
                (loadBalancer cm) Hne) as (index & lb' & Hsel).
    exists index, lb'. split; [done|]. rewrite Hsel.
    destruct (replicas cluster !! index) as [pool|]; [|done].
    simpl. unfold fromPool. by destruct (pool_getConnection pool).
  - split; [intros Hc; apply Hiff in Hc; done|].
    intros _. destruct (primary cluster) as [pool|]; [|done].
    simpl. unfold fromPool. by destruct (pool_getConnection pool).
Qed.

(** ** ClusterManager: the active-connection counter *)

Variable driver : Log → WrappedConnection → Driver.Stmt
                  → result Driver.QueryResult.

Local Abbreviation executeQuery :=
  (ClusterManager.executeQuery weightedDraw metricIndex driver).

Lemma getConnection_increments (options : QueryOptions) (cm cm1 : t)
    (conn : WrappedConnection) :
  getConnection options cm = (Ok conn, cm1) →
  activeConnections (stats cm1) = (activeConnections (stats cm) + 1)%Z.
Proof.
  unfold ClusterManager.getConnection.
  destruct (negb (isInitialized cm)); [done|].
  destruct (resolveTarget options cm) as [target|]; [|done].
  destruct (JsMap.get target (clusters cm)) as [cluster|]; [|done].
  destruct (selectPool _ _ _ _ _) as [[pool|e] lb']; [|done].
  destruct (pool_getConnection pool); [|done].
  by intros [= _ <-].
Qed.

Lemma getConnection_failure_keeps_counter (options : QueryOptions)
    (cm cm1 : t) (e : string) :
  getConnection options cm = (Throw e, cm1) →
  activeConnections (stats cm1) = activeConnections (stats cm).
Proof.
  unfold ClusterManager.getConnection.
  destruct (negb (isInitialized cm)); [by intros [= _ <-]|].
  destruct (resolveTarget options cm) as [target|]; [|by intros [= _ <-]].
  destruct (JsMap.get target (clusters cm)) as [cluster|];
    [|by intros [= _ <-]].
  destruct (selectPool _ _ _ _ _) as [[pool|e'] lb']; [|by intros [= _ <-]].
  destruct (pool_getConnection pool); [done|].
  by intros [= _ <-].
Qed.

Lemma _updateClusterStats_counter (clusterId : string) (responseTime : Z)
    (cm : t) :
  activeConnections (stats (_updateClusterStats clusterId responseTime cm))
  = activeConnections (stats cm).
Proof.
  unfold _updateClusterStats.
  by destruct (clusterStats (stats cm) !! clusterId).
Qed.

(** C10, as the code has it. An [executeQuery] call that obtains a
    connection increments the counter once (in [getConnection]) and
    decrements it twice: in the wrapped [release], clamped at zero, and once
    more, unguarded, in the [finally] block. The counter it leaves is
    therefore [max 0 before - 1]: one less than before when the counter was
    non-negative, unchanged when it was already -1, and negative whenever it
    was at most 0; in particular a manager that holds no connection and
    counts 0 counts -1 after the query, although it again holds none. *)
Theorem executeQuery_counter (sql : string) (params : list string)
    (options : QueryOptions) (responseTime : Z) (cm cm1 : t) (log : Log)
    (connection : WrappedConnection) :
  getConnection options cm = (Ok connection, cm1) →
  let before := activeConnections (stats cm) in
  let after :=
    activeConnections
      (stats (executeQuery sql params options responseTime cm log).1.2) in
  activeConnections (stats cm1) = (before + 1)%Z
  ∧ after = (Z.max 0 (before + 1 - 1) - 1)%Z
  ∧ ((0 ≤ before)%Z → after = (before - 1)%Z)
  ∧ (before = (-1)%Z → after = before)
  ∧ ((before ≤ 0)%Z → after = (-1)%Z).
Proof.
  intros Hget before after.
  pose proof (getConnection_increments options cm cm1 connection Hget)
    as Hinc.
  assert (Hafter : after = (Z.max 0 (before + 1 - 1) - 1)%Z).
  { unfold after, before, ClusterManager.executeQuery. rewrite Hget.
    unfold ClusterManager.query.
    destruct (driver log connection (Driver.SQL sql params)) as [rows|e];
      cbn -[Z.max Z.sub Z.add]; rewrite ?_updateClusterStats_counter;
      cbn -[Z.max Z.sub Z.add]; by rewrite Hinc. }
  split; [done|]. split; [done|]. rewrite Hafter. lia.
Qed.

End Routing.

(** C1 fails as stated: schema users is routed to cluster A although A is
    down and the caller named no cluster, and the call returns a
    connection. *)
Lemma getConnection_schema_route_to_down_cluster :
  ClusterManager.resolveTarget Scenario.options_users Scenario.manager_A_down
  = Ok "A"
  ∧ ClusterManager.status <$>
      JsMap.get "A" (ClusterManager.clusters Scenario.manager_A_down)
    = Some ClusterManager.down
  ∧ truthy (ClusterManager.opt_clusterId Scenario.options_users) = false
  ∧ (ClusterManager.getConnection Scenario.noDraw Scenario.firstIndex
       Scenario.options_users Scenario.manager_A_down).1
    = Ok {| ClusterManager.conn_clusterId := "A";
            ClusterManager.conn_schema := Some "users";
            ClusterManager.conn_pool := "A_primary" |}.
Proof. repeat split; vm_compute; reflexivity. Qed.

Lemma getConnection_status_only_by_default_witness :
  ∃ cluster,
    JsMap.get "C" (ClusterManager.clusters Scenario.manager_CD) = Some cluster
    ∧ ClusterManager.status cluster = ClusterManager.active.
Proof.
  assert (Hwf : JsMap.wf (ClusterManager.clusters Scenario.manager_CD)).
  { unfold JsMap.wf. simpl. apply NoDup_cons. split.
    - rewrite list_elem_of_singleton. discriminate.
    - apply NoDup_singleton. }
  destruct (getConnection_status_only_by_default Scenario.noDraw
              Scenario.firstIndex Scenario.noOptions Scenario.manager_CD
              Hwf eq_refl) as [Hdefault _].
  destruct (Hdefault eq_refl eq_refl) as [_ Hactive].
  destruct (Hactive {| ClusterManager.conn_clusterId := "C";
                       ClusterManager.conn_schema := None;
                       ClusterManager.conn_pool := "C_replica_0" |}
              (ClusterManager.getConnection Scenario.noDraw
                 Scenario.firstIndex Scenario.noOptions
                 Scenario.manager_CD).2)
    as (before & cluster & after & _ & Hstatus & _ & Hget).
  - vm_compute. reflexivity.
  - exists cluster. split; [exact Hget | exact Hstatus].
Defined.

(** C3 fails as stated: a write to a cluster registered without a primary
    (and without replicas) is not a replica case, yet no primary pool is
    used: the call throws. *)
Lemma getConnection_without_primary_throws :
  ClusterManager.isInitialized Scenario.manager_B_bare = true
  ∧ ClusterManager.resolveTarget Scenario.options_write_orders
      Scenario.manager_B_bare = Ok "B"
  ∧ JsMap.get "B" (ClusterManager.clusters Scenario.manager_B_bare)
    = Some Scenario.clusterB_bare
  ∧ ClusterManager.opt_operation Scenario.options_write_orders
    = Some ClusterManager.write
  ∧ ClusterManager.primary Scenario.clusterB_bare = None
  ∧ (ClusterManager.getConnection Scenario.noDraw Scenario.firstIndex
       Scenario.options_write_orders Scenario.manager_B_bare).1
    = Throw "No suitable connection pool found for cluster: B".
Proof. repeat split; vm_compute; reflexivity. Qed.

Lemma getConnection_pool_choice_witness :
  (ClusterManager.getConnection Scenario.noDraw Scenario.firstIndex
     Scenario.options_write_orders Scenario.manager_CD).1
  = Ok {| ClusterManager.conn_clusterId := "D";
          ClusterManager.conn_schema := Some "orders";
          ClusterManager.conn_pool := "D_primary" |}.
Proof.
  destruct (getConnection_pool_choice Scenario.noDraw Scenario.firstIndex
              Scenario.options_write_orders Scenario.manager_CD "D"
              Scenario.clusterD eq_refl eq_refl eq_refl) as [_ Hprimary].
  rewrite Hprimary; [reflexivity|].
  intros (Hop & _). apply Hop. reflexivity.
Defined.

(** C10 fails as stated: the first query leaves the counter at -1, and the
    second query, which obtains a connection as well, leaves it at -1
    again: its net change is 0, not -1. *)
Lemma executeQuery_second_query_net_zero :
  is_ok (ClusterManager.getConnection Scenario.noDraw Scenario.firstIndex
           Scenario.options_users
           (Scenario.after_query Scenario.manager_CD)).1 = true
  ∧ ClusterManager.activeConnections
      (ClusterManager.stats (Scenario.after_query Scenario.manager_CD))
    = (-1)%Z
  ∧ (ClusterManager.activeConnections
       (ClusterManager.stats
          (Scenario.after_query (Scenario.after_query Scenario.manager_CD)))
     - ClusterManager.activeConnections
         (ClusterManager.stats (Scenario.after_query Scenario.manager_CD)))%Z
    = 0%Z.
Proof. repeat split; vm_compute; reflexivity. Qed.

Lemma executeQuery_counter_witness :
  ClusterManager.activeConnections
    (ClusterManager.stats
       (ClusterManager.executeQuery Scenario.noDraw Scenario.firstIndex
          Scenario.accepting "SELECT 1" [] Scenario.options_users 5%Z
          Scenario.manager_CD []).1.2)
  = (-1)%Z.
Proof.
  destruct (executeQuery_counter Scenario.noDraw Scenario.firstIndex
              Scenario.accepting "SELECT 1" [] Scenario.options_users 5%Z
              Scenario.manager_CD
              (ClusterManager.getConnection Scenario.noDraw
                 Scenario.firstIndex Scenario.options_users
                 Scenario.manager_CD).2
              []
              {| ClusterManager.conn_clusterId := "C";
                 ClusterManager.conn_schema := Some "users";
                 ClusterManager.conn_pool := "C_replica_0" |})
    as (_ & _ & _ & _ & Hneg).
  - vm_compute. reflexivity.
  - apply Hneg. vm_compute. discriminate.
Defined.

(** ** DistributedTransaction: two-phase commit, execute *)

Section TwoPhaseCommit.

Import Driver.
Import ClusterManager.
Import DistributedTransaction.

Variable weightedDraw : list ConnectionPool → QueryOptions → option nat.
Variable metricIndex :
  LoadBalancer.LoadBalancingStrategy → list ConnectionPool → QueryOptions → nat.
Variable driver : Log → WrappedConnection → Stmt → result QueryResult.

Local Abbreviation sendAll := (DistributedTransaction.sendAll driver).
Local Abbreviation commit := (DistributedTransaction.commit driver).
Local Abbreviation rollback := (DistributedTransaction.rollback driver).
Local Abbreviation execute := (DistributedTransaction.execute driver).

Lemma sendAll_log (stmt : Stmt) (cs : list (string * WrappedConnection))
    (log : Log) :
  (sendAll stmt cs log).2
  = (log ++ map (λ kc : string * WrappedConnection, (kc.2, stmt)) cs)%list.
Proof.
  revert log. induction cs as [|[cid c] cs IH]; intros log; simpl.
  - by rewrite app_nil_r.
  - specialize (IH (log ++ [(c, stmt)])%list).
    destruct (sendAll stmt cs (log ++ [(c, stmt)])%list) as [rs log2].
    simpl in *. rewrite IH, <- app_assoc. done.
Qed.

(** The [i]-th result reports on the [i]-th connection. *)
Lemma sendAll_results_lookup (stmt : Stmt)
    (cs : list (string * WrappedConnection)) (log : Log) (i : nat)
    (cid : string) (b : bool) :
  (sendAll stmt cs log).1 !! i = Some (cid, b) →
  ∃ c, cs !! i = Some (cid, c).
Proof.
  revert log i. induction cs as [|[cid' c] cs IH]; intros log i; simpl.
  - by rewrite lookup_nil.
  - specialize (IH (log ++ [(c, stmt)])%list).
    destruct (sendAll stmt cs (log ++ [(c, stmt)])%list) as [rs log2].
    simpl in *. destruct i as [|i]; simpl.
    + intros [= -> _]. by exists c.
    + apply IH.
Qed.

Lemma wf_lookup_get {V} (m : JsMap.t V) (i : nat) (k : string) (v : V) :
  JsMap.wf m → m !! i = Some (k, v) → JsMap.get k m = Some v.
Proof.
  unfold JsMap.wf, JsMap.keys. revert i.
  induction m as [|[k' v'] m IH]; intros i Hwf Hi; [done|].
  simpl in Hwf. apply NoDup_cons in Hwf as [Hk Hwf]. simpl.
  destruct i as [|i]; simpl in Hi.
  - injection Hi as -> ->. by rewrite String.eqb_refl.
  - destruct (String.eqb k k') eqn:E.
    + apply String.eqb_eq in E. subst k'. exfalso. apply Hk.
      apply list_elem_of_In, in_map_iff. exists (k, v).
      split; [done|]. apply list_elem_of_In. by eapply list_elem_of_lookup_2.
    + by eapply IH.
Qed.

(** What [abortPreparedTransactions] sends: a [ROLLBACK PREPARED] to the
    connection of every successful result, and nothing else. *)
Lemma abortPreparedTransactions_log (tx : DistributedTransactionState)
    (rs : list (string * bool)) (log : Log) :
  ∃ sent,
    abortPreparedTransactions driver tx rs log = (log ++ sent)%list
    ∧ (∀ cid c, (cid, true) ∈ rs →
         JsMap.get cid (tx_connections tx) = Some c →
         (c, ROLLBACK_PREPARED (tx_id tx)) ∈ sent)
    ∧ (∀ x, x ∈ sent → x.2 = ROLLBACK_PREPARED (tx_id tx)).
Proof.
  unfold abortPreparedTransactions, ClusterManager.query. simpl.
  revert log. induction rs as [|[cid b] rs IH]; intros log.
  - exists []. rewrite app_nil_r. split; [done|].
    split; intros *; by rewrite ?elem_of_nil.
  - rewrite filter_cons. simpl. destruct b; case_decide; try done.
    + simpl.
      destruct (JsMap.get cid (tx_connections tx)) as [c0|] eqn:Hget.
      * destruct (IH (log ++ [(c0, ROLLBACK_PREPARED (tx_id tx))])%list)
          as (sent & Heq & Hall & Honly).
        exists ((c0, ROLLBACK_PREPARED (tx_id tx)) :: sent).
        split; [by rewrite Heq, <- app_assoc|]. split.
        -- intros cid' c Hin Hc. apply elem_of_cons in Hin as [Hin|Hin].
           ++ injection Hin as ->. rewrite Hget in Hc. injection Hc as ->.
              left.
           ++ right. by eapply Hall.
        -- intros x Hx. apply elem_of_cons in Hx as [->|Hx]; [done|].
           by apply Honly.
      * destruct (IH log) as (sent & Heq & Hall & Honly).
        exists sent. split; [done|]. split; [|done].
        intros cid' c Hin Hc. apply elem_of_cons in Hin as [Hin|Hin].
        -- injection Hin as ->. congruence.
        -- by eapply Hall.
    + destruct (IH log) as (sent & Heq & Hall & Honly).
      exists sent. split; [done|]. split; [|done].
      intros cid' c Hin Hc. apply elem_of_cons in Hin as [Hin|Hin]; [done|].
      by eapply Hall.
Qed.

Lemma elem_of_sent (stmt : Stmt) (cs : list (string * WrappedConnection))
    (i : nat) (cid : string) (c : WrappedConnection) :
  cs !! i = Some (cid, c) →
  (c, stmt) ∈ map (λ kc : string * WrappedConnection, (kc.2, stmt)) cs.
Proof.
  intros Hi. apply list_elem_of_In, in_map_iff. exists (cid, c).
  split; [done|]. apply list_elem_of_In. by eapply list_elem_of_lookup_2.
Qed.

(** What [sendAll] records for the [i]-th connection is the driver's answer
    to the statement at the moment it is sent: after the statements on the
    connections before it. *)
Lemma sendAll_results (stmt : Stmt) (cs : list (string * WrappedConnection))
    (log : Log) (i : nat) :
  (sendAll stmt cs log).1 !! i
  = (λ kc : string * WrappedConnection,
       (kc.1,
        is_ok (driver
                 (log ++ map (λ kc' : string * WrappedConnection,
                                (kc'.2, stmt)) (take i cs))%list
                 kc.2 stmt)))
      <$> cs !! i.
Proof.
  revert log i. induction cs as [|[cid c] cs IH]; intros log i.
  - by rewrite !lookup_nil.
  - cbn [DistributedTransaction.sendAll]. unfold ClusterManager.query.
    specialize (IH (log ++ [(c, stmt)])%list).
    destruct (sendAll stmt cs (log ++ [(c, stmt)])%list) as [rs log2].
    cbn [fst] in *. destruct i as [|i]; cbn [lookup list_lookup take map].
    + cbn. by rewrite app_nil_r.
    + rewrite IH. cbn [snd]. by rewrite <- app_assoc.
Qed.

Lemma sendAll_keys (stmt : Stmt) (cs : list (string * WrappedConnection))
    (log : Log) :
  map fst (sendAll stmt cs log).1 = JsMap.keys cs.
Proof.
  unfold JsMap.keys. revert log.
  induction cs as [|[cid c] cs IH]; intros log; [done|].
  cbn [DistributedTransaction.sendAll]. unfold ClusterManager.query.
  specialize (IH (log ++ [(c, stmt)])%list).
  destruct (sendAll stmt cs (log ++ [(c, stmt)])%list) as [rs log2].
  cbn in *. by rewrite IH.
Qed.

Lemma failedClusters_sublist (rs : list (string * bool)) :
  failedClusters rs `sublist_of` map fst rs.
Proof.
  unfold failedClusters. induction rs as [|[cid b] rs IH]; [done|].
  rewrite filter_cons. cbn [snd map fst]. case_decide.
  - cbn [map fst]. by apply sublist_skip.
  - by apply sublist_cons.
Qed.

Lemma elem_of_failedClusters (rs : list (string * bool)) (cid : string) :
  cid ∈ failedClusters rs ↔ ∃ i, rs !! i = Some (cid, false).
Proof.
  unfold failedClusters. split.
  - intros Hin. apply list_elem_of_In, in_map_iff in Hin
      as ([cid' b] & Heq & Hin).
    cbn in Heq. subst cid'. apply list_elem_of_In in Hin.
    apply list_elem_of_filter in Hin as [Hb Hin]. cbn in Hb. subst b.
    by apply list_elem_of_lookup_1.
  - intros (i & Hi). apply list_elem_of_In, in_map_iff.
    exists (cid, false). split; [done|]. apply list_elem_of_In.
    apply list_elem_of_filter. split; [done|].
    by eapply list_elem_of_lookup_2.
Qed.

Lemma twoPhaseCommit_failed (tx : DistributedTransactionState) (log : Log) :
  failedClusters
    (sendAll (PREPARE_TRANSACTION (tx_id tx)) (tx_connections tx) log).1
  ≠ [] →
  twoPhaseCommit driver tx log
  = (Throw ("Prepare phase failed on clusters: "
            +:+ String.concat ", "
                  (failedClusters
                     (sendAll (PREPARE_TRANSACTION (tx_id tx))
                        (tx_connections tx) log).1)),
     abortPreparedTransactions driver tx
       (sendAll (PREPARE_TRANSACTION (tx_id tx)) (tx_connections tx) log).1
       (sendAll (PREPARE_TRANSACTION (tx_id tx)) (tx_connections tx) log).2).
Proof.
  intros Hfailed. unfold twoPhaseCommit.
  destruct (sendAll (PREPARE_TRANSACTION (tx_id tx)) (tx_connections tx) log)
    as [rs log1].
  cbn [fst snd] in *. by destruct (failedClusters rs).
Qed.

(** C2. A commit of a multi-cluster transaction in which the driver rejects
    the [PREPARE TRANSACTION] of some participant raises the error that
    names, in the order of the connections, the clusters whose [PREPARE]
    was rejected; the transaction ends aborted and is forgotten; every
    participant connection received the [PREPARE] and then a [ROLLBACK];
    every participant whose [PREPARE] the driver accepted received
    [ROLLBACK PREPARED]; and no [COMMIT PREPARED] was sent to anyone. The
    driver's answer to the [j]-th [PREPARE] is its answer after the
    [PREPARE]s on the connections before it. *)
Theorem commit_prepare_failure (transactionId : string) (duration : Z)
    (dt : DistributedTransaction.t) (cm : ClusterManager.t) (log : Log)
    (tx : DistributedTransactionState) (i : nat) (cid : string)
    (c : WrappedConnection) (e : string) :
  activeTransactions dt !! transactionId = Some tx →
  JsMap.wf (tx_connections tx) →
  1 < length (tx_clusters tx) →
  let prepare := PREPARE_TRANSACTION (tx_id tx) in
  let answer (j : nat) (c' : WrappedConnection) : result QueryResult :=
    driver
      (log ++ map (λ kc : string * WrappedConnection, (kc.2, prepare))
                (take j (tx_connections tx)))%list
      c' prepare in
  tx_connections tx !! i = Some (cid, c) →
  answer i c = Throw e →
  let o := commit transactionId duration dt cm log in
  ∃ (sent : Log) (failed : list string),
    log_after o = (log ++ sent)%list
    ∧ returned o
      = Throw ("Prepare phase failed on clusters: "
               +:+ String.concat ", " failed)
    ∧ failed `sublist_of` JsMap.keys (tx_connections tx)
    ∧ (∀ cid', cid' ∈ failed
               ↔ ∃ j c' e', tx_connections tx !! j = Some (cid', c')
                            ∧ answer j c' = Throw e')
    ∧ state <$> final_tx o = Some aborted
    ∧ activeTransactions (dt_after o) !! transactionId = None
    ∧ (∀ j cid' c', tx_connections tx !! j = Some (cid', c') →
         (c', prepare) ∈ sent ∧ (c', ROLLBACK) ∈ sent)
    ∧ (∀ j cid' c' rows,
         tx_connections tx !! j = Some (cid', c') →
         answer j c' = Ok rows →
         (c', ROLLBACK_PREPARED (tx_id tx)) ∈ sent)
    ∧ (∀ c', (c', COMMIT_PREPARED (tx_id tx)) ∉ sent).
Proof.
  intros Hfound Hwf Hmulti prepare answer Hi Hrejected o.
  apply Nat.ltb_lt in Hmulti.
  set (prepareResults := (sendAll prepare (tx_connections tx) log).1).
  assert (Hres : ∀ j cid' c',
            tx_connections tx !! j = Some (cid', c') →
            prepareResults !! j = Some (cid', is_ok (answer j c'))).
  { intros j cid' c' Hj. unfold prepareResults.
    by rewrite sendAll_results, Hj. }
  assert (Hfailed : failedClusters prepareResults ≠ []).
  { intros Hnil.
    assert (Hin : cid ∈ failedClusters prepareResults).
    { apply elem_of_failedClusters. exists i.
      rewrite (Hres i cid c Hi). by rewrite Hrejected. }
    rewrite Hnil in Hin. by apply elem_of_nil in Hin. }
  pose proof (twoPhaseCommit_failed (set_state committing tx) log) as He.
  change (tx_id (set_state committing tx)) with (tx_id tx) in He.
  change (tx_connections (set_state committing tx))
    with (tx_connections tx) in He.
  fold prepare in He. fold prepareResults in He. specialize (He Hfailed).
  assert (Ho : ∃ cm3,
             o = {| returned :=
                      Throw ("Prepare phase failed on clusters: "
                             +:+ String.concat ", "
                                   (failedClusters prepareResults));
                    final_tx :=
                      Some (set_connections []
                              (set_state aborted (set_state committing tx)));
                    dt_after :=
                      {| activeTransactions :=
                           delete transactionId (activeTransactions dt);
                         metrics := count_aborted (metrics dt) |};
                    cm_after := cm3;
                    log_after :=
                      rollbackConnections driver
                        (set_state aborted (set_state committing tx))
                        (abortPreparedTransactions driver
                           (set_state committing tx) prepareResults
                           (sendAll prepare (tx_connections tx) log).2) |}).
  { eexists. unfold o, DistributedTransaction.commit. rewrite Hfound.
    cbn [set_state tx_clusters]. rewrite Hmulti. fold (set_state committing tx).
    rewrite He. reflexivity. }
  destruct Ho as (cm3 & ->). cbn [returned final_tx dt_after log_after].
  destruct (abortPreparedTransactions_log (set_state committing tx)
              prepareResults
              (sendAll prepare (tx_connections tx) log).2)
    as (aborts & Hab & Hall & Honly).
  change (tx_id (set_state committing tx)) with (tx_id tx) in *.
  change (tx_connections (set_state committing tx))
    with (tx_connections tx) in *.
  unfold rollbackConnections.
  change (tx_connections (set_state aborted (set_state committing tx)))
    with (tx_connections tx).
  rewrite sendAll_log, Hab, sendAll_log.
  eexists. exists (failedClusters prepareResults).
  split; [by rewrite <- !app_assoc|].
  split; [done|]. split.
  { unfold prepareResults. rewrite <- (sendAll_keys prepare _ log).
    apply failedClusters_sublist. }
  split.
  { intros cid'. rewrite elem_of_failedClusters. split.
    - intros (j & Hj).
      destruct (sendAll_results_lookup prepare (tx_connections tx) log j
                  cid' false Hj) as (c' & Hc').
      rewrite (Hres j cid' c' Hc') in Hj. injection Hj as Hok.
      exists j, c'. destruct (answer j c') as [rows|e'] eqn:Ha; [done|].
      by exists e'.
    - intros (j & c' & e' & Hj & Ha). exists j.
      rewrite (Hres j cid' c' Hj). by rewrite Ha. }
  split; [done|].
  split; [simpl; by rewrite lookup_delete_eq|].
  split; [|split].
  - intros j cid' c' Hj. split.
    + apply elem_of_app. left. by eapply elem_of_sent.
    + apply elem_of_app. right. apply elem_of_app. right.
      by eapply elem_of_sent.
  - intros j cid' c' rows Hj Ha. apply elem_of_app. right.
    apply elem_of_app. left.
    eapply Hall; [|by eapply wf_lookup_get].
    eapply list_elem_of_lookup_2. rewrite (Hres j cid' c' Hj).
    by rewrite Ha.
  - intros c' Hin. apply elem_of_app in Hin as [Hin|Hin].
    + apply list_elem_of_In, in_map_iff in Hin as (kc & Heq & _). done.
    + apply elem_of_app in Hin as [Hin|Hin].
      * apply Honly in Hin. done.
      * apply list_elem_of_In, in_map_iff in Hin as (kc & Heq & _). done.
Qed.

Lemma JsMap_get_Some_key {V} (k : string) (v : V) (m : JsMap.t V) :
  JsMap.get k m = Some v → k ∈ JsMap.keys m.
Proof.
  intros H. apply JsMap_get_Some_elem in H. unfold JsMap.keys.
  apply list_elem_of_In, in_map_iff. exists (k, v).
  split; [done|]. by apply list_elem_of_In.
Qed.

Lemma existsb_eqb_elem (x : string) (l : list string) :
  existsb (String.eqb x) l = true ↔ x ∈ l.
Proof.
  rewrite existsb_exists. split.
  - intros (y & Hin & E). apply String.eqb_eq in E. subst y.
    by apply list_elem_of_In.
  - intros Hin. exists x. split; [by apply list_elem_of_In|].
    apply String.eqb_refl.
Qed.

(** [getClusterForSchema] returns the first cluster of the registry whose
    configuration lists the schema. *)
Lemma getClusterForSchema_first (s target : string) (cm : ClusterManager.t)
    (before after : list (string * ClusterInfo)) (cluster : ClusterInfo) :
  clusters cm = (before ++ (target, cluster) :: after)%list →
  s ∈ config_schemas cluster →
  (∀ kv, kv ∈ before → s ∉ config_schemas kv.2) →
  getClusterForSchema s cm = Some target.
Proof.
  intros Hcm Hlisted Hnone. unfold getClusterForSchema. rewrite Hcm.
  clear Hcm. induction before as [|kv before IH]; cbn [app List.find].
  - apply existsb_eqb_elem in Hlisted. cbn [snd]. by rewrite Hlisted.
  - destruct (existsb (String.eqb s) (config_schemas kv.2)) eqn:E.
    + apply existsb_eqb_elem in E. exfalso. apply (Hnone kv); [left|done].
    + apply IH. intros kv' Hkv'. apply Hnone. by right.
Qed.

Lemma getClusterForSchema_unlisted (s : string) (cm : ClusterManager.t) :
  (∀ kv, kv ∈ clusters cm → s ∉ config_schemas kv.2) →
  getClusterForSchema s cm = None.
Proof.
  intros Hnone. unfold getClusterForSchema.
  induction (clusters cm) as [|kv l IH]; [done|]. cbn [List.find].
  destruct (existsb (String.eqb s) (config_schemas kv.2)) eqn:E.
  - apply existsb_eqb_elem in E. exfalso. apply (Hnone kv); [left|done].
  - apply IH. intros kv' Hkv'. apply Hnone. by right.
Qed.

(** C8. On a known transaction, [execute] raises an error when the state is
    not prepared; when the operation gives neither a schema nor a
    clusterId, or gives only a schema that no cluster of the registry
    lists; and when the transaction holds no connection for the cluster
    the operation addresses, which is the case of every cluster outside
    the transaction's clusters. Otherwise the statement is sent on the
    connection of the addressed cluster, and the call yields what the
    driver answers. The cluster an operation addresses is its [clusterId]
    or, without one, the first cluster of the registry whose configuration
    lists its [schema]. *)
Theorem execute_spec (transactionId : string) (operation : Operation)
    (dt : DistributedTransaction.t) (cm : ClusterManager.t) (log : Log)
    (tx : DistributedTransactionState) :
  activeTransactions dt !! transactionId = Some tx →
  let r := execute transactionId operation dt cm log in
  let addressed (target : string) : Prop :=
    target ≠ ""
    ∧ (op_clusterId operation = Some target
       ∨ (truthy (op_clusterId operation) = false
          ∧ ∃ s before cluster after,
              op_schema operation = Some s ∧ s ≠ ""
              ∧ clusters cm = (before ++ (target, cluster) :: after)%list
              ∧ s ∈ config_schemas cluster
              ∧ ∀ kv, kv ∈ before → s ∉ config_schemas kv.2)) in
  let noTarget : result QueryResult * Log :=
    (Throw "Cannot determine target cluster for operation", log) in
  let noConnection (target : string) : result QueryResult * Log :=
    (Throw ("No connection available for cluster " +:+ target
            +:+ " in transaction " +:+ transactionId), log) in
  (∀ name,
     (state tx, name)
     ∈ [(preparing, "preparing"); (committing, "committing");
        (committed, "committed"); (aborting, "aborting");
        (aborted, "aborted")] →
     r = (Throw ("Transaction " +:+ transactionId +:+ " is in " +:+ name
                 +:+ " state, cannot execute operations"), log))
  ∧ (state tx = prepared →
     truthy (op_clusterId operation) = false →
     truthy (op_schema operation) = false →
     r = noTarget)
  ∧ (∀ s, state tx = prepared →
       truthy (op_clusterId operation) = false →
       op_schema operation = Some s →
       (∀ kv, kv ∈ clusters cm → s ∉ config_schemas kv.2) →
       r = noTarget)
  ∧ (∀ target,
       state tx = prepared → addressed target →
       JsMap.get target (tx_connections tx) = None →
       r = noConnection target)
  ∧ (∀ target,
       state tx = prepared → addressed target →
       (∀ c, c ∈ JsMap.keys (tx_connections tx) → c ∈ tx_clusters tx) →
       target ∉ tx_clusters tx →
       r = noConnection target)
  ∧ (∀ target connection,
       state tx = prepared → addressed target →
       JsMap.get target (tx_connections tx) = Some connection →
       let stmt :=
         SQL (op_sql operation) (default [] (op_params operation)) in
       r = (driver log connection stmt, (log ++ [(connection, stmt)])%list)).
Proof.
  intros Hfound r addressed noTarget noConnection.
  assert (Htarget : ∀ target, addressed target →
                    executeTarget operation cm = Some target).
  { intros target (Hne & [Hid | (Hfalsy & s & before & cluster & after & Hs
                                 & Hsne & Hcm & Hlisted & Hfirst)]).
    - unfold executeTarget, truthy_val, truthy. rewrite Hid.
      apply String.eqb_neq in Hne. by rewrite Hne.
    - unfold executeTarget, truthy_val. rewrite Hfalsy, Hs.
      unfold truthy at 1. apply String.eqb_neq in Hsne. rewrite Hsne.
      cbn [negb].
      rewrite (getClusterForSchema_first s target cm before after cluster
                 Hcm Hlisted Hfirst).
      unfold truthy. apply String.eqb_neq in Hne. by rewrite Hne. }
  assert (Hnoconn : ∀ target,
            state tx = prepared → addressed target →
            JsMap.get target (tx_connections tx) = None →
            r = noConnection target).
  { intros target Hst Haddr Hg. unfold r, DistributedTransaction.execute.
    by rewrite Hfound, Hst, (Htarget target Haddr), Hg. }
  split.
  { intros name Hname. unfold r, DistributedTransaction.execute.
    rewrite Hfound.
    repeat (apply elem_of_cons in Hname as [Hname|Hname];
            [injection Hname as Hst ->; by rewrite Hst|]).
    by apply elem_of_nil in Hname. }
  split.
  { intros Hst Hc Hs. unfold r, DistributedTransaction.execute.
    rewrite Hfound, Hst. unfold executeTarget, truthy_val.
    by rewrite Hc, Hs. }
  split.
  { intros s Hst Hc Hs Hnone. unfold r, DistributedTransaction.execute.
    rewrite Hfound, Hst. unfold executeTarget, truthy_val.
    rewrite Hc, Hs. destruct (truthy (Some s)); [|done].
    by rewrite (getClusterForSchema_unlisted s cm Hnone). }
  split; [done|]. split.
  - intros target Hst Haddr Hkeys Hout.
    destruct (JsMap.get target (tx_connections tx)) as [c|] eqn:Hg.
    + exfalso. apply Hout, Hkeys. by eapply JsMap_get_Some_key.
    + by apply Hnoconn.
  - intros target connection Hst Haddr Hg stmt.
    unfold r, DistributedTransaction.execute.
    by rewrite Hfound, Hst, (Htarget target Haddr), Hg.
Qed.

(** ** DistributedTransaction: the duration average *)

Lemma rollback_keeps_avgDuration (transactionId : string) (duration : Z)
    (dt : DistributedTransaction.t) (cm : ClusterManager.t) (log : Log) :
  avgDuration (metrics (dt_after (rollback transactionId duration dt cm log)))
  = avgDuration (metrics dt).
Proof.
  unfold DistributedTransaction.rollback.
  by destruct (activeTransactions dt !! transactionId).
Qed.

Lemma failed_commit_keeps_avgDuration (transactionId : string) (duration : Z)
    (dt : DistributedTransaction.t) (cm : ClusterManager.t) (log : Log)
    (e : string) :
  returned (commit transactionId duration dt cm log) = Throw e →
  avgDuration (metrics (dt_after (commit transactionId duration dt cm log)))
  = avgDuration (metrics dt).
Proof.
  unfold DistributedTransaction.commit.
  destruct (activeTransactions dt !! transactionId) as [tx|]; [|done].
  destruct (if 1 <? length (tx_clusters (set_state committing tx))
            then twoPhaseCommit driver (set_state committing tx) log
            else singleClusterCommit driver (set_state committing tx) log)
    as [[u|e'] log1]; simpl; [done|].
  done.
Qed.

End TwoPhaseCommit.

(** [begin] on schemas users and orders of the two-cluster configuration
    leaves the transaction [tx1]. *)
Example begun_tx1 :
  DistributedTransaction.final_tx
    (Scenario.begun Scenario.prepare_rejected_on_D) = Some Scenario.tx1
  ∧ DistributedTransaction.activeTransactions
      (DistributedTransaction.dt_after
         (Scenario.begun Scenario.prepare_rejected_on_D)) !! "tx1"
    = Some Scenario.tx1.
Proof. split; vm_compute; reflexivity. Qed.

(** C2 on scenario S5: cluster D rejects the PREPARE; C, which prepared,
    receives ROLLBACK PREPARED, and both receive ROLLBACK. *)
Lemma commit_prepare_failure_witness :
  ∃ sent,
    DistributedTransaction.log_after
      (DistributedTransaction.commit Scenario.prepare_rejected_on_D "tx1" 7
         (DistributedTransaction.dt_after
            (Scenario.begun Scenario.prepare_rejected_on_D))
         (DistributedTransaction.cm_after
            (Scenario.begun Scenario.prepare_rejected_on_D))
         (DistributedTransaction.log_after
            (Scenario.begun Scenario.prepare_rejected_on_D)))
    = (DistributedTransaction.log_after
         (Scenario.begun Scenario.prepare_rejected_on_D) ++ sent)%list
    ∧ (Scenario.connC, Driver.ROLLBACK_PREPARED "tx1") ∈ sent
    ∧ (Scenario.connC, Driver.ROLLBACK) ∈ sent
    ∧ (Scenario.connD, Driver.ROLLBACK) ∈ sent
    ∧ DistributedTransaction.returned
        (DistributedTransaction.commit Scenario.prepare_rejected_on_D "tx1" 7
           (DistributedTransaction.dt_after
              (Scenario.begun Scenario.prepare_rejected_on_D))
           (DistributedTransaction.cm_after
              (Scenario.begun Scenario.prepare_rejected_on_D))
           (DistributedTransaction.log_after
              (Scenario.begun Scenario.prepare_rejected_on_D)))
      = Throw "Prepare phase failed on clusters: D".
Proof.
  assert (Hfound :
    DistributedTransaction.activeTransactions
      (DistributedTransaction.dt_after
         (Scenario.begun Scenario.prepare_rejected_on_D)) !! "tx1"
    = Some Scenario.tx1) by (vm_compute; reflexivity).
  assert (Hwf : JsMap.wf
                  (DistributedTransaction.tx_connections Scenario.tx1)).
  { unfold JsMap.wf. simpl. apply NoDup_cons. split.
    - rewrite list_elem_of_singleton. discriminate.
    - apply NoDup_singleton. }
  assert (Hmulti :
    1 < length (DistributedTransaction.tx_clusters Scenario.tx1))
    by (simpl; lia).
  destruct (commit_prepare_failure Scenario.prepare_rejected_on_D "tx1" 7
              _ (DistributedTransaction.cm_after
                   (Scenario.begun Scenario.prepare_rejected_on_D))
              (DistributedTransaction.log_after
                 (Scenario.begun Scenario.prepare_rejected_on_D))
              Scenario.tx1 1 "D" Scenario.connD "could not prepare"
              Hfound Hwf Hmulti eq_refl eq_refl)
    as (sent & failed & Hlog & Hret & Hsub & Hfailed & _ & _ & Hall
        & Hprepared & _).
  exists sent. split; [exact Hlog|]. split; [|split; [|split]].
  - apply (Hprepared 0 "C" Scenario.connC []); reflexivity.
  - apply (Hall 0 "C" Scenario.connC). reflexivity.
  - apply (Hall 1 "D" Scenario.connD). reflexivity.
  - rewrite Hret. do 2 f_equal.
    apply sublist_cons_r in Hsub as [Hsub|(l & -> & Hsub)].
    + apply sublist_cons_r in Hsub as [Hsub|(l & -> & Hsub)].
      * apply sublist_nil_r in Hsub. subst failed. exfalso.
        assert (Hin : "D" ∈ @nil string); [|by apply elem_of_nil in Hin].
        apply Hfailed. exists 1, Scenario.connD, "could not prepare".
        split; reflexivity.
      * apply sublist_nil_r in Hsub. by subst l.
    + exfalso.
      assert (Hin : "C" ∈ "C" :: l) by left.
      apply Hfailed in Hin as (j & c' & e' & Hj & Ha).
      destruct j as [|[|j]]; [|done|done].
      injection Hj as <-. vm_compute in Ha. discriminate Ha.
Defined.

(** C8 on a prepared transaction: the INSERT on schema orders goes to the
    connection held for cluster D. *)
Lemma execute_spec_witness :
  DistributedTransaction.execute Scenario.accepting "tx1"
    Scenario.insert_order
    (DistributedTransaction.dt_after (Scenario.begun Scenario.accepting))
    Scenario.manager_CD []
  = (Ok [],
     [(Scenario.connD,
       Driver.SQL "INSERT INTO orders VALUES ($1)" ["42"])]).
Proof.
  assert (Hfound :
    DistributedTransaction.activeTransactions
      (DistributedTransaction.dt_after (Scenario.begun Scenario.accepting))
      !! "tx1" = Some Scenario.tx1) by (vm_compute; reflexivity).
  destruct (execute_spec Scenario.accepting "tx1" Scenario.insert_order
              _ Scenario.manager_CD [] Scenario.tx1 Hfound)
    as (_ & _ & _ & _ & _ & Hrun).
  apply (Hrun "D" Scenario.connD); [reflexivity| |reflexivity].
  split; [discriminate|]. right. split; [reflexivity|].
  exists "orders", [("C", Scenario.clusterC)], Scenario.clusterD, [].
  split; [reflexivity|]. split; [discriminate|]. split; [reflexivity|].
  split; [left|].
  intros kv Hkv. apply list_elem_of_singleton in Hkv. subst kv.
  cbn. intros Hin. apply list_elem_of_singleton in Hin. discriminate Hin.
Defined.

(** C5 does not hold of the code: after a rollback that took 10 ms and a
    commit that took 20 ms, both transactions have terminated and the mean
    of their durations is 15, but [avgDuration] is 10. Only a successful
    commit calls [updateAvgDuration], whose divisor counts the aborted
    transactions too. *)
Theorem avgDuration_ignores_aborted :
  Scenario.after_session.2 = [10%Z; 20%Z]
  ∧ (DistributedTransaction.mean Scenario.after_session.2 == 15)%Q
  ∧ DistributedTransaction.avgDuration
      (DistributedTransaction.metrics Scenario.after_session.1.1.1)
    = Number.of_Z 10
  ∧ ∃ q : Q,
      Number.toQ
        (DistributedTransaction.avgDuration
           (DistributedTransaction.metrics Scenario.after_session.1.1.1))
      = Some q
      ∧ (q == 10)%Q
      ∧ ¬ (q == DistributedTransaction.mean Scenario.after_session.2)%Q.
Proof.
  split; [vm_compute; reflexivity|].
  split; [vm_compute; reflexivity|].
  split; [vm_compute; reflexivity|].
  eexists. split; [vm_compute; reflexivity|].
  split; [vm_compute; reflexivity|].
  vm_compute. discriminate.
Qed.

(** ** DistributedCache: get and eviction *)

Section Cache.

Import DistributedCache.

(** C7. [get] returns a value only for a key whose entry is present and
    whose absolute expiry is not in the past. An absent key is a miss that
    leaves the entries alone; an expired entry is a miss and is removed by
    the access; a hit returns the stored value, increments [accessCount]
    and sets [lastAccessed] to the current time, leaving the rest of the
    entry as it was. *)
Theorem get_spec (key : string) (now now' : Z) (c : DistributedCache.t) :
  let r := (get key now now' c).1 in
  let c' := (get key now now' c).2 in
  (∀ v, r = Some v →
     ∃ entry, JsMap.get key (cache c) = Some entry
              ∧ (now ≤ ttl entry)%Z ∧ v = value entry)
  ∧ (JsMap.get key (cache c) = None →
     r = None ∧ cache c' = cache c
     ∧ misses (stats c') = misses (stats c) + 1
     ∧ emitted c' = (emitted c ++ [miss key])%list)
  ∧ (∀ entry,
       JsMap.get key (cache c) = Some entry → (ttl entry < now)%Z →
       r = None ∧ JsMap.get key (cache c') = None
       ∧ misses (stats c') = misses (stats c) + 1
       ∧ emitted c'
         = (emitted c ++ [miss key; eviction key reason_ttl])%list)
  ∧ (∀ entry,
       JsMap.get key (cache c) = Some entry → (now ≤ ttl entry)%Z →
       r = Some (value entry)
       ∧ JsMap.get key (cache c')
         = Some {| value := value entry; ttl := ttl entry;
                   createdAt := createdAt entry;
                   accessCount := accessCount entry + 1;
                   lastAccessed := now'; size := size entry;
                   tags := tags entry; schema := schema entry;
                   cluster := cluster entry |}
       ∧ hits (stats c') = hits (stats c) + 1
       ∧ emitted c' = (emitted c ++ [hit key])%list).
Proof.
  intros r c'. unfold r, c', get, isExpired.
  destruct (JsMap.get key (cache c)) as [entry|] eqn:Hg.
  - destruct (ttl entry <? now)%Z eqn:Hexp.
    + apply Z.ltb_lt in Hexp. simpl. split; [done|]. split; [done|]. split.
      * intros entry' [= <-] _. by rewrite JsMap_get_delete_eq.
      * intros entry' [= <-] Hle. lia.
    + apply Z.ltb_ge in Hexp. simpl. split.
      * intros v [= <-]. by exists entry.
      * split; [done|]. split.
        -- intros entry' [= <-] Hlt. lia.
        -- intros entry' [= <-] _. by rewrite JsMap_get_set_eq.
  - simpl. split; [done|]. split; [done|]. split; by intros.
Qed.

(** The scan of [evictLRU] designates the first entry with the least
    [lastAccessed], whatever the configured strategy. *)
Lemma scanLRU_acc (m : JsMap.t CacheEntry) (acc : option (string * Z)) :
  (fold_left
     (λ (acc : option string * option Z) (kv : string * CacheEntry),
        let older :=
          match acc.2 with
          | None => true
          | Some oldestAccess => (lastAccessed kv.2 <? oldestAccess)%Z
          end in
        if older then (Some kv.1, Some (lastAccessed kv.2)) else acc)
     m
     (match acc with
      | None => (None, None)
      | Some (k, r) => (Some k, Some r)
      end)).1
  = fold_left
      (λ (acc : option (string * Z)) (kv : string * CacheEntry),
         match acc with
         | None => Some (kv.1, policyRank lru kv.2)
         | Some (k, r) =>
             if (policyRank lru kv.2 <? r)%Z
             then Some (kv.1, policyRank lru kv.2) else acc
         end)
      m acc ≫= λ kr, Some kr.1.
Proof.
  revert acc. induction m as [|[k e] m IH]; intros acc.
  - by destruct acc as [[k r]|].
  - simpl. destruct acc as [[k0 r0]|]; simpl.
    + destruct (lastAccessed e <? r0)%Z.
      * apply (IH (Some (k, lastAccessed e))).
      * apply (IH (Some (k0, r0))).
    + apply (IH (Some (k, lastAccessed e))).
Qed.

Lemma scanLRU_is_lru_victim (m : JsMap.t CacheEntry) :
  (scanLRU m).1 = policyVictim lru m.
Proof. apply (scanLRU_acc m None). Qed.

(** Whatever strategy is configured, a [set] on a full cache evicts the
    least recently used entry (when its key is not the empty string). *)
Lemma set_evicts_least_recently_used (key v : string) (options : SetOptions)
    (now : Z) (c : DistributedCache.t) (victim : string) :
  maxSize (config c) ≤ JsMap.size (cache c) →
  policyVictim lru (cache c) = Some victim →
  victim ≠ "" →
  JsMap.get victim (cache (set key v options now c).2)
  = if String.eqb key victim
    then JsMap.get key (cache (set key v options now c).2)
    else None.
Proof.
  intros Hfull Hvictim Hne. unfold set.
  apply Nat.leb_le in Hfull. rewrite Hfull. unfold evictLRU.
  rewrite scanLRU_is_lru_victim, Hvictim. unfold truthy_val, truthy.
  assert (Hb : String.eqb victim "" = false) by by apply String.eqb_neq.
  rewrite Hb. unfold updateStats. cbn [negb cache config stats emitted].
  destruct (String.eqb key victim) eqn:E.
  - apply String.eqb_eq in E. by subst.
  - apply String.eqb_neq in E. cbn [snd cache].
    rewrite JsMap_get_set_ne by done. apply JsMap_get_delete_eq.
Qed.

End Cache.

(** A hit at time 2 on the entry written at time 1. *)
Lemma get_spec_witness :
  (DistributedCache.get "a" 2 2
     (DistributedCache.set "a" "1" Scenario.plain 1
        (DistributedCache.create Scenario.lfu_config)).2).1 = Some "1".
Proof.
  destruct (get_spec "a" 2 2
              (DistributedCache.set "a" "1" Scenario.plain 1
                 (DistributedCache.create Scenario.lfu_config)).2)
    as (_ & _ & _ & Hhit).
  destruct (Hhit {| DistributedCache.value := "1";
                    DistributedCache.ttl := 300001;
                    DistributedCache.createdAt := 1;
                    DistributedCache.accessCount := 0;
                    DistributedCache.lastAccessed := 1;
                    DistributedCache.size := 2;
                    DistributedCache.tags := [];
                    DistributedCache.schema := None;
                    DistributedCache.cluster := None |})
    as (Hr & _).
  - reflexivity.
  - vm_compute. discriminate.
  - exact Hr.
Defined.

(** C6 does not hold of the code. Under LFU with capacity two, a (used
    once, last at time 2) and b (never used, written at time 3) are
    cached; the documented policy designates b, the least frequently used,
    but inserting c evicts a, the least recently used. Under FIFO, with a
    written first and read last, the policy designates a, the oldest, but
    inserting c evicts b. *)
Theorem set_ignores_configured_strategy :
  (DistributedCache.strategy (DistributedCache.config Scenario.lfu_cache_full)
   = DistributedCache.lfu
   ∧ JsMap.keys (DistributedCache.cache Scenario.lfu_cache_full) = ["a"; "b"]
   ∧ DistributedCache.policyVictim DistributedCache.lfu
       (DistributedCache.cache Scenario.lfu_cache_full) = Some "b"
   ∧ JsMap.keys
       (DistributedCache.cache
          (DistributedCache.set "c" "3" Scenario.plain 4
             Scenario.lfu_cache_full).2) = ["b"; "c"])
  ∧ (DistributedCache.strategy
       (DistributedCache.config Scenario.fifo_cache_full)
     = DistributedCache.fifo
     ∧ JsMap.keys (DistributedCache.cache Scenario.fifo_cache_full)
       = ["a"; "b"]
     ∧ DistributedCache.policyVictim DistributedCache.fifo
         (DistributedCache.cache Scenario.fifo_cache_full) = Some "a"
     ∧ JsMap.keys
         (DistributedCache.cache
            (DistributedCache.set "c" "3" Scenario.plain 4
               Scenario.fifo_cache_full).2) = ["a"; "c"]).
Proof. repeat split; vm_compute; reflexivity. Qed.

(** ** MigrationManager: the order of a rollback *)

Section MigrationRollback.

Import MigrationManager.

Variable localeCompare : string → string → comparison.
Variable versionOrder : string → string → comparison.
Variable selectFails : string → string → bool.
Variable lockFails : string → bool.
Variable deleteFails : MigrationRecord → bool.

Local Abbreviation rollbackLoop :=
  (MigrationManager.rollbackLoop lockFails deleteFails).
Local Abbreviation rollback :=
  (MigrationManager.rollback localeCompare versionOrder selectFails lockFails
     deleteFails).

(** A record is undone without error: its migration is loaded, its [down]
    resolves, and the database answers the lock and the DELETE. *)
Lemma rollbackLoop_all_succeed (records : list MigrationRecord)
    (force : bool) :
  ∀ (rolledBack errors : nat) (st : MigrationManager.t),
    (∀ r, r ∈ records →
       lockFails (lockKey r) = false ∧ deleteFails r = false
       ∧ ∃ m, migrations st !! rec_version r = Some m
              ∧ down_throws m = false) →
    ∃ st',
      rollbackLoop records force rolledBack errors st
      = (rolledBack + length records, errors, st')
      ∧ trace st'
        = (trace st
           ++ flat_map (λ r, [down_run r; row_deleted r]) records)%list
      ∧ migrations st' = migrations st.
Proof.
  induction records as [|r records IH]; intros rolledBack errors st Hok.
  - exists st. simpl. by rewrite Nat.add_0_r, app_nil_r.
  - destruct (Hok r) as (Hlock & Hdel & m & Hm & Hdown); [left|].
    simpl. unfold _rollbackMigration. rewrite Hm, Hlock, Hdown, Hdel.
    destruct (IH (rolledBack + 1) errors
                (delete_row r (add_event (down_run r) st)))
      as (st' & Hrun & Htrace & Hmig).
    { intros r' Hr'. apply Hok. by right. }
    exists st'. rewrite Hrun. split; [do 2 f_equal; lia|].
    split; [|by rewrite Hmig].
    rewrite Htrace. simpl. by rewrite <- !app_assoc.
Qed.

(** What [rollback] does for [steps = k > 0] on one (schema, cluster): it
    selects the [k] largest applied versions and, when each is undone
    without error, runs them smallest version first: the selection is
    sorted in descending order and then reversed by the loop header. *)
Theorem rollback_runs_ascending (schema cluster : string) (k : nat)
    (force : option bool) (st : MigrationManager.t) :
  isInitialized st = true →
  _getClusterForSchema schema st = Ok cluster →
  0 < k →
  let selected :=
    take k
      (sortBy (λ a b, localeCompare (rec_version b) (rec_version a))
         (_getAppliedMigrations versionOrder selectFails schema cluster st)) in
  (∀ r, r ∈ selected →
     lockFails (lockKey r) = false ∧ deleteFails r = false
     ∧ ∃ m, migrations st !! rec_version r = Some m
            ∧ down_throws m = false) →
  ∃ st',
    rollback
      {| opt_targetVersion := None; opt_steps := Some (Z.of_nat k);
         opt_targetSchemas := Some [schema];
         opt_targetClusters := Some [cluster];
         opt_dryRun := None; opt_force := force |} st
    = (Ok (length selected, 0), st')
    ∧ trace st'
      = (trace st
         ++ flat_map (λ r, [down_run r; row_deleted r])
              (reverse selected))%list.
Proof.
  intros Hinit Hcluster Hk selected Hok.
  unfold MigrationManager.rollback. rewrite Hinit.
  cbn [negb opt_steps opt_dryRun opt_force opt_targetSchemas
       opt_targetClusters opt_targetVersion].
  generalize (default false force). intros f.
  cbn [default from_option _getTargetSchemas _getTargetClusters
       nonEmptyList _getMigrationsToRollback].
  rewrite Hcluster.
  assert (Hinc : includes cluster [cluster] = true).
  { unfold includes. simpl. by rewrite String.eqb_refl. }
  rewrite Hinc. cbn [flat_map].
  assert (Hsel : migrationsForRollback localeCompare versionOrder
                   selectFails schema cluster None (Z.of_nat k) st
                 = selected).
  { unfold migrationsForRollback, truthy_val. cbn [truthy negb andb].
    destruct (Z.of_nat k =? 0)%Z eqn:E; [apply Z.eqb_eq in E; lia|].
    cbn [negb andb]. unfold slice0.
    destruct (0 <=? Z.of_nat k)%Z eqn:E'; [|apply Z.leb_gt in E'; lia].
    by rewrite Nat2Z.id. }
  unfold id. rewrite Hsel, !app_nil_r.
  destruct (rollbackLoop_all_succeed (reverse selected) f 0 0 st)
    as (st' & Hrun & Htrace & _).
  { intros r Hr. apply Hok. rewrite <- elem_of_reverse. exact Hr. }
  exists st'. rewrite Hrun. rewrite length_reverse. simpl. done.
Qed.

End MigrationRollback.

Lemma rollback_runs_ascending_witness :
  ∃ st',
    Scenario.rollback_two = (Ok (2, 0), st')
    ∧ MigrationManager.trace st'
      = [MigrationManager.down_run (Scenario.applied "002");
         MigrationManager.row_deleted (Scenario.applied "002");
         MigrationManager.down_run (Scenario.applied "003");
         MigrationManager.row_deleted (Scenario.applied "003")].
Proof.
  destruct (rollback_runs_ascending Scenario.digitOrder Scenario.digitOrder
              (λ _ _, false) (λ _, false) (λ _, false)
              "users" "A" 2 None Scenario.three_applied)
    as (st' & Hrun & Htrace).
  - reflexivity.
  - vm_compute. reflexivity.
  - lia.
  - intros r Hr. split; [done|]. split; [done|].
    vm_compute in Hr.
    apply elem_of_cons in Hr as [->|Hr];
      [exists (Scenario.migration "003"); split; vm_compute; reflexivity|].
    apply elem_of_cons in Hr as [->|Hr];
      [exists (Scenario.migration "002"); split; vm_compute; reflexivity|].
    by apply elem_of_nil in Hr.
  - exists st'. split; [exact Hrun|]. rewrite Htrace. vm_compute. reflexivity.
Defined.

(** C4 does not hold of the code. With versions 001, 002 and 003 applied,
    [rollback] with [steps = 2] does undo the two largest versions, but it
    runs 002 first and 003 second; the documented order is the reverse
    of the order of application: 003, then 002. *)
Theorem rollback_order_is_not_reverse_applied :
  Scenario.rollback_two.1 = Ok (2, 0)
  ∧ MigrationManager.table Scenario.rollback_two.2 = [Scenario.applied "001"]
  ∧ MigrationManager.trace Scenario.rollback_two.2
    = [MigrationManager.down_run (Scenario.applied "002");
       MigrationManager.row_deleted (Scenario.applied "002");
       MigrationManager.down_run (Scenario.applied "003");
       MigrationManager.row_deleted (Scenario.applied "003")]
  ∧ MigrationManager.documentedTrace Scenario.digitOrder 2
      (MigrationManager.table Scenario.three_applied)
    = [MigrationManager.down_run (Scenario.applied "003");
       MigrationManager.row_deleted (Scenario.applied "003");
       MigrationManager.down_run (Scenario.applied "002");
       MigrationManager.row_deleted (Scenario.applied "002")].
Proof. repeat split; vm_compute; reflexivity. Qed.

(** * Further properties *)

(** ** LoadBalancer: bounds, statistics, strategy reset, least connections *)

Section BalancerMore.

Context {Replica Options : Type}.
Variable weightedDraw : list Replica → Options → option nat.
Variable metricIndex :
  LoadBalancer.LoadBalancingStrategy → list Replica → Options → nat.

Local Abbreviation selectReplica :=
  (LoadBalancer.selectReplica weightedDraw metricIndex).
Local Abbreviation selectMany :=
  (LoadBalancer.selectMany weightedDraw metricIndex).

Lemma updateStats_lookup (i j : nat) (lb : LoadBalancer.t) :
  default 0 (LoadBalancer.stats (LoadBalancer.updateStats i lb) !! j)
  = default 0 (LoadBalancer.stats lb !! j) + (if decide (i = j) then 1 else 0).
Proof.
  unfold LoadBalancer.updateStats. simpl. case_decide as E.
  - subst. by rewrite lookup_insert_eq.
  - rewrite lookup_insert_ne by done. lia.
Qed.

(** With two or more replicas every selection, under every strategy, adds
    one to the statistics of the index it returns. *)
Lemma selectReplica_counts (replicas : list Replica) (o : Options)
    (lb lb' : LoadBalancer.t) (i : nat) :
  2 ≤ length replicas →
  selectReplica replicas o lb = Ok (i, lb') →
  ∀ j, default 0 (LoadBalancer.stats lb' !! j)
       = default 0 (LoadBalancer.stats lb !! j)
         + (if decide (i = j) then 1 else 0).
Proof.
  intros HN Hsel j. unfold LoadBalancer.selectReplica in Hsel.
  destruct (length replicas) as [|[|n]] eqn:HL; [lia|lia|].
  destruct (LoadBalancer.strategy lb) eqn:Hs.
  - injection Hsel as <- <-. by rewrite updateStats_lookup.
  - unfold LoadBalancer.weightedSelect in Hsel.
    destruct (weightedDraw replicas o).
    + injection Hsel as <- <-. by rewrite updateStats_lookup.
    + injection Hsel as <- <-. by rewrite updateStats_lookup.
  - injection Hsel as <- <-. by rewrite updateStats_lookup.
  - injection Hsel as <- <-. by rewrite updateStats_lookup.
  - injection Hsel as <- <-. by rewrite updateStats_lookup.
Qed.

(** X1. The distribution statistics agree with what was returned: over any
    run of [selectReplica] calls on a list of two or more replicas, under
    any strategy, the count kept for index [j] grows by the number of times
    [j] was returned. *)
Theorem stats_count_returned_indices (replicas : list Replica)
    (optionss : list Options) :
  2 ≤ length replicas →
  ∀ (lb lb' : LoadBalancer.t) (indices : list nat),
    selectMany replicas optionss lb = Ok (indices, lb') →
    ∀ j, default 0 (LoadBalancer.stats lb' !! j)
         = default 0 (LoadBalancer.stats lb !! j)
           + count_occ Nat.eq_dec indices j.
Proof.
  intros HN. induction optionss as [|o os IH]; intros lb lb' indices Hrun j.
  - injection Hrun as <- <-. simpl. lia.
  - simpl in Hrun.
    destruct (selectReplica replicas o lb) as [[i lb1]|e] eqn:Hsel; [|done].
    destruct (selectMany replicas os lb1) as [[is_ lb2]|e] eqn:Hrest;
      [|done].
    injection Hrun as <- <-.
    rewrite (IH lb1 lb2 is_ Hrest j).
    rewrite (selectReplica_counts replicas o lb lb1 i HN Hsel j).
    simpl. destruct (Nat.eq_dec i j); case_decide; try done; lia.
Qed.

(** A list with a single replica is served without consulting the
    strategy: every call returns index 0 and leaves the balancer, cursor
    and statistics included, exactly as it was. *)
Theorem single_replica_untracked (r : Replica) (optionss : list Options)
    (lb : LoadBalancer.t) :
  selectMany [r] optionss lb
  = Ok (replicate (length optionss) 0, lb).
Proof.
  induction optionss as [|o os IH]; [done|].
  simpl. unfold LoadBalancer.selectReplica. simpl.
  fold (selectMany [r] os lb). by rewrite IH.
Qed.

(** X2. [setStrategy] rewinds the cursor: after switching to round robin,
    the next [N] selections over [N ≥ 1] replicas are [0, 1, ..., N-1] in
    this order, whatever the balancer did before. *)
Theorem setStrategy_restarts_round_robin (replicas : list Replica)
    (optionss : list Options) (lb : LoadBalancer.t) :
  1 ≤ length replicas →
  length optionss = length replicas →
  ∃ lb',
    selectMany replicas optionss
      (LoadBalancer.setStrategy LoadBalancer.round_robin lb)
    = Ok (seq 0 (length replicas), lb').
Proof.
  intros HN Hlen.
  destruct (selectMany_round_robin weightedDraw metricIndex replicas
              optionss HN
              (LoadBalancer.setStrategy LoadBalancer.round_robin lb) 0
              eq_refl eq_refl) as (lb' & Hrun).
  exists lb'. rewrite Hrun, Hlen. do 2 f_equal.
  rewrite <- (List.map_id (seq 0 (length replicas))) at 2.
  apply List.map_ext_in. intros j Hj. apply in_seq in Hj.
  simpl. apply Nat.mod_small. lia.
Qed.

End BalancerMore.

Section LeastConnections.

Context {Replica : Type}.
Variable getConnectionCount : Replica → Z.

(** The scan from an arbitrary accumulator: [base] elements were visited
    already. *)
Lemma leastConnectionsScan_acc (replicas : list Replica) :
  ∀ (m : option Z) (sel base : nat),
    let r :=
      fold_left
        (λ (acc : option Z * nat * nat) (replica : Replica),
           let '(minConnections, selectedIndex, index) := acc in
           let connections := getConnectionCount replica in
           let smaller :=
             match minConnections with
             | None => true
             | Some m => (connections <? m)%Z
             end in
           if smaller then (Some connections, index, S index)
           else (minConnections, selectedIndex, S index))
        replicas (m, sel, base) in
    r.2 = base + length replicas
    ∧ (r.1.2 = sel ∧ r.1.1 = m
       ∧ (∀ j x c, replicas !! j = Some x → m = Some c →
            (c ≤ getConnectionCount x)%Z)
       ∧ (m = None → replicas = [])
       ∨ ∃ k x,
           r.1.2 = base + k ∧ replicas !! k = Some x
           ∧ r.1.1 = Some (getConnectionCount x)
           ∧ (∀ c, m = Some c → (getConnectionCount x < c)%Z)
           ∧ (∀ j y, replicas !! j = Some y →
                (getConnectionCount x ≤ getConnectionCount y)%Z)
           ∧ (∀ j y, j < k → replicas !! j = Some y →
                (getConnectionCount x < getConnectionCount y)%Z)).
Proof.
  induction replicas as [|a rs IH]; intros m sel base; simpl.
  - split; [lia|]. left. repeat split; try done.
  - set (smaller := match m with
                    | None => true
                    | Some m0 => (getConnectionCount a <? m0)%Z
                    end).
    destruct smaller eqn:Hsm.
    + specialize (IH (Some (getConnectionCount a)) base (S base)).
      simpl in IH. destruct IH as [Hlen IH]. split; [lia|]. right.
      destruct IH as [(Hsel & Hmin & Hall & _)|(k & x & Hk & Hx & Hv & Hlt & Hall & Hfirst)].
      * exists 0, a. rewrite Hsel, Hmin. split; [lia|]. split; [done|].
        split; [done|]. split.
        { intros c ->. unfold smaller in Hsm. by apply Z.ltb_lt in Hsm. }
        split.
        { intros [|j] y Hy; simpl in Hy.
          - injection Hy as <-. lia.
          - by eapply Hall. }
        intros j y Hj. lia.
      * exists (S k), x. rewrite Hk, Hv. split; [lia|]. split; [done|].
        split; [done|]. specialize (Hlt _ eq_refl). split.
        { intros c ->. unfold smaller in Hsm. apply Z.ltb_lt in Hsm. lia. }
        split.
        { intros [|j] y Hy; simpl in Hy.
          - injection Hy as <-. lia.
          - by eapply Hall. }
        intros [|j] y Hj Hy; simpl in Hy.
        { injection Hy as <-. done. }
        eapply Hfirst; [|done]. lia.
    + specialize (IH m sel (S base)).
      simpl in IH. destruct IH as [Hlen IH]. split; [lia|].
      destruct m as [c0|]; [|done]. unfold smaller in Hsm.
      apply Z.ltb_ge in Hsm.
      destruct IH as [(Hsel & Hmin & Hall & _)|(k & x & Hk & Hx & Hv & Hlt & Hall & Hfirst)].
      * left. split; [done|]. split; [done|]. split; [|done].
        intros [|j] y c Hy [= <-]; simpl in Hy.
        -- injection Hy as <-. done.
        -- by eapply Hall.
      * right. exists (S k), x. rewrite Hk, Hv. split; [lia|].
        split; [done|]. split; [done|]. specialize (Hlt _ eq_refl). split.
        { by intros c [= <-]. }
        split.
        { intros [|j] y Hy; simpl in Hy.
          - injection Hy as <-. lia.
          - by eapply Hall. }
        intros [|j] y Hj Hy; simpl in Hy.
        { injection Hy as <-. lia. }
        eapply Hfirst; [|done]. lia.
Qed.

(** X3. [leastConnectionsSelect] on a non-empty list returns the index of a
    replica with the fewest active connections, and the earliest such
    index: every replica has at least as many connections, every earlier
    one strictly more. The choice is counted in the statistics. *)
Theorem leastConnectionsSelect_minimal (replicas : list Replica)
    (lb : LoadBalancer.t) :
  replicas ≠ [] →
  let i := (LoadBalancer.leastConnectionsSelect getConnectionCount
              replicas lb).1 in
  ∃ x,
    replicas !! i = Some x
    ∧ (∀ j y, replicas !! j = Some y →
         (getConnectionCount x ≤ getConnectionCount y)%Z)
    ∧ (∀ j y, j < i → replicas !! j = Some y →
         (getConnectionCount x < getConnectionCount y)%Z)
    ∧ default 0
        (LoadBalancer.stats
           (LoadBalancer.leastConnectionsSelect getConnectionCount
              replicas lb).2 !! i)
      = default 0 (LoadBalancer.stats lb !! i) + 1.
Proof.
  intros Hne i. unfold i, LoadBalancer.leastConnectionsSelect,
    LoadBalancer.leastConnectionsScan. cbn [fst snd].
  pose proof (leastConnectionsScan_acc replicas None 0 0) as H.
  cbv zeta in H. destruct H as [_ H].
  destruct H as [(_ & _ & _ & Hnil)|(k & x & Hk & Hx & _ & _ & Hall & Hfirst)].
  - by specialize (Hnil eq_refl).
  - rewrite Nat.add_0_l in Hk. rewrite Hk. exists x. split; [done|]. split; [done|].
    split; [done|]. rewrite updateStats_lookup. by case_decide.
Qed.

End LeastConnections.

Lemma stats_count_returned_indices_witness :
  default 0
    (LoadBalancer.stats
       (match LoadBalancer.selectMany (Replica := unit) (Options := unit)
                Scenario.noDraw Scenario.firstIndex [(); ()]
                (replicate 6 ()) LoadBalancer.init with
        | Ok r => r.2
        | Throw _ => LoadBalancer.init
        end) !! 1)
  = default 0 (LoadBalancer.stats LoadBalancer.init !! 1)
    + count_occ Nat.eq_dec [0; 1; 0; 1; 0; 1] 1.
Proof.
  apply (stats_count_returned_indices (Replica := unit) (Options := unit)
           Scenario.noDraw Scenario.firstIndex [(); ()] (replicate 6 ())).
  - simpl. lia.
  - vm_compute. reflexivity.
Defined.

Lemma setStrategy_restarts_round_robin_witness :
  ∃ lb',
    LoadBalancer.selectMany (Replica := unit) (Options := unit)
      Scenario.noDraw Scenario.firstIndex [(); (); ()] (replicate 3 ())
      (LoadBalancer.setStrategy LoadBalancer.round_robin
         {| LoadBalancer.strategy := LoadBalancer.weighted;
            LoadBalancer.currentIndex := 2;
            LoadBalancer.stats := ∅ |})
    = Ok ([0; 1; 2], lb').
Proof.
  apply (setStrategy_restarts_round_robin (Replica := unit) (Options := unit)
           Scenario.noDraw Scenario.firstIndex [(); (); ()]
           (replicate 3 ()));
    [simpl; lia | reflexivity].
Defined.

Lemma leastConnectionsSelect_minimal_witness :
  ∃ x,
    [5%Z; 2%Z; 7%Z; 2%Z] !! 1 = Some x
    ∧ (∀ j y, [5%Z; 2%Z; 7%Z; 2%Z] !! j = Some y → (x ≤ y)%Z)
    ∧ (∀ j y, j < 1 → [5%Z; 2%Z; 7%Z; 2%Z] !! j = Some y → (x < y)%Z)
    ∧ default 0
        (LoadBalancer.stats
           (LoadBalancer.leastConnectionsSelect (λ z : Z, z)
              [5%Z; 2%Z; 7%Z; 2%Z] LoadBalancer.init).2 !! 1)
      = default 0 (LoadBalancer.stats LoadBalancer.init !! 1) + 1.
Proof.
  apply (leastConnectionsSelect_minimal (λ z : Z, z) [5%Z; 2%Z; 7%Z; 2%Z]
           LoadBalancer.init).
  discriminate.
Defined.

(** ** ClusterManager: failover, replica reads, single-cluster transactions *)

Section ManagerMore.

Import Driver.
Import ClusterManager.

Variable weightedDraw : list ConnectionPool → QueryOptions → option nat.
Variable metricIndex :
  LoadBalancer.LoadBalancingStrategy → list ConnectionPool → QueryOptions → nat.
Variable driver : Log → WrappedConnection → Stmt → result QueryResult.

Local Abbreviation getConnection :=
  (ClusterManager.getConnection weightedDraw metricIndex).
Local Abbreviation selectPool :=
  (ClusterManager.selectPool weightedDraw metricIndex).

Lemma JsMap_keys_set_present {V} (k : string) (v v' : V) (m : JsMap.t V) :
  JsMap.get k m = Some v → JsMap.keys (JsMap.set k v' m) = JsMap.keys m.
Proof.
  unfold JsMap.keys. induction m as [|[k0 v0] m IH]; simpl; [done|].
  destruct (String.eqb k k0) eqn:E.
  - apply String.eqb_eq in E. by subst.
  - intros H. simpl. by rewrite IH.
Qed.

Lemma list_delete_past_end {A} (l : list A) (i : nat) :
  length l ≤ i → delete i l = l.
Proof.
  revert i. induction l as [|x l IH]; intros i Hi; [done|].
  destruct i as [|i]; simpl in *; [lia|]. f_equal. apply IH. lia.
Qed.

(** After a failover onto an existing replica, the registry holds the
    cluster with that replica as its primary. *)
Lemma forceFailover_new_primary (clusterId : string) (index : nat) (cm : t)
    (cluster : ClusterInfo) (promoted : ConnectionPool) :
  JsMap.get clusterId (clusters cm) = Some cluster →
  replicas cluster !! index = Some promoted →
  ∃ cluster',
    JsMap.get clusterId (clusters (forceFailover clusterId index cm).2)
    = Some cluster'
    ∧ primary cluster' = Some promoted.
Proof.
  intros Hget Hidx. unfold forceFailover. rewrite Hget, Hidx.
  assert (Hlen : (length (replicas cluster) =? 0) = false).
  { apply Nat.eqb_neq. apply lookup_lt_Some in Hidx. lia. }
  rewrite Hlen. cbn [fst snd set_clusters clusters].
  eexists. split; [apply JsMap_get_set_eq|]. done.
Qed.

(** X4. A failover onto an existing replica succeeds: the replica at the
    given index becomes the primary, it leaves the replica list, and the
    former primary, if any, joins the tail of that list. No pool is lost or
    duplicated, the status is kept, and the other clusters and the order of
    the registry are untouched. *)
Theorem forceFailover_promotes (clusterId : string) (index : nat) (cm : t)
    (cluster : ClusterInfo) (promoted : ConnectionPool) :
  JsMap.get clusterId (clusters cm) = Some cluster →
  replicas cluster !! index = Some promoted →
  ∃ cluster',
    (forceFailover clusterId index cm).1 = Ok ()
    ∧ JsMap.get clusterId (clusters (forceFailover clusterId index cm).2)
      = Some cluster'
    ∧ primary cluster' = Some promoted
    ∧ replicas cluster'
      = (delete index (replicas cluster)
         ++ option_list (primary cluster))%list
    ∧ (option_list (primary cluster') ++ replicas cluster')%list
      ≡ₚ (option_list (primary cluster) ++ replicas cluster)%list
    ∧ status cluster' = status cluster
    ∧ JsMap.keys (clusters (forceFailover clusterId index cm).2)
      = JsMap.keys (clusters cm)
    ∧ ∀ other, other ≠ clusterId →
        JsMap.get other (clusters (forceFailover clusterId index cm).2)
        = JsMap.get other (clusters cm).
Proof.
  intros Hget Hidx. unfold forceFailover. rewrite Hget, Hidx.
  assert (Hlen : (length (replicas cluster) =? 0) = false).
  { apply Nat.eqb_neq. apply lookup_lt_Some in Hidx. lia. }
  rewrite Hlen. cbn [fst snd set_clusters clusters].
  eexists. split; [done|]. split; [apply JsMap_get_set_eq|].
  cbn [primary replicas status]. split; [done|]. split.
  { destruct (primary cluster); simpl; by rewrite ?app_nil_r. }
  split.
  { pose proof (delete_Permutation (replicas cluster) index promoted Hidx)
      as Hperm.
    destruct (primary cluster) as [p|]; simpl.
    - transitivity (promoted :: p :: delete index (replicas cluster)).
      + apply Permutation_cons; [done|]. symmetry.
        apply Permutation_cons_append.
      + transitivity (p :: promoted :: delete index (replicas cluster));
          [apply perm_swap|].
        apply Permutation_cons; [done|]. symmetry. exact Hperm.
    - rewrite ?app_nil_r. symmetry. exact Hperm. }
  split; [done|]. split.
  { by eapply JsMap_keys_set_present. }
  intros other Hne. by apply JsMap_get_set_ne.
Qed.

Lemma availableClusters_first (cm : t) (c : string)
    (before after : list (string * ClusterInfo)) (cluster : ClusterInfo) :
  clusters cm = (before ++ (c, cluster) :: after)%list →
  status cluster = active →
  (∀ id cluster', (id, cluster') ∈ before → status cluster' ≠ active) →
  ∃ rest, availableClusters cm = c :: rest.
Proof.
  unfold availableClusters. intros -> Hact Hfirst.
  induction before as [|[k v] before IH]; cbn [app].
  - rewrite filter_cons_True by (cbn; by rewrite Hact). by eexists.
  - rewrite filter_cons_False.
    + apply IH. intros id cluster' Hin. apply (Hfirst id cluster').
      by right.
    + cbn. intros Hv. apply (Hfirst k v); [left|]. by destruct (status v).
Qed.

(** X5. A failover onto an index past the end of a non-empty replica list
    throws, but only after it has rewired the pools: the cluster is left
    without a primary (the former primary is appended to the replicas),
    with its status, its place in the registry and the other clusters as
    they were. From then on every write that is routed to the cluster
    fails for want of a suitable pool: a write that names the cluster, a
    write whose schema the schema map sends to it, and a write that names
    neither when the cluster is the first active one of the registry. *)
Theorem forceFailover_out_of_range (clusterId : string) (index : nat)
    (cm : t) (cluster : ClusterInfo) :
  isInitialized cm = true →
  clusterId ≠ "" →
  JsMap.get clusterId (clusters cm) = Some cluster →
  replicas cluster ≠ [] →
  length (replicas cluster) ≤ index →
  let cm' := (forceFailover clusterId index cm).2 in
  let routed (options : QueryOptions) : Prop :=
    opt_clusterId options = Some clusterId
    ∨ (truthy (opt_clusterId options) = false
       ∧ ∃ s, opt_schema options = Some s ∧ s ≠ ""
              ∧ schemaClusterMap cm !! s = Some clusterId)
    ∨ (truthy (opt_clusterId options) = false
       ∧ truthy (opt_schema options) = false
       ∧ ∃ before cluster' after,
           clusters cm' = (before ++ (clusterId, cluster') :: after)%list
           ∧ status cluster' = active
           ∧ ∀ id other, (id, other) ∈ before → status other ≠ active) in
  is_throw (forceFailover clusterId index cm).1 = true
  ∧ (∃ cluster',
       JsMap.get clusterId (clusters cm') = Some cluster'
       ∧ primary cluster' = None
       ∧ replicas cluster'
         = (replicas cluster ++ option_list (primary cluster))%list
       ∧ status cluster' = status cluster)
  ∧ JsMap.keys (clusters cm') = JsMap.keys (clusters cm)
  ∧ (∀ other, other ≠ clusterId →
       JsMap.get other (clusters cm') = JsMap.get other (clusters cm))
  ∧ schemaClusterMap cm' = schemaClusterMap cm
  ∧ ∀ options,
      opt_operation options = Some write →
      routed options →
      (getConnection options cm').1
      = Throw ("No suitable connection pool found for cluster: "
               +:+ clusterId).
Proof.
  intros Hinit Hid Hget Hne Hlen cm' routed.
  assert (Hcm' : cm'
                 = set_clusters
                     (JsMap.set clusterId
                        {| cluster_id := cluster_id cluster; primary := None;
                           replicas :=
                             match primary cluster with
                             | Some p => (replicas cluster ++ [p])%list
                             | None => replicas cluster
                             end;
                           status := status cluster;
                           config_schemas := config_schemas cluster |}
                        (clusters cm)) cm
                 ∧ is_throw (forceFailover clusterId index cm).1 = true).
  { unfold cm', forceFailover. rewrite Hget.
    assert (Hl : (length (replicas cluster) =? 0) = false).
    { apply Nat.eqb_neq. destruct (replicas cluster); [done|simpl; lia]. }
    by rewrite Hl, (lookup_ge_None_2 _ _ Hlen),
      (list_delete_past_end _ _ Hlen). }
  destruct Hcm' as [Hcm' Hthrow]. clearbody cm'. subst cm'.
  cbn [set_clusters clusters schemaClusterMap] in *.
  split; [done|]. split.
  { eexists. split; [apply JsMap_get_set_eq|]. split; [done|].
    split; [|done].
    cbn [replicas]. destruct (primary cluster); simpl; by rewrite ?app_nil_r. }
  split; [by eapply JsMap_keys_set_present|].
  split; [intros other Hother; by apply JsMap_get_set_ne|].
  split; [done|].
  intros options Hop Hrouted.
  rewrite (getConnection_found weightedDraw metricIndex _ _ clusterId
             {| cluster_id := cluster_id cluster; primary := None;
                replicas := match primary cluster with
                            | Some p => (replicas cluster ++ [p])%list
                            | None => replicas cluster
                            end;
                status := status cluster;
                config_schemas := config_schemas cluster |}).
  - rewrite Hop. cbn [default from_option id].
    unfold ClusterManager.selectPool.
    assert (Hw : ∀ c, _shouldUseReplica write c = false) by by intros [].
    rewrite Hw. by simpl.
  - done.
  - apply String.eqb_neq in Hid.
    unfold resolveTarget, truthy_val.
    destruct Hrouted as [Hc | [(Hc & s & Hs & Hsne & Hmap)
                              | (Hc & Hs & before & cluster' & after & Hreg
                                 & Hact & Hfirst)]].
    + rewrite Hc. unfold truthy. by rewrite Hid.
    + rewrite Hc, Hs.
      assert (Hts : truthy (Some s) = true).
      { unfold truthy. apply String.eqb_neq in Hsne. by rewrite Hsne. }
      rewrite Hts. cbn [schemaClusterMap set_clusters]. rewrite Hmap.
      unfold truthy. by rewrite Hid.
    + rewrite Hc, Hs.
      destruct (availableClusters_first (set_clusters _ cm) clusterId
                  before after cluster' Hreg Hact Hfirst) as (rest & ->).
      done.
  - cbn [clusters]. apply JsMap_get_set_eq.
Qed.

(** A write is always served by the primary pool of the target cluster. *)
Lemma write_connection_is_primary (options : QueryOptions) (cm cm1 : t)
    (connection : WrappedConnection) :
  opt_operation options = Some write →
  getConnection options cm = (Ok connection, cm1) →
  ∃ cluster pool,
    JsMap.get (conn_clusterId connection) (clusters cm) = Some cluster
    ∧ primary cluster = Some pool
    ∧ conn_pool connection = poolId pool
    ∧ clusters cm1 = clusters cm
    ∧ activeConnections (stats cm1) = (activeConnections (stats cm) + 1)%Z.
Proof.
  intros Hop. unfold ClusterManager.getConnection.
  destruct (negb (isInitialized cm)); [done|].
  destruct (resolveTarget options cm) as [target|]; [|done].
  destruct (JsMap.get target (clusters cm)) as [cluster|] eqn:Hg; [|done].
  rewrite Hop. cbn [default from_option id].
  assert (Hw : ∀ c, _shouldUseReplica write c = false) by by intros [].
  rewrite Hw. unfold ClusterManager.selectPool. cbn [andb].
  destruct (primary cluster) as [pool|] eqn:Hp; [|done].
  destruct (pool_getConnection pool); [|done].
  intros [= <- <-]. by exists cluster, pool.
Qed.

(** X6. After a successful failover, writes to the cluster are served by
    the promoted pool. *)
Theorem write_after_failover (clusterId : string) (index : nat) (cm : t)
    (cluster : ClusterInfo) (promoted : ConnectionPool)
    (schema : option string) (consistencyLevel : option ConsistencyLevel) :
  isInitialized cm = true →
  clusterId ≠ "" →
  JsMap.get clusterId (clusters cm) = Some cluster →
  replicas cluster !! index = Some promoted →
  (getConnection
     {| opt_schema := schema; opt_operation := Some write;
        opt_consistencyLevel := consistencyLevel;
        opt_clusterId := Some clusterId |}
     (forceFailover clusterId index cm).2).1
  = match pool_getConnection promoted with
    | Ok _ => Ok {| conn_clusterId := clusterId; conn_schema := schema;
                    conn_pool := poolId promoted |}
    | Throw e => Throw e
    end.
Proof.
  intros Hinit Hid Hget Hidx.
  destruct (forceFailover_new_primary clusterId index cm cluster promoted
              Hget Hidx) as (cluster' & Hget' & Hprim).
  rewrite (getConnection_found weightedDraw metricIndex _ _ clusterId cluster').
  - cbn [opt_operation opt_consistencyLevel opt_schema default from_option id].
    assert (Hw : ∀ c, _shouldUseReplica write c = false) by by intros [].
    rewrite Hw. unfold ClusterManager.selectPool. cbn [andb].
    rewrite Hprim. cbn [fst]. by destruct (pool_getConnection promoted).
  - unfold forceFailover. rewrite Hget, Hidx.
    by destruct (length (replicas cluster) =? 0).
  - unfold resolveTarget, truthy_val, truthy. cbn [opt_clusterId].
    apply String.eqb_neq in Hid. by rewrite Hid.
  - done.
Qed.

(** X7. Under round robin, a read that tolerates eventual consistency on a
    cluster with replicas is always served by a replica, the one at index
    [cursor mod n]: the pool index is never out of range. *)
Theorem read_served_by_round_robin_replica (options : QueryOptions) (cm : t)
    (target : string) (cluster : ClusterInfo) :
  isInitialized cm = true →
  resolveTarget options cm = Ok target →
  JsMap.get target (clusters cm) = Some cluster →
  LoadBalancer.strategy (loadBalancer cm) = LoadBalancer.round_robin →
  default read (opt_operation options) = read →
  default eventual (opt_consistencyLevel options) = eventual →
  replicas cluster ≠ [] →
  ∃ pool,
    replicas cluster
      !! (LoadBalancer.currentIndex (loadBalancer cm)
          mod length (replicas cluster)) = Some pool
    ∧ (getConnection options cm).1
      = match pool_getConnection pool with
        | Ok _ => Ok {| conn_clusterId := target;
                        conn_schema := opt_schema options;
                        conn_pool := poolId pool |}
        | Throw e => Throw e
        end.
Proof.
  intros Hinit Hres Hget Hrr Hop Hcl Hne.
  assert (HN : 1 ≤ length (replicas cluster)).
  { destruct (replicas cluster); [done|simpl; lia]. }
  destruct (lookup_lt_is_Some_2 (replicas cluster)
              (LoadBalancer.currentIndex (loadBalancer cm)
               mod length (replicas cluster))) as [pool Hpool].
  { apply Nat.mod_upper_bound. lia. }
  exists pool. split; [done|].
  rewrite (getConnection_found weightedDraw metricIndex options cm target
             cluster Hinit Hres Hget).
  rewrite Hop, Hcl. unfold ClusterManager.selectPool. cbn [_shouldUseReplica].
  assert (Hpos : (0 <? length (replicas cluster)) = true)
    by (apply Nat.ltb_lt; lia).
  rewrite Hpos. cbn [andb].
  destruct (selectReplica_round_robin weightedDraw metricIndex
              (replicas cluster) options (loadBalancer cm)
              (LoadBalancer.currentIndex (loadBalancer cm)) HN Hrr eq_refl)
    as (lb' & Hsel & _).
  rewrite Hsel, Hpool. cbn [fst]. by destruct (pool_getConnection pool).
Qed.

Local Abbreviation _singleClusterTransaction :=
  (ClusterManager._singleClusterTransaction weightedDraw metricIndex driver).
Local Abbreviation transaction :=
  (ClusterManager.transaction weightedDraw metricIndex driver).

(** X8. A single-cluster transaction that obtains its connection takes it
    from the primary pool of the target cluster and releases it on every
    path: the counter of active connections ends at [max 0 before] (no
    stray decrement, unlike [executeQuery]). It sends [BEGIN] first; when
    it resolves, the last statement is [COMMIT]; when it rejects, the last
    statement is [ROLLBACK]. *)
Theorem singleClusterTransaction_brackets {T : Type}
    (callback : WrappedConnection → Log → result T * Log)
    (options : QueryOptions) (cm cm1 : t) (log : Log)
    (connection : WrappedConnection) :
  (∀ c l, ∃ sent, (callback c l).2 = (l ++ sent)%list) →
  getConnection
    {| opt_schema := opt_schema options; opt_operation := Some write;
       opt_consistencyLevel := opt_consistencyLevel options;
       opt_clusterId := opt_clusterId options |} cm
  = (Ok connection, cm1) →
  let r := _singleClusterTransaction callback options cm log in
  (∃ cluster pool,
     JsMap.get (conn_clusterId connection) (clusters cm) = Some cluster
     ∧ primary cluster = Some pool ∧ conn_pool connection = poolId pool)
  ∧ activeConnections (stats r.1.2)
    = Z.max 0 (activeConnections (stats cm))
  ∧ ∃ sent,
      r.2 = (log ++ (connection, BEGIN) :: sent)%list
      ∧ (is_ok r.1.1 = true → last r.2 = Some (connection, COMMIT))
      ∧ (is_ok r.1.1 = false → last r.2 = Some (connection, ROLLBACK)).
Proof.
  intros Hext Hget r.
  destruct (write_connection_is_primary
              {| opt_schema := opt_schema options;
                 opt_operation := Some write;
                 opt_consistencyLevel := opt_consistencyLevel options;
                 opt_clusterId := opt_clusterId options |}
              cm cm1 connection eq_refl Hget)
    as (cluster & pool & Hc & Hp & Hid & _ & Hcount).
  split; [by exists cluster, pool|].
  unfold r, ClusterManager._singleClusterTransaction. rewrite Hget.
  cbn [fst snd]. split.
  { unfold release. cbn. rewrite Hcount. f_equal. lia. }
  unfold ClusterManager.query.
  destruct (driver log connection BEGIN) as [b|e].
  - destruct (Hext connection (log ++ [(connection, BEGIN)])%list)
      as (sent & Hsent).
    destruct (callback connection (log ++ [(connection, BEGIN)])%list)
      as [[v|e] log2]; simpl in Hsent; subst log2.
    + destruct (driver _ connection COMMIT) as [c|e]; cbn [fst snd].
      * exists (sent ++ [(connection, COMMIT)])%list.
        split; [by rewrite <- !app_assoc|].
        split; [intros _|done]. by rewrite last_snoc.
      * destruct (driver _ connection ROLLBACK) as [c|e']; cbn [fst snd];
          exists (sent ++ [(connection, COMMIT); (connection, ROLLBACK)])%list;
          (split; [by rewrite <- !app_assoc|]);
          (split; [done|intros _]);
          by rewrite last_snoc.
    + destruct (driver _ connection ROLLBACK) as [c|e']; cbn [fst snd];
        exists (sent ++ [(connection, ROLLBACK)])%list;
        (split; [by rewrite <- !app_assoc|]);
        (split; [done|intros _]);
        by rewrite last_snoc.
  - destruct (driver _ connection ROLLBACK) as [c|e']; cbn [fst snd];
      exists [(connection, ROLLBACK)];
      (split; [by rewrite <- !app_assoc|]);
      (split; [done|intros _]);
      by rewrite last_snoc.
Qed.

Lemma singleClusterTransaction_extends {T : Type}
    (callback : WrappedConnection → Log → result T * Log)
    (options : QueryOptions) (cm : t) (log : Log) :
  (∀ c l, ∃ sent, (callback c l).2 = (l ++ sent)%list) →
  ∃ sent,
    (_singleClusterTransaction callback options cm log).2
    = (log ++ sent)%list
    ∧ (is_ok (_singleClusterTransaction callback options cm log).1.1 = true →
       ∃ connection,
         last sent = Some (connection, COMMIT)
         ∧ conn_clusterId connection
           = match resolveTarget options cm with
             | Ok c => c
             | Throw _ => ""
             end).
Proof.
  intros Hext. unfold ClusterManager._singleClusterTransaction.
  destruct (getConnection _ cm) as [[connection|e] cm1] eqn:Hget.
  2:{ exists []. by rewrite app_nil_r. }
  assert (Hid : conn_clusterId connection
                = match resolveTarget options cm with
                  | Ok c => c
                  | Throw _ => ""
                  end).
  { unfold ClusterManager.getConnection in Hget.
    destruct (negb (isInitialized cm)); [done|].
    change (resolveTarget _ cm) with (resolveTarget options cm) in Hget.
    destruct (resolveTarget options cm) as [target|]; [|done].
    destruct (JsMap.get target (clusters cm)); [|done].
    destruct (ClusterManager.selectPool _ _ _ _ _ _ _) as [[pool|?] lb'];
      [|done].
    destruct (pool_getConnection pool); [|done].
    by injection Hget as <- _. }
  cbn [fst snd]. unfold ClusterManager.query.
  destruct (driver log connection BEGIN) as [b|e].
  - destruct (Hext connection (log ++ [(connection, BEGIN)])%list)
      as (sent & Hsent).
    destruct (callback connection (log ++ [(connection, BEGIN)])%list)
      as [[v|e] log2]; simpl in Hsent; subst log2.
    + destruct (driver _ connection COMMIT) as [c|e]; cbn [fst snd].
      * exists ([(connection, BEGIN)] ++ sent ++ [(connection, COMMIT)])%list.
        split; [by rewrite <- !app_assoc|]. intros _. exists connection.
        split; [|done]. by rewrite !app_assoc, last_snoc.
      * destruct (driver _ connection ROLLBACK) as [c|e']; cbn [fst snd];
          exists ([(connection, BEGIN)] ++ sent
                  ++ [(connection, COMMIT); (connection, ROLLBACK)])%list;
          (split; [by rewrite <- !app_assoc|done]).
    + destruct (driver _ connection ROLLBACK) as [c|e']; cbn [fst snd];
        exists ([(connection, BEGIN)] ++ sent ++ [(connection, ROLLBACK)])%list;
        (split; [by rewrite <- !app_assoc|done]).
  - destruct (driver _ connection ROLLBACK) as [c|e']; cbn [fst snd];
      exists [(connection, BEGIN); (connection, ROLLBACK)];
      (split; [by rewrite <- !app_assoc|done]).
Qed.

Lemma singleClusterTransaction_first {T : Type}
    (callback : WrappedConnection → Log → result T * Log)
    (options : QueryOptions) (cm cm1 : t) (log : Log)
    (connection : WrappedConnection) :
  (∀ c l, ∃ sent, (callback c l).2 = (l ++ sent)%list) →
  getConnection
    {| opt_schema := opt_schema options; opt_operation := Some write;
       opt_consistencyLevel := opt_consistencyLevel options;
       opt_clusterId := opt_clusterId options |} cm
  = (Ok connection, cm1) →
  ∃ sent,
    (_singleClusterTransaction callback options cm log).2
    = (log ++ (connection, BEGIN) :: sent)%list.
Proof.
  intros Hext Hget. unfold ClusterManager._singleClusterTransaction.
  rewrite Hget. cbn [fst snd]. unfold ClusterManager.query.
  destruct (driver log connection BEGIN) as [b|e].
  - destruct (Hext connection (log ++ [(connection, BEGIN)])%list)
      as (sent & Hsent).
    destruct (callback connection (log ++ [(connection, BEGIN)])%list)
      as [[v|e] log2]; simpl in Hsent; subst log2.
    + destruct (driver _ connection COMMIT) as [c|e]; cbn [fst snd].
      * exists (sent ++ [(connection, COMMIT)])%list.
        by rewrite <- !app_assoc.
      * destruct (driver _ connection ROLLBACK) as [c|e']; cbn [fst snd];
          exists (sent ++ [(connection, COMMIT); (connection, ROLLBACK)])%list;
          by rewrite <- !app_assoc.
    + destruct (driver _ connection ROLLBACK) as [c|e']; cbn [fst snd];
        exists (sent ++ [(connection, ROLLBACK)])%list;
        by rewrite <- !app_assoc.
  - destruct (driver _ connection ROLLBACK) as [c|e']; cbn [fst snd];
      exists [(connection, ROLLBACK)]; by rewrite <- !app_assoc.
Qed.

Lemma involvedClusters_acc (schemas : list string) (cm : t) :
  ∀ acc : list string,
    let r :=
      fold_left
        (λ acc schema,
           match truthy_val (schemaClusterMap cm !! schema) with
           | Some c =>
               if existsb (String.eqb c) acc then acc else (acc ++ [c])%list
           | None => acc
           end)
        schemas acc in
    (∀ c, c ∈ acc → c ∈ r)
    ∧ ∀ s c, s ∈ schemas → schemaClusterMap cm !! s = Some c → c ≠ "" →
        c ∈ r.
Proof.
  induction schemas as [|s0 schemas IH]; intros acc; simpl.
  - split; [done|]. intros s c Hs. by apply elem_of_nil in Hs.
  - set (acc' := match truthy_val (schemaClusterMap cm !! s0) with
                 | Some c =>
                     if existsb (String.eqb c) acc then acc
                     else (acc ++ [c])%list
                 | None => acc
                 end).
    destruct (IH acc') as [Hmono Hin].
    assert (Hsub : ∀ c, c ∈ acc → c ∈ acc').
    { intros c Hc. unfold acc'.
      destruct (truthy_val _) as [c0|]; [|done].
      destruct (existsb _ acc); [done|]. apply elem_of_app. by left. }
    split; [intros c Hc; by apply Hmono, Hsub|].
    intros s c Hs Hmap Hne. apply elem_of_cons in Hs as [->|Hs].
    + apply Hmono. unfold acc', truthy_val, truthy. rewrite Hmap.
      apply String.eqb_neq in Hne. rewrite Hne. cbn [negb].
      destruct (existsb (String.eqb c) acc) eqn:Hex.
      * apply existsb_exists in Hex as (c' & Hc' & Heq).
        apply String.eqb_eq in Heq. subst c'. by apply list_elem_of_In.
      * apply elem_of_app. right. left.
    + by eapply Hin.
Qed.

(** X9. A transaction over schemas that live on two different clusters,
    asked with an isolation level other than READ_UNCOMMITTED, is refused:
    the call throws before any connection is taken or any statement sent. *)
Theorem transaction_across_clusters_refused {T : Type}
    (callback : WrappedConnection → Log → result T * Log)
    (schemas : list string) (isolationLevel : IsolationLevel) (cm : t)
    (log : Log) (s1 s2 c1 c2 : string) :
  s1 ∈ schemas → s2 ∈ schemas →
  schemaClusterMap cm !! s1 = Some c1 →
  schemaClusterMap cm !! s2 = Some c2 →
  c1 ≠ "" → c2 ≠ "" → c1 ≠ c2 →
  isolationLevel ≠ READ_UNCOMMITTED →
  ∃ e, transaction callback schemas (Some isolationLevel) cm log
       = (Throw e, cm, log).
Proof.
  intros Hs1 Hs2 Hm1 Hm2 Hn1 Hn2 Hne Hiso.
  unfold ClusterManager.transaction.
  destruct (involvedClusters_acc schemas cm []) as [_ Hin].
  fold (involvedClusters schemas cm) in Hin.
  pose proof (Hin s1 c1 Hs1 Hm1 Hn1) as H1.
  pose proof (Hin s2 c2 Hs2 Hm2 Hn2) as H2.
  assert (Hlen : (length (involvedClusters schemas cm) <=? 1) = false).
  { apply Nat.leb_gt.
    destruct (involvedClusters schemas cm) as [|x [|y l]]; simpl; [| |lia].
    - by apply elem_of_nil in H1.
    - apply list_elem_of_singleton in H1, H2. congruence. }
  rewrite Hlen. destruct isolationLevel; try done; by eexists.
Qed.

(** X10. A transaction over schemas of at most one cluster does not run on
    that cluster: it asks for a connection without naming a schema or a
    cluster, so it runs on the first active cluster of the registry, and
    fails when none is active, wherever the schemas live. *)
Theorem transaction_runs_on_first_active {T : Type}
    (callback : WrappedConnection → Log → result T * Log)
    (schemas : list string) (isolationLevel : option IsolationLevel)
    (cm : t) (log : Log) :
  isInitialized cm = true →
  length (involvedClusters schemas cm) ≤ 1 →
  (∀ c l, ∃ sent, (callback c l).2 = (l ++ sent)%list) →
  match availableClusters cm with
  | [] =>
      transaction callback schemas isolationLevel cm log
      = (Throw "No active clusters available", cm, log)
  | first :: _ =>
      ∀ x, (transaction callback schemas isolationLevel cm log).2
             !! length log = Some x →
           conn_clusterId x.1 = first ∧ x.2 = BEGIN
  end.
Proof.
  intros Hinit Hlen Hext. unfold ClusterManager.transaction.
  apply Nat.leb_le in Hlen. rewrite Hlen.
  assert (Hres : resolveTarget
                   {| opt_schema := None; opt_operation := Some write;
                      opt_consistencyLevel := None; opt_clusterId := None |}
                   cm
                 = match availableClusters cm with
                   | [] => Throw "No active clusters available"
                   | c :: _ => Ok c
                   end) by done.
  destruct (availableClusters cm) as [|first rest] eqn:Hav.
  - unfold ClusterManager._singleClusterTransaction,
      ClusterManager.getConnection.
    cbn [opt_schema opt_clusterId opt_operation opt_consistencyLevel].
    by rewrite Hinit, Hres.
  - intros x.
    destruct (getConnection
                {| opt_schema := None; opt_operation := Some write;
                   opt_consistencyLevel := None; opt_clusterId := None |}
                cm) as [[connection|e] cm1] eqn:Hget.
    2:{ unfold ClusterManager._singleClusterTransaction.
        cbn [opt_schema opt_clusterId opt_operation opt_consistencyLevel].
        rewrite Hget. cbn [snd]. intros Hx. apply lookup_lt_Some in Hx. lia. }
    assert (Hid : conn_clusterId connection = first).
    { unfold ClusterManager.getConnection in Hget.
      cbn [opt_schema opt_clusterId opt_operation opt_consistencyLevel]
        in Hget.
      rewrite Hinit, Hres in Hget. cbn [negb] in Hget.
      destruct (JsMap.get first (clusters cm)); [|done].
      destruct (ClusterManager.selectPool _ _ _ _ _ _ _) as [[pool|?] lb'];
        [|done].
      destruct (pool_getConnection pool); [|done].
      by injection Hget as <- _. }
    destruct (singleClusterTransaction_first callback
                {| opt_schema := None; opt_operation := None;
                   opt_consistencyLevel := None; opt_clusterId := None |}
                cm cm1 log connection Hext Hget) as (sent & Hsent).
    destruct (_singleClusterTransaction callback _ cm log)
      as [[[r|e] cm2] log2]; simpl in Hsent; subst log2; simpl.
    all: unfold Log; rewrite lookup_app_r by lia; rewrite Nat.sub_diag;
      by intros [= <-].
Qed.

End ManagerMore.

Lemma forceFailover_promotes_witness :
  ∃ cluster',
    (ClusterManager.forceFailover "C" 1 Scenario.manager_CD).1 = Ok ()
    ∧ JsMap.get "C"
        (ClusterManager.clusters
           (ClusterManager.forceFailover "C" 1 Scenario.manager_CD).2)
      = Some cluster'
    ∧ ClusterManager.primary cluster'
      = Some (ClusterManager.mkPool "C_replica_1" true)
    ∧ ClusterManager.replicas cluster'
      = [ClusterManager.mkPool "C_replica_0" true;
         ClusterManager.mkPool "C_primary" true].
Proof.
  destruct (forceFailover_promotes "C" 1 Scenario.manager_CD Scenario.clusterC
              (ClusterManager.mkPool "C_replica_1" true) eq_refl eq_refl)
    as (cluster' & Hok & Hget & Hprim & Hreps & _).
  exists cluster'. by rewrite Hreps.
Defined.

Lemma forceFailover_out_of_range_witness :
  is_throw (ClusterManager.forceFailover "C" 2 Scenario.manager_CD).1 = true
  ∧ (ClusterManager.getConnection Scenario.noDraw Scenario.firstIndex
       (Scenario.write_to "C")
       (ClusterManager.forceFailover "C" 2 Scenario.manager_CD).2).1
    = Throw "No suitable connection pool found for cluster: C".
Proof.
  destruct (forceFailover_out_of_range Scenario.noDraw Scenario.firstIndex
              "C" 2 Scenario.manager_CD Scenario.clusterC eq_refl
              ltac:(discriminate) eq_refl ltac:(discriminate)
              ltac:(simpl; lia))
    as (Hthrow & _ & _ & _ & _ & Hwrite).
  split; [exact Hthrow|].
  apply (Hwrite (Scenario.write_to "C")); [reflexivity|]. by left.
Defined.

Lemma write_after_failover_witness :
  (ClusterManager.getConnection Scenario.noDraw Scenario.firstIndex
     (Scenario.write_to "C")
     (ClusterManager.forceFailover "C" 0 Scenario.manager_CD).2).1
  = Ok {| ClusterManager.conn_clusterId := "C";
          ClusterManager.conn_schema := None;
          ClusterManager.conn_pool := "C_replica_0" |}.
Proof.
  apply (write_after_failover Scenario.noDraw Scenario.firstIndex "C" 0
           Scenario.manager_CD Scenario.clusterC
           (ClusterManager.mkPool "C_replica_0" true) None None);
    done.
Defined.

Lemma read_served_by_round_robin_replica_witness :
  ∃ pool,
    ClusterManager.replicas Scenario.clusterC !! (0 mod 2) = Some pool
    ∧ (ClusterManager.getConnection Scenario.noDraw Scenario.firstIndex
         Scenario.options_users Scenario.manager_CD).1
      = match ClusterManager.pool_getConnection pool with
        | Ok _ => Ok {| ClusterManager.conn_clusterId := "C";
                        ClusterManager.conn_schema := Some "users";
                        ClusterManager.conn_pool :=
                          ClusterManager.poolId pool |}
        | Throw e => Throw e
        end.
Proof.
  apply (read_served_by_round_robin_replica Scenario.noDraw
           Scenario.firstIndex Scenario.options_users Scenario.manager_CD
           "C" Scenario.clusterC); try done; vm_compute; reflexivity.
Defined.

Lemma insert_callback_extends :
  ∀ c l, ∃ sent, (Scenario.insert_callback c l).2 = (l ++ sent)%list.
Proof. intros c l. by eexists. Qed.

Lemma singleClusterTransaction_brackets_witness :
  ClusterManager.activeConnections
    (ClusterManager.stats
       (ClusterManager._singleClusterTransaction Scenario.noDraw
          Scenario.firstIndex Scenario.accepting Scenario.insert_callback
          Scenario.options_users Scenario.manager_CD []).1.2)
  = Z.max 0
      (ClusterManager.activeConnections
         (ClusterManager.stats Scenario.manager_CD)).
Proof.
  destruct (singleClusterTransaction_brackets Scenario.noDraw
              Scenario.firstIndex Scenario.accepting
              Scenario.insert_callback Scenario.options_users
              Scenario.manager_CD
              (ClusterManager.getConnection Scenario.noDraw
                 Scenario.firstIndex
                 {| ClusterManager.opt_schema := Some "users";
                    ClusterManager.opt_operation :=
                      Some ClusterManager.write;
                    ClusterManager.opt_consistencyLevel := None;
                    ClusterManager.opt_clusterId := None |}
                 Scenario.manager_CD).2
              []
              {| ClusterManager.conn_clusterId := "C";
                 ClusterManager.conn_schema := Some "users";
                 ClusterManager.conn_pool := "C_primary" |}
              insert_callback_extends)
    as (_ & Hcount & _).
  - vm_compute. reflexivity.
  - exact Hcount.
Defined.

Lemma transaction_across_clusters_refused_witness :
  ∃ e,
    ClusterManager.transaction Scenario.noDraw Scenario.firstIndex
      Scenario.accepting Scenario.insert_callback ["users"; "orders"]
      (Some ClusterManager.SERIALIZABLE) Scenario.manager_CD []
    = (Throw e, Scenario.manager_CD, []).
Proof.
  apply (transaction_across_clusters_refused Scenario.noDraw
           Scenario.firstIndex Scenario.accepting Scenario.insert_callback
           ["users"; "orders"] ClusterManager.SERIALIZABLE
           Scenario.manager_CD [] "users" "orders" "C" "D");
    try done.
  - left.
  - right. left.
Defined.

(** Schema orders lives on cluster D, but the transaction begins on C, the
    first active cluster. *)
Lemma transaction_runs_on_first_active_witness :
  ∃ x,
    (ClusterManager.transaction Scenario.noDraw Scenario.firstIndex
       Scenario.accepting Scenario.insert_callback ["orders"] None
       Scenario.manager_CD []).2 !! 0 = Some x
    ∧ ClusterManager.conn_clusterId x.1 = "C" ∧ x.2 = Driver.BEGIN.
Proof.
  exists (Scenario.connC, Driver.BEGIN).
  assert (Hfirst :
    (ClusterManager.transaction Scenario.noDraw Scenario.firstIndex
       Scenario.accepting Scenario.insert_callback ["orders"] None
       Scenario.manager_CD []).2 !! 0
    = Some (Scenario.connC, Driver.BEGIN)) by (vm_compute; reflexivity).
  split; [exact Hfirst|].
  apply (transaction_runs_on_first_active Scenario.noDraw
           Scenario.firstIndex Scenario.accepting Scenario.insert_callback
           ["orders"] None Scenario.manager_CD []
           eq_refl ltac:(vm_compute; lia) insert_callback_extends
           (Scenario.connC, Driver.BEGIN) Hfirst).
Defined.

(** ** DistributedTransaction: begin, commit paths, bookkeeping *)

Section TransactionsMore.

Import Driver.
Import ClusterManager.
Import DistributedTransaction.

Variable weightedDraw : list ConnectionPool → QueryOptions → option nat.
Variable metricIndex :
  LoadBalancer.LoadBalancingStrategy → list ConnectionPool → QueryOptions → nat.
Variable driver : Log → WrappedConnection → Stmt → result QueryResult.

Local Abbreviation getConnection :=
  (ClusterManager.getConnection weightedDraw metricIndex).
Local Abbreviation openConnections :=
  (DistributedTransaction.openConnections weightedDraw metricIndex driver).
Local Abbreviation begin :=
  (DistributedTransaction.begin weightedDraw metricIndex driver).
Local Abbreviation commit := (DistributedTransaction.commit driver).
Local Abbreviation rollback := (DistributedTransaction.rollback driver).
Local Abbreviation execute := (DistributedTransaction.execute driver).
Local Abbreviation sendAll := (DistributedTransaction.sendAll driver).

Lemma JsMap_set_fresh {V} (k : string) (v : V) (m : JsMap.t V) :
  k ∉ JsMap.keys m → JsMap.set k v m = (m ++ [(k, v)])%list.
Proof.
  unfold JsMap.keys. induction m as [|[k0 v0] m IH]; simpl; [done|].
  intros Hk. apply not_elem_of_cons in Hk as [Hne Hk].
  apply String.eqb_neq in Hne. rewrite Hne. by rewrite IH.
Qed.

Lemma getConnection_by_id (c : string) (cm cm1 : ClusterManager.t)
    (connection : WrappedConnection) (options : QueryOptions) :
  opt_clusterId options = Some c → c ≠ "" →
  getConnection options cm = (Ok connection, cm1) →
  conn_clusterId connection = c.
Proof.
  intros Hc Hne. unfold ClusterManager.getConnection.
  destruct (negb (isInitialized cm)); [done|].
  assert (Hres : resolveTarget options cm = Ok c).
  { unfold resolveTarget, truthy_val, truthy. rewrite Hc.
    apply String.eqb_neq in Hne. by rewrite Hne. }
  rewrite Hres.
  destruct (JsMap.get c (clusters cm)); [|done].
  destruct (ClusterManager.selectPool _ _ _ _ _ _ _) as [[pool|?] lb'];
    [|done].
  destruct (pool_getConnection pool); [|done].
  by intros [= <- _].
Qed.

Lemma filter_begin_sent (stmt : Stmt)
    (cs : list (string * WrappedConnection)) :
  is_begin stmt = false →
  filter (λ x : WrappedConnection * Stmt, is_begin x.2 = true)
    (map (λ kc : string * WrappedConnection, (kc.2, stmt)) cs) = [].
Proof.
  intros Hs. induction cs as [|kc cs IH]; [done|].
  simpl. rewrite filter_cons. simpl. rewrite Hs. by case_decide.
Qed.

(** The loop of [begin]: the log only grows; the counter of active
    connections rises by one per [BEGIN] sent and nothing is released; on
    success the connections of the listed clusters are appended in order. *)
Lemma openConnections_spec (todo : list string) :
  ∀ (tx : DistributedTransactionState) (cm : ClusterManager.t) (log : Log),
    (∀ c, c ∈ todo → c ≠ "") →
    NoDup todo →
    (∀ c, c ∈ todo → c ∉ JsMap.keys (tx_connections tx)) →
    ∃ suffix,
      (openConnections todo tx cm log).2 = (log ++ suffix)%list
      ∧ activeConnections (stats (openConnections todo tx cm log).1.2)
        = (activeConnections (stats cm)
           + Z.of_nat
               (length
                  (filter (λ x : WrappedConnection * Stmt,
                             is_begin x.2 = true) suffix)))%Z
      ∧ match (openConnections todo tx cm log).1.1 with
        | Throw _ => True
        | Ok tx' =>
            ∃ conns : list WrappedConnection,
              tx' = set_connections
                      (tx_connections tx ++ zip todo conns)%list tx
              ∧ length conns = length todo
              ∧ suffix = map (λ c, (c, BEGIN)) conns
              ∧ ∀ i c conn, todo !! i = Some c → conns !! i = Some conn →
                  conn_clusterId conn = c
        end.
Proof.
  induction todo as [|c todo IH]; intros tx cm log Hne Hnd Hfresh.
  - exists []. simpl. rewrite !app_nil_r. split; [done|]. split; [lia|].
    exists []. by destruct tx.
  - simpl.
    set (opts := {| opt_schema := None; opt_operation := Some write;
                    opt_consistencyLevel := None;
                    opt_clusterId := Some c |}).
    destruct (getConnection opts cm) as [[connection|e] cm1] eqn:Hget.
    + pose proof (getConnection_increments weightedDraw metricIndex opts cm
                    cm1 connection Hget) as Hinc.
      pose proof (getConnection_by_id c cm cm1 connection opts eq_refl
                    (Hne c ltac:(left)) Hget) as Hid.
      destruct (driver log connection BEGIN) as [b|e].
      * apply NoDup_cons in Hnd as [Hc Hnd].
        destruct (IH (set_connections
                        (JsMap.set c connection (tx_connections tx)) tx)
                    cm1 (log ++ [(connection, BEGIN)])%list)
          as (suffix & Hlog & Hcount & Hok).
        { intros c' Hc'. apply Hne. by right. }
        { done. }
        { intros c' Hc'. cbn [set_connections tx_connections].
          rewrite JsMap_set_fresh by (apply Hfresh; left).
          unfold JsMap.keys. rewrite List.map_app. simpl.
          intros Hin. apply elem_of_app in Hin as [Hin|Hin].
          - by apply (Hfresh c' ltac:(by right)).
          - apply list_elem_of_singleton in Hin. by subst. }
        exists ((connection, BEGIN) :: suffix).
        rewrite Hlog, Hcount, Hinc. split; [by rewrite <- app_assoc|].
        split.
        { rewrite filter_cons_True by done. simpl. lia. }
        destruct ((openConnections todo _ cm1 _).1.1) as [tx'|]; [|done].
        destruct Hok as (conns & -> & Hlen & -> & Hids).
        exists (connection :: conns). cbn [set_connections tx_connections].
        rewrite JsMap_set_fresh by (apply Hfresh; left).
        split; [by rewrite <- app_assoc|]. split; [simpl; lia|].
        split; [done|].
        intros [|i] c' conn; simpl.
        -- by intros [= <-] [= <-].
        -- apply Hids.
      * unfold rollbackConnections. rewrite (sendAll_log driver).
        exists ((connection, BEGIN)
                :: map (λ kc : string * WrappedConnection, (kc.2, ROLLBACK))
                     (tx_connections tx)).
        cbn [fst snd]. split; [by rewrite <- app_assoc|].
        split; [|done]. rewrite Hinc, filter_cons_True by done.
        rewrite filter_begin_sent by done. simpl. lia.
    + unfold rollbackConnections. rewrite (sendAll_log driver).
      eexists. cbn [fst snd]. split; [done|]. split; [|done].
      rewrite (getConnection_failure_keeps_counter weightedDraw metricIndex
                 _ cm cm1 e Hget).
      rewrite filter_begin_sent by done. simpl. lia.
Qed.

Lemma set_add_NoDup (x : string) (l : list string) :
  NoDup l → NoDup (DistributedTransaction.set_add x l).
Proof.
  intros Hl. unfold DistributedTransaction.set_add.
  destruct (existsb (String.eqb x) l) eqn:E; [done|].
  apply NoDup_app. split; [done|]. split; [|apply NoDup_singleton].
  intros y Hy Hy'. apply list_elem_of_singleton in Hy'. subst y.
  assert (existsb (String.eqb x) l = true); [|congruence].
  apply existsb_exists. exists x. split; [by apply list_elem_of_In|].
  apply String.eqb_refl.
Qed.

Lemma involvedClusters_wf (schemas : list string) (cm : ClusterManager.t) :
  NoDup (DistributedTransaction.involvedClusters schemas cm)
  ∧ ∀ c, c ∈ DistributedTransaction.involvedClusters schemas cm → c ≠ "".
Proof.
  unfold DistributedTransaction.involvedClusters.
  assert (H : ∀ acc : list string,
            NoDup acc → (∀ c, c ∈ acc → c ≠ "") →
            let r :=
              fold_left
                (λ acc schema,
                   match truthy_val (getClusterForSchema schema cm) with
                   | Some c => DistributedTransaction.set_add c acc
                   | None => acc
                   end) schemas acc in
            NoDup r ∧ ∀ c, c ∈ r → c ≠ "").
  { induction schemas as [|s schemas IH]; intros acc Hnd Hne; simpl;
      [done|].
    apply IH.
    - destruct (truthy_val _); [by apply set_add_NoDup|done].
    - intros c. unfold truthy_val, truthy.
      destruct (getClusterForSchema s cm) as [c0|]; [|by apply Hne].
      destruct (String.eqb c0 "") eqn:E; cbn [negb]; [by apply Hne|].
      unfold DistributedTransaction.set_add.
      destruct (existsb _ acc); [by apply Hne|].
      intros Hin. apply elem_of_app in Hin as [Hin|Hin]; [by apply Hne|].
      apply list_elem_of_singleton in Hin. subst c.
      by apply String.eqb_neq. }
  apply (H []); [constructor|]. intros c Hc. by apply elem_of_nil in Hc.
Qed.

(** X11. A [begin] that resolves stores the transaction in state prepared
    with exactly one connection per involved cluster, in the order of the
    clusters: the keys of [connections] are the clusters, without
    repetition, each connection belongs to the cluster it is filed under,
    and each has received [BEGIN]. The metrics count one more transaction,
    active. *)
Theorem begin_establishes_transaction (transactionId : string)
    (schemas : list string) (dt : DistributedTransaction.t)
    (cm : ClusterManager.t) (log : Log) :
  is_ok (returned (begin transactionId schemas dt cm log)) = true →
  let o := begin transactionId schemas dt cm log in
  ∃ tx,
    returned o = Ok transactionId
    ∧ final_tx o = Some tx
    ∧ activeTransactions (dt_after o) !! transactionId = Some tx
    ∧ state tx = prepared ∧ tx_id tx = transactionId
    ∧ tx_clusters tx = DistributedTransaction.involvedClusters schemas cm
    ∧ JsMap.keys (tx_connections tx) = tx_clusters tx
    ∧ JsMap.wf (tx_connections tx)
    ∧ (∀ cid connection, (cid, connection) ∈ tx_connections tx →
         conn_clusterId connection = cid)
    ∧ log_after o
      = (log ++ map (λ kc : string * WrappedConnection, (kc.2, BEGIN))
                  (tx_connections tx))%list
    ∧ total (metrics (dt_after o)) = total (metrics dt) + 1
    ∧ active (metrics (dt_after o)) = (active (metrics dt) + 1)%Z.
Proof.
  intros Hok o. unfold o in *. unfold DistributedTransaction.begin in *.
  destruct (involvedClusters_wf schemas cm) as [Hnd Hne].
  set (tx0 := {| tx_id := transactionId; tx_schemas := schemas;
                 tx_clusters :=
                   DistributedTransaction.involvedClusters schemas cm;
                 state := preparing; tx_connections := [] |}) in *.
  destruct (openConnections_spec
              (DistributedTransaction.involvedClusters schemas cm)
              tx0 cm log Hne Hnd) as (suffix & Hlog & _ & Hres).
  { intros c _ Hin. by apply elem_of_nil in Hin. }
  destruct (openConnections _ tx0 cm log) as [[[tx1|e] cm1] log1];
    [|done].
  cbn [fst snd] in *. destruct Hres as (conns & -> & Hlen & -> & Hids).
  subst log1. eexists.
  cbn [returned final_tx dt_after log_after metrics activeTransactions].
  split; [done|]. split; [done|]. split; [by rewrite lookup_insert_eq|].
  cbn [set_state set_connections tx0 state tx_id tx_clusters
       tx_connections app].
  split; [done|]. split; [done|]. split; [done|].
  assert (Hkeys : JsMap.keys
                    (zip (DistributedTransaction.involvedClusters schemas cm)
                       conns)
                  = DistributedTransaction.involvedClusters schemas cm).
  { unfold JsMap.keys. apply fst_zip. lia. }
  split; [done|]. split; [unfold JsMap.wf; by rewrite Hkeys|]. split.
  - intros cid connection Hin.
    apply list_elem_of_lookup in Hin as (i & Hi).
    apply lookup_zip_with_Some in Hi as (c & conn & [= <- <-] & Hc & Hconn).
    by eapply Hids.
  - split; [|done]. f_equal.
    rewrite <- (snd_zip (DistributedTransaction.involvedClusters schemas cm)
                  conns) at 1 by lia.
    by rewrite List.map_map.
Qed.

(** X12. A [begin] that rejects registers nothing and leaves the metrics
    alone, but it keeps what it took: the counter of active connections
    stays raised by one for every connection on which a [BEGIN] was sent;
    none of them is released. *)
Theorem begin_failure_keeps_connections (transactionId : string)
    (schemas : list string) (dt : DistributedTransaction.t)
    (cm : ClusterManager.t) (log : Log) :
  is_ok (returned (begin transactionId schemas dt cm log)) = false →
  let o := begin transactionId schemas dt cm log in
  dt_after o = dt
  ∧ final_tx o = None
  ∧ ∃ sent,
      log_after o = (log ++ sent)%list
      ∧ activeConnections (stats (cm_after o))
        = (activeConnections (stats cm)
           + Z.of_nat
               (length
                  (filter (λ x : WrappedConnection * Stmt,
                             is_begin x.2 = true) sent)))%Z.
Proof.
  intros Hko o. unfold o in *. unfold DistributedTransaction.begin in *.
  destruct (involvedClusters_wf schemas cm) as [Hnd Hne].
  set (tx0 := {| tx_id := transactionId; tx_schemas := schemas;
                 tx_clusters :=
                   DistributedTransaction.involvedClusters schemas cm;
                 state := preparing; tx_connections := [] |}) in *.
  destruct (openConnections_spec
              (DistributedTransaction.involvedClusters schemas cm)
              tx0 cm log Hne Hnd) as (suffix & Hlog & Hcount & _).
  { intros c _ Hin. by apply elem_of_nil in Hin. }
  destruct (openConnections _ tx0 cm log) as [[[tx1|e] cm1] log1];
    [done|].
  cbn [fst snd] in *. split; [done|]. split; [done|]. by exists suffix.
Qed.

(** X13. When every participant accepts [PREPARE TRANSACTION], the commit
    of a multi-cluster transaction resolves whatever the participants
    answer to [COMMIT PREPARED]: a rejected second phase is not reported.
    The statements sent are the [PREPARE]s followed by the [COMMIT
    PREPARED]s, one of each per connection, and nothing else; the
    transaction ends committed and is forgotten. *)
Theorem commit_two_phase_resolves (transactionId : string) (duration : Z)
    (dt : DistributedTransaction.t) (cm : ClusterManager.t) (log : Log)
    (tx : DistributedTransactionState) :
  activeTransactions dt !! transactionId = Some tx →
  1 < length (tx_clusters tx) →
  failedClusters
    (sendAll (PREPARE_TRANSACTION (tx_id tx)) (tx_connections tx) log).1
  = [] →
  let o := commit transactionId duration dt cm log in
  returned o = Ok ()
  ∧ state <$> final_tx o = Some committed
  ∧ activeTransactions (dt_after o) !! transactionId = None
  ∧ log_after o
    = (log
       ++ map (λ kc : string * WrappedConnection,
                 (kc.2, PREPARE_TRANSACTION (tx_id tx))) (tx_connections tx)
       ++ map (λ kc : string * WrappedConnection,
                 (kc.2, COMMIT_PREPARED (tx_id tx))) (tx_connections tx))%list
  ∧ committed_count (metrics (dt_after o))
    = committed_count (metrics dt) + 1
  ∧ aborted_count (metrics (dt_after o)) = aborted_count (metrics dt)
  ∧ active (metrics (dt_after o)) = (active (metrics dt) - 1)%Z.
Proof.
  intros Hfound Hmulti Hprep o.
  apply Nat.ltb_lt in Hmulti.
  assert (H2pc : twoPhaseCommit driver (set_state committing tx) log
                 = (Ok (),
                    (log
                     ++ map (λ kc : string * WrappedConnection,
                               (kc.2, PREPARE_TRANSACTION (tx_id tx)))
                          (tx_connections tx)
                     ++ map (λ kc : string * WrappedConnection,
                               (kc.2, COMMIT_PREPARED (tx_id tx)))
                          (tx_connections tx))%list)).
  { unfold twoPhaseCommit. cbn [set_state tx_id tx_connections].
    pose proof (sendAll_log driver (PREPARE_TRANSACTION (tx_id tx))
                  (tx_connections tx) log) as Hl1.
    destruct (sendAll (PREPARE_TRANSACTION (tx_id tx)) (tx_connections tx)
                log) as [rs log1].
    cbn [fst snd] in *. rewrite Hprep.
    pose proof (sendAll_log driver (COMMIT_PREPARED (tx_id tx))
                  (tx_connections tx) log1) as Hl2.
    destruct (sendAll (COMMIT_PREPARED (tx_id tx)) (tx_connections tx) log1)
      as [rs2 log2].
    cbn [snd] in Hl2. subst. by rewrite <- app_assoc. }
  unfold o, DistributedTransaction.commit. rewrite Hfound.
  cbn [set_state tx_clusters]. rewrite Hmulti.
  fold (set_state committing tx). rewrite H2pc.
  cbn. split; [done|]. split; [done|].
  split; [by rewrite lookup_delete_eq|]. done.
Qed.

(** X14. The commit of a transaction with at most one cluster sends a
    single [COMMIT] on its first connection. If the driver accepts it the
    call resolves and the transaction ends committed; if it rejects it the
    error is raised, every connection receives [ROLLBACK] and the
    transaction ends aborted. A transaction that involves no cluster at
    all cannot be committed: the call throws and counts an abort. *)
Theorem commit_single_cluster (transactionId : string) (duration : Z)
    (dt : DistributedTransaction.t) (cm : ClusterManager.t) (log : Log)
    (tx : DistributedTransactionState) :
  activeTransactions dt !! transactionId = Some tx →
  length (tx_clusters tx) ≤ 1 →
  let o := commit transactionId duration dt cm log in
  match JsMap.values (tx_connections tx) with
  | [] =>
      is_ok (returned o) = false ∧ log_after o = log
      ∧ state <$> final_tx o = Some aborted
      ∧ aborted_count (metrics (dt_after o))
        = aborted_count (metrics dt) + 1
  | connection :: _ =>
      match driver log connection COMMIT with
      | Ok _ =>
          returned o = Ok ()
          ∧ log_after o = (log ++ [(connection, COMMIT)])%list
          ∧ state <$> final_tx o = Some committed
      | Throw e =>
          returned o = Throw e
          ∧ log_after o
            = (log ++ (connection, COMMIT)
                 :: map (λ kc : string * WrappedConnection, (kc.2, ROLLBACK))
                      (tx_connections tx))%list
          ∧ state <$> final_tx o = Some aborted
      end
  end.
Proof.
  intros Hfound Hone o. unfold o, DistributedTransaction.commit.
  rewrite Hfound. cbn [set_state tx_clusters].
  assert (Hlt : (1 <? length (tx_clusters tx)) = false)
    by (apply Nat.ltb_ge; lia).
  rewrite Hlt. unfold singleClusterCommit, rollbackConnections.
  cbn [tx_connections set_state JsMap.values].
  destruct (tx_connections tx) as [|[cid connection] rest] eqn:E;
    cbn [JsMap.values map snd].
  - cbn. done.
  - unfold ClusterManager.query.
    destruct (driver log connection COMMIT) as [rows|e];
      cbn [fst snd returned log_after final_tx fmap option_fmap option_map
           releaseConnections set_connections set_state state].
    + done.
    + rewrite (sendAll_log driver). by rewrite <- app_assoc.
Qed.

Lemma release_all_counter {A : Type} (l : list A) (cm : ClusterManager.t) :
  activeConnections
    (stats (fold_left (λ cm' _, ClusterManager.release cm') l cm))
  = match l with
    | [] => activeConnections (stats cm)
    | _ => Z.max 0 (activeConnections (stats cm) - Z.of_nat (length l))
    end.
Proof.
  revert cm. induction l as [|x l IH]; intros cm; [done|].
  cbn [fold_left]. rewrite IH. unfold ClusterManager.release.
  destruct l as [|y l]; cbn -[Z.max Z.of_nat]; [lia|].
  rewrite !Nat2Z.inj_succ. lia.
Qed.

(** X15. [rollback] of a known transaction always resolves, even when the
    driver rejects every [ROLLBACK]. It sends one [ROLLBACK] per
    connection and nothing else, leaves the transaction aborted and
    forgotten, counts one abort, does not touch the duration average, and
    releases every connection: the manager's counter of active connections
    drops by their number, clamped at zero. *)
Theorem rollback_always_resolves (transactionId : string) (duration : Z)
    (dt : DistributedTransaction.t) (cm : ClusterManager.t) (log : Log)
    (tx : DistributedTransactionState) :
  activeTransactions dt !! transactionId = Some tx →
  let o := rollback transactionId duration dt cm log in
  returned o = Ok ()
  ∧ state <$> final_tx o = Some aborted
  ∧ activeTransactions (dt_after o) !! transactionId = None
  ∧ log_after o
    = (log ++ map (λ kc : string * WrappedConnection, (kc.2, ROLLBACK))
                (tx_connections tx))%list
  ∧ aborted_count (metrics (dt_after o)) = aborted_count (metrics dt) + 1
  ∧ active (metrics (dt_after o)) = (active (metrics dt) - 1)%Z
  ∧ avgDuration (metrics (dt_after o)) = avgDuration (metrics dt)
  ∧ activeConnections (stats (cm_after o))
    = match tx_connections tx with
      | [] => activeConnections (stats cm)
      | _ => Z.max 0 (activeConnections (stats cm)
                      - Z.of_nat (length (tx_connections tx)))
      end.
Proof.
  intros Hfound o. unfold o, DistributedTransaction.rollback.
  rewrite Hfound. unfold rollbackConnections, releaseConnections.
  cbn [set_state tx_connections returned final_tx dt_after log_after
       cm_after metrics activeTransactions fmap option_fmap option_map
       set_connections state count_aborted aborted_count active
       avgDuration].
  rewrite (sendAll_log driver), lookup_delete_eq, release_all_counter.
  done.
Qed.

(** X16. A transaction can be finished once. After [commit] (resolved or
    rejected) or [rollback] of a known transaction the id is unknown: a
    further [execute], [commit] or [rollback] on it throws, sends nothing
    and changes neither the transactions nor the metrics. *)
Theorem finished_transaction_is_unknown (transactionId : string)
    (duration : Z) (dt : DistributedTransaction.t) (cm : ClusterManager.t)
    (log : Log) (tx : DistributedTransactionState) :
  activeTransactions dt !! transactionId = Some tx →
  ∀ o, o = commit transactionId duration dt cm log
       ∨ o = rollback transactionId duration dt cm log →
    ∀ (operation : Operation) (duration' : Z) (cm' : ClusterManager.t)
      (log' : Log),
      let notFound := "Transaction " +:+ transactionId +:+ " not found" in
      execute transactionId operation (dt_after o) cm' log'
      = (Throw notFound, log')
      ∧ commit transactionId duration' (dt_after o) cm' log'
        = mkOutcome (Throw notFound) None (dt_after o) cm' log'
      ∧ rollback transactionId duration' (dt_after o) cm' log'
        = mkOutcome (Throw notFound) None (dt_after o) cm' log'.
Proof.
  intros Hfound o Ho operation duration' cm' log' notFound.
  assert (Hgone : activeTransactions (dt_after o) !! transactionId = None).
  { destruct Ho as [-> | ->].
    - unfold DistributedTransaction.commit. rewrite Hfound.
      unfold releaseConnections.
      destruct (if 1 <? _ then _ else _) as [[u|e] log1]; cbn;
        by rewrite lookup_delete_eq.
    - unfold DistributedTransaction.rollback. rewrite Hfound. cbn.
      by rewrite lookup_delete_eq. }
  unfold DistributedTransaction.execute, DistributedTransaction.commit,
    DistributedTransaction.rollback. by rewrite Hgone.
Qed.

(** The bookkeeping identity of the metrics and what keeps it. *)
Lemma begin_keeps_balance (transactionId : string) (schemas : list string)
    (dt : DistributedTransaction.t) (cm : ClusterManager.t) (log : Log) :
  let m := metrics dt in
  let m' := metrics (dt_after (begin transactionId schemas dt cm log)) in
  (Z.of_nat (total m') - active m' = Z.of_nat (total m) - active m)%Z
  ∧ committed_count m' = committed_count m
  ∧ aborted_count m' = aborted_count m
  ∧ distributed m' - distributed m ≤ total m' - total m
  ∧ total m ≤ total m' ∧ distributed m ≤ distributed m'.
Proof.
  unfold DistributedTransaction.begin.
  destruct (openConnections _ _ cm log) as [[[tx1|e] cm1] log1];
    cbn [dt_after metrics]; [|lia].
  unfold count_started.
  destruct (1 <? length (involvedClusters schemas cm)); cbn; lia.
Qed.

Lemma commit_keeps_balance (transactionId : string) (duration : Z)
    (dt : DistributedTransaction.t) (cm : ClusterManager.t) (log : Log) :
  let m := metrics dt in
  let m' := metrics (dt_after (commit transactionId duration dt cm log)) in
  (active m' + Z.of_nat (committed_count m') + Z.of_nat (aborted_count m')
   = active m + Z.of_nat (committed_count m) + Z.of_nat (aborted_count m))%Z
  ∧ total m' = total m ∧ distributed m' = distributed m.
Proof.
  unfold DistributedTransaction.commit.
  destruct (activeTransactions dt !! transactionId) as [tx|]; [|done].
  unfold releaseConnections.
  destruct (if 1 <? _ then _ else _) as [[u|e] log1]; cbn; lia.
Qed.

Lemma rollback_keeps_balance (transactionId : string) (duration : Z)
    (dt : DistributedTransaction.t) (cm : ClusterManager.t) (log : Log) :
  let m := metrics dt in
  let m' := metrics (dt_after (rollback transactionId duration dt cm log)) in
  (active m' + Z.of_nat (committed_count m') + Z.of_nat (aborted_count m')
   = active m + Z.of_nat (committed_count m) + Z.of_nat (aborted_count m))%Z
  ∧ total m' = total m ∧ distributed m' = distributed m.
Proof.
  unfold DistributedTransaction.rollback.
  destruct (activeTransactions dt !! transactionId) as [tx|]; [|done].
  cbn. lia.
Qed.

(** X17. Over any session of [begin], [commit] and [rollback] calls on a
    fresh transaction manager, whatever the driver answers, the metrics
    balance: [total = active + committed + aborted], and the count of
    multi-cluster transactions does not exceed the total. *)
Theorem metrics_balance (calls : list Call) (cm : ClusterManager.t)
    (log : Log) :
  let m :=
    metrics
      (DistributedTransaction.run weightedDraw metricIndex driver calls
         DistributedTransaction.init cm log []).1.1.1 in
  Z.of_nat (total m)
  = (active m + Z.of_nat (committed_count m) + Z.of_nat (aborted_count m))%Z
  ∧ distributed m ≤ total m.
Proof.
  assert (H : ∀ calls dt cm log terminated,
            let m0 := metrics dt in
            let m :=
              metrics
                (DistributedTransaction.run weightedDraw metricIndex driver
                   calls dt cm log terminated).1.1.1 in
            Z.of_nat (total m0)
            = (active m0 + Z.of_nat (committed_count m0)
               + Z.of_nat (aborted_count m0))%Z →
            distributed m0 ≤ total m0 →
            Z.of_nat (total m)
            = (active m + Z.of_nat (committed_count m)
               + Z.of_nat (aborted_count m))%Z
            ∧ distributed m ≤ total m).
  { clear. intros calls. induction calls as [|call calls IH];
      intros dt cm log terminated; [done|].
    destruct call as [id schemas|id d|id d]; cbn [DistributedTransaction.run];
      intros Hbal Hdist; apply IH.
    - pose proof (begin_keeps_balance id schemas dt cm log). cbv zeta in *.
      lia.
    - pose proof (begin_keeps_balance id schemas dt cm log). cbv zeta in *.
      lia.
    - pose proof (commit_keeps_balance id d dt cm log). cbv zeta in *. lia.
    - pose proof (commit_keeps_balance id d dt cm log). cbv zeta in *. lia.
    - pose proof (rollback_keeps_balance id d dt cm log). cbv zeta in *. lia.
    - pose proof (rollback_keeps_balance id d dt cm log). cbv zeta in *. lia. }
  apply H; simpl; lia.
Qed.

End TransactionsMore.

(** [begin] on scenario S5 with an accepting driver: the transaction over
    users and orders holds one connection on C and one on D. *)
Lemma begin_establishes_transaction_witness :
  ∃ tx,
    DistributedTransaction.final_tx (Scenario.begun Scenario.accepting)
    = Some tx
    ∧ JsMap.keys (DistributedTransaction.tx_connections tx) = ["C"; "D"].
Proof.
  destruct (begin_establishes_transaction Scenario.noDraw
              Scenario.firstIndex Scenario.accepting "tx1"
              ["users"; "orders"] DistributedTransaction.init
              Scenario.manager_CD [] eq_refl)
    as (tx & _ & Hfinal & _ & _ & _ & Hclusters & Hkeys & _).
  exists tx. split; [exact Hfinal|]. rewrite Hkeys, Hclusters.
  vm_compute. reflexivity.
Defined.

(** [begin] on scenario S5 when D rejects [BEGIN]: the connections taken on
    C and on D stay counted. *)
Lemma begin_failure_keeps_connections_witness :
  DistributedTransaction.dt_after
    (Scenario.begun Scenario.begin_rejected_on_D)
  = DistributedTransaction.init
  ∧ ClusterManager.activeConnections
      (ClusterManager.stats
         (DistributedTransaction.cm_after
            (Scenario.begun Scenario.begin_rejected_on_D)))
    = 2%Z.
Proof.
  destruct (begin_failure_keeps_connections Scenario.noDraw
              Scenario.firstIndex Scenario.begin_rejected_on_D "tx1"
              ["users"; "orders"] DistributedTransaction.init
              Scenario.manager_CD [] eq_refl)
    as (Hdt & _ & _).
  split; [exact Hdt|]. vm_compute. reflexivity.
Defined.

(** Commit of tx1 on scenario S5 with an accepting driver. *)
Lemma commit_two_phase_resolves_witness :
  DistributedTransaction.log_after
    (DistributedTransaction.commit Scenario.accepting "tx1" 7
       (DistributedTransaction.dt_after (Scenario.begun Scenario.accepting))
       Scenario.manager_CD [])
  = [(Scenario.connC, Driver.PREPARE_TRANSACTION "tx1");
     (Scenario.connD, Driver.PREPARE_TRANSACTION "tx1");
     (Scenario.connC, Driver.COMMIT_PREPARED "tx1");
     (Scenario.connD, Driver.COMMIT_PREPARED "tx1")].
Proof.
  assert (Hfound :
    DistributedTransaction.activeTransactions
      (DistributedTransaction.dt_after (Scenario.begun Scenario.accepting))
      !! "tx1" = Some Scenario.tx1) by (vm_compute; reflexivity).
  destruct (commit_two_phase_resolves Scenario.accepting "tx1" 7
              _ Scenario.manager_CD [] Scenario.tx1 Hfound
              ltac:(simpl; lia) eq_refl)
    as (_ & _ & _ & Hlog & _).
  exact Hlog.
Defined.

(** Commit of the single-cluster transaction tx2, accepted. *)
Lemma commit_single_cluster_witness :
  DistributedTransaction.returned
    (DistributedTransaction.commit Scenario.accepting "tx2" 7
       (DistributedTransaction.dt_after Scenario.begun_users)
       Scenario.manager_CD [])
  = Ok ()
  ∧ DistributedTransaction.log_after
      (DistributedTransaction.commit Scenario.accepting "tx2" 7
         (DistributedTransaction.dt_after Scenario.begun_users)
         Scenario.manager_CD [])
    = [(Scenario.connC, Driver.COMMIT)].
Proof.
  assert (Hfound :
    DistributedTransaction.activeTransactions
      (DistributedTransaction.dt_after Scenario.begun_users)
      !! "tx2" = Some Scenario.tx2) by (vm_compute; reflexivity).
  destruct (commit_single_cluster Scenario.accepting "tx2" 7
              _ Scenario.manager_CD [] Scenario.tx2 Hfound
              ltac:(simpl; lia))
    as (Hret & Hlog & _).
  split; [exact Hret | exact Hlog].
Defined.

(** Rollback of tx1 when the driver rejects every statement. *)
Lemma rollback_always_resolves_witness :
  DistributedTransaction.returned
    (DistributedTransaction.rollback Scenario.rejecting "tx1" 7
       (DistributedTransaction.dt_after (Scenario.begun Scenario.accepting))
       Scenario.manager_CD [])
  = Ok ()
  ∧ DistributedTransaction.log_after
      (DistributedTransaction.rollback Scenario.rejecting "tx1" 7
         (DistributedTransaction.dt_after
            (Scenario.begun Scenario.accepting))
         Scenario.manager_CD [])
    = [(Scenario.connC, Driver.ROLLBACK); (Scenario.connD, Driver.ROLLBACK)].
Proof.
  assert (Hfound :
    DistributedTransaction.activeTransactions
      (DistributedTransaction.dt_after (Scenario.begun Scenario.accepting))
      !! "tx1" = Some Scenario.tx1) by (vm_compute; reflexivity).
  destruct (rollback_always_resolves Scenario.rejecting "tx1" 7
              _ Scenario.manager_CD [] Scenario.tx1 Hfound)
    as (Hret & _ & _ & Hlog & _).
  split; [exact Hret | exact Hlog].
Defined.

(** A second commit of tx1. *)
Lemma finished_transaction_is_unknown_witness :
  DistributedTransaction.returned
    (DistributedTransaction.commit Scenario.accepting "tx1" 9
       (DistributedTransaction.dt_after
          (DistributedTransaction.commit Scenario.accepting "tx1" 7
             (DistributedTransaction.dt_after
                (Scenario.begun Scenario.accepting))
             Scenario.manager_CD []))
       Scenario.manager_CD [])
  = Throw "Transaction tx1 not found".
Proof.
  assert (Hfound :
    DistributedTransaction.activeTransactions
      (DistributedTransaction.dt_after (Scenario.begun Scenario.accepting))
      !! "tx1" = Some Scenario.tx1) by (vm_compute; reflexivity).
  destruct (finished_transaction_is_unknown Scenario.accepting "tx1" 7
              _ Scenario.manager_CD [] Scenario.tx1 Hfound _
              (or_introl eq_refl) Scenario.insert_order 9
              Scenario.manager_CD [])
    as (_ & Hcommit & _).
  rewrite Hcommit. reflexivity.
Defined.

(** ** DistributedCache: invalidation, cleanup and capacity *)

Section CacheMore.

Import DistributedCache.

Lemma JsMap_delete_fresh {V} (k : string) (m : JsMap.t V) :
  k ∉ JsMap.keys m → JsMap.delete k m = m.
Proof.
  unfold JsMap.keys. induction m as [|[k0 v0] m IH]; simpl; [done|].
  intros Hk. apply not_elem_of_cons in Hk as [Hne Hk].
  apply String.eqb_neq in Hne. rewrite Hne. by rewrite IH.
Qed.

Lemma JsMap_delete_app {V} (k : string) (m1 m2 : JsMap.t V) :
  JsMap.delete k (m1 ++ m2)%list
  = (JsMap.delete k m1 ++ JsMap.delete k m2)%list.
Proof.
  induction m1 as [|[k0 v0] m1 IH]; simpl; [done|].
  destruct (String.eqb k k0); [done|]. by rewrite IH.
Qed.

Lemma JsMap_keys_app {V} (m1 m2 : JsMap.t V) :
  JsMap.keys (m1 ++ m2)%list = (JsMap.keys m1 ++ JsMap.keys m2)%list.
Proof. unfold JsMap.keys. apply map_app. Qed.

(** Deleting the key of an entry of a well-formed map removes that entry
    and nothing else. *)
Lemma JsMap_delete_middle {V} (k : string) (v : V) (m1 m2 : JsMap.t V) :
  JsMap.wf (m1 ++ (k, v) :: m2)%list →
  JsMap.delete k (m1 ++ (k, v) :: m2)%list = (m1 ++ m2)%list.
Proof.
  unfold JsMap.wf. rewrite JsMap_keys_app. cbn [JsMap.keys map fst].
  intros Hnd. apply NoDup_app in Hnd as (_ & Hdisj & Hnd2).
  apply NoDup_cons in Hnd2 as [Hk2 _].
  rewrite JsMap_delete_app. cbn [JsMap.delete]. rewrite String.eqb_refl.
  rewrite !JsMap_delete_fresh; [done|done|].
  intros Hk1. apply (Hdisj k Hk1). left.
Qed.

Lemma wf_snoc_shift {V} (kv : string * V) (m1 m2 : JsMap.t V) :
  JsMap.wf (m1 ++ kv :: m2)%list → JsMap.wf ((m1 ++ [kv]) ++ m2)%list.
Proof. by rewrite <- app_assoc. Qed.

Lemma filter_length_split {A} (f : A → bool) (l : list A) :
  length (List.filter f l) + length (List.filter (λ x, negb (f x)) l)
  = length l.
Proof.
  induction l as [|x l IH]; simpl; [done|].
  destruct (f x); simpl; lia.
Qed.

(** The loop of the invalidation methods, started anywhere in a
    well-formed map. *)
Lemma invalidate_fold (matches : CacheEntry → bool)
    (l kept : JsMap.t CacheEntry) (ev : list Event) (n : nat) :
  JsMap.wf (kept ++ l)%list →
  fold_left (invalidateStep matches) l ((kept ++ l)%list, ev, n)
  = ((kept
      ++ List.filter (λ kv : string * CacheEntry, negb (matches kv.2)) l)%list,
     (ev ++ map (λ kv : string * CacheEntry, eviction kv.1 reason_manual)
              (List.filter (λ kv : string * CacheEntry, matches kv.2) l))%list,
     n + length (List.filter (λ kv : string * CacheEntry, matches kv.2) l)).
Proof.
  revert kept ev n. induction l as [|[k e] l IH]; intros kept ev n Hwf.
  - cbn. by rewrite !app_nil_r, Nat.add_0_r.
  - cbn [fold_left List.filter]. unfold invalidateStep at 2.
    cbn [fst snd]. destruct (matches e) eqn:E; cbn [negb].
    + rewrite JsMap_delete_middle by done.
      rewrite IH.
      * cbn [map length fst]. rewrite <- app_assoc. cbn [app].
        f_equal. lia.
      * unfold JsMap.wf in *. rewrite JsMap_keys_app in *.
        cbn [JsMap.keys map] in Hwf.
        apply NoDup_app in Hwf as (H1 & H2 & H3).
        apply NoDup_cons in H3 as [H3 H4].
        apply NoDup_app. split; [done|]. split; [|done].
        intros x Hx Hx'. apply (H2 x Hx). by right.
    + replace (kept ++ (k, e) :: l)%list
        with ((kept ++ [(k, e)]) ++ l)%list by by rewrite <- app_assoc.
      rewrite IH by by apply wf_snoc_shift.
      by rewrite <- app_assoc.
Qed.

Lemma invalidateLoop_spec (matches : CacheEntry → bool)
    (c : DistributedCache.t) :
  JsMap.wf (cache c) →
  let gone :=
    List.filter (λ kv : string * CacheEntry, matches kv.2) (cache c) in
  (invalidateLoop matches c).1 = length gone
  ∧ cache (invalidateLoop matches c).2
    = List.filter (λ kv : string * CacheEntry, negb (matches kv.2)) (cache c)
  ∧ emitted (invalidateLoop matches c).2
    = (emitted c
       ++ map (λ kv : string * CacheEntry, eviction kv.1 reason_manual)
            gone)%list
  ∧ itemCount (stats (invalidateLoop matches c).2)
    = JsMap.size (cache c) - length gone
  ∧ evictions (stats (invalidateLoop matches c).2) = evictions (stats c).
Proof.
  intros Hwf gone. unfold invalidateLoop.
  pose proof (invalidate_fold matches (cache c) [] (emitted c) 0 Hwf)
    as Hfold.
  cbn [app] in Hfold. rewrite Hfold.
  cbn [fst snd app cache emitted updateStats stats updateHitRate itemCount
       evictions]. fold gone.
  split; [done|]. split; [done|]. split; [done|]. split; [|done].
  unfold JsMap.size.
  pose proof (filter_length_split (λ kv : string * CacheEntry, matches kv.2)
                (cache c)) as Hlen.
  cbn beta in Hlen. unfold gone. lia.
Qed.

(** X19. Each of [invalidateBySchema], [invalidateByCluster] and
    [invalidateByTags] removes exactly the entries that match (a schema or
    cluster equal to the argument, or at least one of the given tags),
    keeps the others in their order, returns the number removed, emits one
    manual eviction event per removed key in insertion order, and brings
    [itemCount] up to date. The [evictions] counter is not touched. *)
Theorem invalidate_removes_matching (s : string) (ts : list string)
    (method : DistributedCache.t → nat * DistributedCache.t)
    (matches : CacheEntry → bool) (c : DistributedCache.t) :
  (method, matches)
  ∈ [(invalidateBySchema s, hasSchema s);
     (invalidateByCluster s, hasCluster s);
     (invalidateByTags ts, hasMatchingTag ts)] →
  JsMap.wf (cache c) →
  let gone :=
    List.filter (λ kv : string * CacheEntry, matches kv.2) (cache c) in
  (method c).1 = length gone
  ∧ cache (method c).2
    = List.filter (λ kv : string * CacheEntry, negb (matches kv.2)) (cache c)
  ∧ emitted (method c).2
    = (emitted c
       ++ map (λ kv : string * CacheEntry, eviction kv.1 reason_manual)
            gone)%list
  ∧ itemCount (stats (method c).2) = JsMap.size (cache c) - length gone
  ∧ evictions (stats (method c).2) = evictions (stats c).
Proof.
  intros Hin Hwf.
  assert (Hm : method = invalidateLoop matches).
  { repeat (apply elem_of_cons in Hin as [Hin|Hin];
            [by inversion Hin|]).
    by apply elem_of_nil in Hin. }
  subst method. by apply invalidateLoop_spec.
Qed.

(** What the match of [invalidateByTags] means. *)
Lemma hasMatchingTag_spec (ts : list string) (entry : CacheEntry) :
  hasMatchingTag ts entry = true ↔ ∃ tag, tag ∈ ts ∧ tag ∈ tags entry.
Proof.
  unfold hasMatchingTag. rewrite existsb_exists. split.
  - intros (tag & Hin & Hex). apply existsb_exists in Hex as (t' & Hin' & E).
    apply String.eqb_eq in E. subst t'. exists tag.
    split; by apply list_elem_of_In.
  - intros (tag & Hin & Hin'). exists tag.
    split; [by apply list_elem_of_In|]. apply existsb_exists. exists tag.
    split; [by apply list_elem_of_In|]. apply String.eqb_refl.
Qed.

(** The deletions of [cleanup], started anywhere in a well-formed map. *)
Lemma cleanup_fold (now : Z) (l kept : JsMap.t CacheEntry)
    (cfg : CacheConfig) (st : CacheStats) (ev : list Event) :
  JsMap.wf (kept ++ l)%list →
  fold_left
    (λ (c' : DistributedCache.t) (key : string),
       {| config := config c'; cache := JsMap.delete key (cache c');
          stats := stats c';
          emitted := (emitted c' ++ [eviction key reason_ttl])%list |})
    (expiredKeys now l)
    {| config := cfg; cache := (kept ++ l)%list; stats := st;
       emitted := ev |}
  = {| config := cfg;
       cache :=
         (kept ++ List.filter (λ kv : string * CacheEntry,
                                 negb (ttl kv.2 <? now)%Z) l)%list;
       stats := st;
       emitted :=
         (ev ++ map (λ key, eviction key reason_ttl) (expiredKeys now l))%list
    |}.
Proof.
  revert kept ev. induction l as [|[k e] l IH]; intros kept ev Hwf.
  - cbn. by rewrite !app_nil_r.
  - unfold expiredKeys in *. cbn [List.filter snd].
    destruct (ttl e <? now)%Z eqn:E; cbn [negb JsMap.keys map fst fold_left].
    + cbn [config cache stats emitted].
      rewrite JsMap_delete_middle by done.
      fold (JsMap.keys (List.filter (λ kv : string * CacheEntry,
                                       (ttl kv.2 <? now)%Z) l)).
      rewrite IH.
      * by rewrite <- app_assoc.
      * unfold JsMap.wf in *. rewrite JsMap_keys_app in *.
        cbn [JsMap.keys map] in Hwf.
        apply NoDup_app in Hwf as (H1 & H2 & H3).
        apply NoDup_cons in H3 as [H3 H4].
        apply NoDup_app. split; [done|]. split; [|done].
        intros x Hx Hx'. apply (H2 x Hx). by right.
    + replace (kept ++ (k, e) :: l)%list
        with ((kept ++ [(k, e)]) ++ l)%list by by rewrite <- app_assoc.
      fold (JsMap.keys (List.filter (λ kv : string * CacheEntry,
                                       (ttl kv.2 <? now)%Z) l)).
      rewrite IH by by apply wf_snoc_shift.
      by rewrite <- app_assoc.
Qed.

(** X20. [cleanup] removes exactly the entries whose expiry lies before
    its clock reading, so that every entry left is unexpired. Each removed
    key is reported as a ttl eviction, in insertion order, and [evictions]
    grows by their number. When nothing has expired the cache, its
    statistics and its events are untouched. *)
Theorem cleanup_removes_expired (now : Z) (c : DistributedCache.t) :
  JsMap.wf (cache c) →
  let c' := cleanup now c in
  let gone := expiredKeys now (cache c) in
  cache c'
  = List.filter (λ kv : string * CacheEntry, negb (ttl kv.2 <? now)%Z)
      (cache c)
  ∧ (∀ key entry, (key, entry) ∈ cache c' → isExpired now entry = false)
  ∧ emitted c'
    = (emitted c ++ map (λ key, eviction key reason_ttl) gone)%list
  ∧ evictions (stats c') = evictions (stats c) + length gone
  ∧ JsMap.size (cache c') + length gone = JsMap.size (cache c)
  ∧ (gone = [] → c' = c).
Proof.
  intros Hwf c' gone.
  pose proof (cleanup_fold now (cache c) [] (config c) (stats c) (emitted c)
                Hwf) as Hfold.
  cbn [app] in Hfold. fold gone in Hfold.
  assert (Hc : c = {| config := config c; cache := cache c;
                      stats := stats c; emitted := emitted c |})
    by by destruct c.
  rewrite <- Hc in Hfold.
  assert (Hcache :
    cache c'
    = List.filter (λ kv : string * CacheEntry, negb (ttl kv.2 <? now)%Z)
        (cache c)).
  { unfold c', cleanup. fold gone. rewrite Hfold.
    by destruct (0 <? length gone). }
  split; [done|]. split.
  { intros key entry Hin. rewrite Hcache in Hin.
    apply list_elem_of_In, filter_In in Hin as [_ Hlive].
    unfold isExpired. cbn [snd] in Hlive. by apply negb_true_iff. }
  split.
  { unfold c', cleanup. fold gone. rewrite Hfold.
    by destruct (0 <? length gone). }
  split.
  { unfold c', cleanup. fold gone. rewrite Hfold.
    destruct (0 <? length gone) eqn:E; cbn; [done|].
    apply Nat.ltb_ge in E. lia. }
  split.
  { rewrite Hcache. unfold JsMap.size, gone, expiredKeys, JsMap.keys.
    rewrite length_map.
    pose proof (filter_length_split
                  (λ kv : string * CacheEntry, (ttl kv.2 <? now)%Z)
                  (cache c)) as Hlen.
    cbn beta in Hlen. lia. }
  intros Hnone. unfold c', cleanup. fold gone. rewrite Hfold, Hnone.
  cbn [length Nat.ltb Nat.leb map]. rewrite app_nil_r.
  rewrite Hc at 5. f_equal.
  unfold gone, expiredKeys, JsMap.keys in Hnone.
  apply map_eq_nil in Hnone.
  clear -Hnone. induction (cache c) as [|kv l IH]; [done|].
  cbn [List.filter] in *. destruct (ttl kv.2 <? now)%Z; [done|].
  cbn [negb]. f_equal. by apply IH.
Qed.

(** X21. [get] never touches [itemCount], [totalSize] or [evictions]. When
    it finds an expired entry it removes it and emits a ttl eviction, so
    the cache holds one entry less than [itemCount] was counting and the
    eviction is not counted. *)
Theorem get_expired_not_counted (key : string) (now now' : Z)
    (c : DistributedCache.t) (entry : CacheEntry) :
  JsMap.wf (cache c) →
  JsMap.get key (cache c) = Some entry →
  isExpired now entry = true →
  let c' := (get key now now' c).2 in
  S (JsMap.size (cache c')) = JsMap.size (cache c)
  ∧ itemCount (stats c') = itemCount (stats c)
  ∧ totalSize (stats c') = totalSize (stats c)
  ∧ evictions (stats c') = evictions (stats c)
  ∧ eviction key reason_ttl ∈ emitted c'.
Proof.
  intros Hwf Hget Hexp c'. unfold c', get. rewrite Hget, Hexp.
  cbn [snd cache stats emitted updateHitRate count_miss itemCount totalSize
       evictions].
  split; [|split; [done|split; [done|split; [done|]]]].
  - apply JsMap_get_Some_elem in Hget.
    apply list_elem_of_In, in_split in Hget as (m1 & m2 & Hm).
    rewrite Hm in Hwf |- *. rewrite JsMap_delete_middle by done.
    unfold JsMap.size. rewrite !length_app. cbn [length]. lia.
  - apply elem_of_app. right. apply elem_of_cons. right.
    apply list_elem_of_singleton. done.
Qed.

(** X22. Round trip: a value stored by [set] is what [get] returns for the
    key until the entry's expiry, the time of the write plus the effective
    ttl, has passed, whatever the compression settings; after that [get]
    returns nothing. *)
Theorem set_then_get (key v : string) (options : SetOptions)
    (now now1 now2 : Z) (c : DistributedCache.t) :
  (get key now1 now2 (set key v options now c).2).1
  = if (now + effectiveTtl options (config c) <? now1)%Z then None
    else Some v.
Proof.
  unfold get, set. cbn [snd cache updateStats].
  rewrite JsMap_get_set_eq. unfold isExpired. cbn [ttl value].
  unfold compress.
  destruct (_ <? now1)%Z; [done|]. cbn [fst].
  by destruct (enableCompression (config c) && _).
Qed.

Lemma JsMap_keys_delete {V} (k k' : string) (m : JsMap.t V) :
  k' ∈ JsMap.keys (JsMap.delete k m) ↔ k' ≠ k ∧ k' ∈ JsMap.keys m.
Proof.
  unfold JsMap.keys. induction m as [|[k0 v0] m IH]; simpl.
  - split; [intros H|intros [_ H]]; by apply elem_of_nil in H.
  - destruct (String.eqb k k0) eqn:E.
    + apply String.eqb_eq in E. subst k0. rewrite IH, elem_of_cons.
      intuition congruence.
    + apply String.eqb_neq in E. simpl. rewrite !elem_of_cons, IH.
      intuition congruence.
Qed.

Lemma JsMap_wf_delete {V} (k : string) (m : JsMap.t V) :
  JsMap.wf m → JsMap.wf (JsMap.delete k m).
Proof.
  unfold JsMap.wf. induction m as [|[k0 v0] m IH]; simpl; [done|].
  intros Hnd. apply NoDup_cons in Hnd as [Hk0 Hnd].
  destruct (String.eqb k k0); [by apply IH|].
  cbn [JsMap.keys map fst]. apply NoDup_cons. split; [|by apply IH].
  intros Hin. apply JsMap_keys_delete in Hin as [_ Hin]. done.
Qed.

Lemma JsMap_keys_set {V} (k k' : string) (v : V) (m : JsMap.t V) :
  k' ∈ JsMap.keys (JsMap.set k v m) ↔ k' = k ∨ k' ∈ JsMap.keys m.
Proof.
  unfold JsMap.keys. induction m as [|[k0 v0] m IH]; simpl.
  - rewrite list_elem_of_singleton. split; [by left|].
    intros [H|H]; [done|by apply elem_of_nil in H].
  - destruct (String.eqb k k0) eqn:E.
    + apply String.eqb_eq in E. subst k0. simpl. rewrite !elem_of_cons.
      intuition congruence.
    + simpl. rewrite !elem_of_cons, IH. intuition congruence.
Qed.

Lemma JsMap_wf_set {V} (k : string) (v : V) (m : JsMap.t V) :
  JsMap.wf m → JsMap.wf (JsMap.set k v m).
Proof.
  unfold JsMap.wf. induction m as [|[k0 v0] m IH]; simpl.
  - intros _. apply NoDup_singleton.
  - intros Hnd. apply NoDup_cons in Hnd as [Hk0 Hnd].
    destruct (String.eqb k k0) eqn:E.
    + apply String.eqb_eq in E. subst k0. cbn [JsMap.keys map fst].
      by apply NoDup_cons.
    + apply String.eqb_neq in E. cbn [JsMap.keys map fst].
      apply NoDup_cons. split; [|by apply IH].
      intros Hin. apply JsMap_keys_set in Hin as [Hin|Hin]; [by subst|done].
Qed.

Lemma JsMap_size_delete {V} (k : string) (m : JsMap.t V) :
  JsMap.wf m → k ∈ JsMap.keys m →
  S (JsMap.size (JsMap.delete k m)) = JsMap.size m.
Proof.
  intros Hwf Hk. unfold JsMap.keys in Hk.
  apply list_elem_of_In, in_map_iff in Hk as ([k0 v] & Hfst & Hin).
  cbn in Hfst. subst k0. apply in_split in Hin as (m1 & m2 & Hm).
  rewrite Hm in Hwf |- *. rewrite JsMap_delete_middle by done.
  unfold JsMap.size. rewrite !length_app. cbn [length]. lia.
Qed.

Lemma JsMap_size_set {V} (k : string) (v : V) (m : JsMap.t V) :
  JsMap.size (JsMap.set k v m)
  = if bool_decide (k ∈ JsMap.keys m) then JsMap.size m
    else S (JsMap.size m).
Proof.
  case_bool_decide as Hk.
  - unfold JsMap.size, JsMap.keys in *.
    induction m as [|[k0 v0] m IH]; [by apply elem_of_nil in Hk|].
    simpl in *. destruct (String.eqb k k0) eqn:E; [done|].
    apply String.eqb_neq in E. simpl. f_equal. apply IH.
    apply elem_of_cons in Hk as [Hk|Hk]; done.
  - rewrite JsMap_set_fresh by done. unfold JsMap.size.
    rewrite length_app. cbn. lia.
Qed.

(** The scan of [evictLRU] on a non-empty map ends on one of its keys. *)
Lemma scanLRU_picks (m : JsMap.t CacheEntry) :
  m ≠ [] → ∃ k, (scanLRU m).1 = Some k ∧ k ∈ JsMap.keys m.
Proof.
  assert (H : ∀ (l : JsMap.t CacheEntry) (acc : option string * option Z),
            let r :=
              fold_left
                (λ (acc : option string * option Z)
                   (kv : string * CacheEntry),
                   let older :=
                     match acc.2 with
                     | None => true
                     | Some oldestAccess =>
                         (lastAccessed kv.2 <? oldestAccess)%Z
                     end in
                   if older then (Some kv.1, Some (lastAccessed kv.2))
                   else acc) l acc in
            r = acc
            ∨ ∃ kv, kv ∈ l ∧ r = (Some kv.1, Some (lastAccessed kv.2))).
  { induction l as [|kv l IH]; intros acc; [by left|].
    cbn [fold_left]. cbv zeta.
    match goal with |- context [fold_left ?f l ?a] =>
      destruct (IH a) as [Heq | (kv' & Hin & Heq)] end.
    - cbv zeta in Heq. rewrite Heq.
      destruct acc as [a1 [a2|]]; cbn [snd];
        [destruct (lastAccessed kv.2 <? a2)%Z; [|by left]|];
        right; exists kv; (split; [left|done]).
    - right. exists kv'. split; [by right|exact Heq]. }
  intros Hne. destruct m as [|kv m]; [done|].
  unfold scanLRU. cbn [fold_left snd].
  destruct (H m (Some kv.1, Some (lastAccessed kv.2)))
    as [Heq | (kv' & Hin & Heq)]; cbv zeta in Heq; rewrite Heq; cbn [fst].
  - exists kv.1. split; [done|]. unfold JsMap.keys. cbn. left.
  - exists kv'.1. split; [done|]. unfold JsMap.keys. cbn. right.
    apply list_elem_of_In, in_map, list_elem_of_In, Hin.
Qed.

(** X23. The capacity is respected as long as the empty string is not used
    as a key: on a well-formed cache of at most [maxSize] entries (with
    [maxSize] positive) none of whose keys is empty, a [set] with a
    non-empty key leaves a well-formed cache of at most [maxSize] entries,
    none of whose keys is empty, and [itemCount] is its number of
    entries. *)
Theorem set_keeps_capacity (key v : string) (options : SetOptions)
    (now : Z) (c : DistributedCache.t) :
  JsMap.wf (cache c) →
  "" ∉ JsMap.keys (cache c) → key ≠ "" →
  0 < maxSize (config c) →
  JsMap.size (cache c) ≤ maxSize (config c) →
  let c' := (set key v options now c).2 in
  config c' = config c
  ∧ JsMap.wf (cache c')
  ∧ ("" ∉ JsMap.keys (cache c'))
  ∧ JsMap.size (cache c') ≤ maxSize (config c')
  ∧ itemCount (stats c') = JsMap.size (cache c').
Proof.
  intros Hwf Hempty Hkey Hpos Hsize c'. unfold c', set.
  cbn [snd updateStats config cache stats updateHitRate itemCount].
  destruct (maxSize (config c) <=? JsMap.size (cache c)) eqn:Hfull.
  - apply Nat.leb_le in Hfull.
    destruct (scanLRU_picks (cache c)) as (k & Hscan & Hk).
    { intros Hnil. rewrite Hnil in Hfull. cbn in Hfull. lia. }
    assert (Hkne : String.eqb k "" = false).
    { apply String.eqb_neq. intros ->. done. }
    unfold evictLRU, truthy_val, truthy. rewrite Hscan, Hkne.
    cbn [negb config cache].
    pose proof (JsMap_size_delete k (cache c) Hwf Hk) as Hdel.
    match goal with |- context [JsMap.set key ?e ?m] =>
      pose proof (JsMap_size_set key e m) as Hset end.
    split; [done|]. split; [by apply JsMap_wf_set, JsMap_wf_delete|].
    split.
    + intros Hin. apply JsMap_keys_set in Hin as [Hin|Hin]; [done|].
      apply JsMap_keys_delete in Hin as [_ Hin]. done.
    + split; [|done]. rewrite Hset. case_bool_decide; lia.
  - apply Nat.leb_gt in Hfull.
    match goal with |- context [JsMap.set key ?e ?m] =>
      pose proof (JsMap_size_set key e m) as Hset end.
    split; [done|]. split; [by apply JsMap_wf_set|].
    split.
    + intros Hin. apply JsMap_keys_set in Hin as [Hin|Hin]; done.
    + split; [|done]. rewrite Hset. case_bool_decide; lia.
Qed.

(** X24. [set] decides on eviction before looking whether the key is
    already stored: overwriting an entry of a full cache still evicts the
    least recently used entry, counted and reported. When that is another
    entry, the cache ends one entry short. When it is the overwritten
    entry itself, the entry is evicted and stored anew at the end of the
    insertion order, and the size is unchanged. *)
Theorem set_overwrite_at_capacity_evicts (key v : string)
    (options : SetOptions) (now : Z) (c : DistributedCache.t)
    (old : CacheEntry) (victim : string) :
  JsMap.wf (cache c) →
  maxSize (config c) ≤ JsMap.size (cache c) →
  JsMap.get key (cache c) = Some old →
  (scanLRU (cache c)).1 = Some victim →
  victim ≠ "" →
  let c' := (set key v options now c).2 in
  evictions (stats c') = evictions (stats c) + 1
  ∧ emitted c' = (emitted c ++ [eviction victim reason_size])%list
  ∧ (key ∈ JsMap.keys (cache c'))
  ∧ (victim ≠ key →
     S (JsMap.size (cache c')) = JsMap.size (cache c)
     ∧ victim ∉ JsMap.keys (cache c'))
  ∧ (victim = key →
     JsMap.size (cache c') = JsMap.size (cache c)
     ∧ JsMap.keys (cache c')
       = (JsMap.keys (JsMap.delete key (cache c)) ++ [key])%list).
Proof.
  intros Hwf Hfull Hold Hscan Hne c'. unfold c', set.
  apply Nat.leb_le in Hfull. rewrite Hfull.
  assert (Hb : String.eqb victim "" = false) by by apply String.eqb_neq.
  unfold evictLRU, truthy_val, truthy. rewrite Hscan, Hb.
  cbn [negb snd updateStats config cache stats emitted updateHitRate
       evictions count_eviction].
  assert (Hvictim : victim ∈ JsMap.keys (cache c)).
  { destruct (scanLRU_picks (cache c)) as (k & Hk & Hin).
    - intros Hnil. by rewrite Hnil in Hold.
    - rewrite Hscan in Hk. by inversion Hk. }
  split; [done|]. split; [done|].
  split; [apply JsMap_keys_set; by left|].
  split.
  - intros Hkey.
    assert (Hpresent : key ∈ JsMap.keys (JsMap.delete victim (cache c))).
    { apply JsMap_keys_delete. split; [done|].
      by apply JsMap_get_Some_key in Hold. }
    split.
    + rewrite JsMap_size_set. rewrite bool_decide_eq_true_2 by done.
      by apply JsMap_size_delete.
    + intros Hin. apply JsMap_keys_set in Hin as [Hin|Hin]; [done|].
      apply JsMap_keys_delete in Hin as [Hin _]. done.
  - intros ->.
    assert (Hfresh : key ∉ JsMap.keys (JsMap.delete key (cache c))).
    { intros Hin. apply JsMap_keys_delete in Hin as [Hin _]. done. }
    split.
    + rewrite JsMap_size_set. rewrite bool_decide_eq_false_2 by done.
      by apply JsMap_size_delete.
    + rewrite JsMap_set_fresh by done. rewrite JsMap_keys_app. done.
Qed.

(** X25. [evictLRU] tests its victim by truthiness: when the least
    recently used entry is stored under the empty string nothing is
    evicted, and a [set] of a new key lets a full cache grow beyond
    [maxSize]. *)
Theorem set_empty_key_blocks_eviction (key v : string)
    (options : SetOptions) (now : Z) (c : DistributedCache.t) :
  maxSize (config c) ≤ JsMap.size (cache c) →
  (scanLRU (cache c)).1 = Some "" →
  key ∉ JsMap.keys (cache c) →
  let c' := (set key v options now c).2 in
  JsMap.size (cache c') = S (JsMap.size (cache c))
  ∧ maxSize (config c') < JsMap.size (cache c')
  ∧ evictions (stats c') = evictions (stats c)
  ∧ emitted c' = emitted c.
Proof.
  intros Hfull Hscan Hkey c'. unfold c', set.
  pose proof Hfull as Hfull'.
  apply Nat.leb_le in Hfull. rewrite Hfull.
  unfold evictLRU, truthy_val, truthy. rewrite Hscan.
  cbn [String.eqb negb snd updateStats config cache stats emitted
       updateHitRate evictions].
  rewrite JsMap_size_set, bool_decide_eq_false_2 by done.
  split; [done|]. split; [lia|done].
Qed.

End CacheMore.

(** Invalidation of schema users on the labelled cache: u1 and u2 go. *)
Lemma invalidate_removes_matching_witness :
  (DistributedCache.invalidateBySchema "users" Scenario.labelled_cache).1 = 2
  ∧ JsMap.keys
      (DistributedCache.cache
         (DistributedCache.invalidateBySchema "users"
            Scenario.labelled_cache).2)
    = ["o1"].
Proof.
  assert (Hwf : JsMap.wf (DistributedCache.cache Scenario.labelled_cache)).
  { unfold JsMap.wf. apply (bool_decide_unpack _). vm_compute. exact I. }
  destruct (invalidate_removes_matching "users" []
              (DistributedCache.invalidateBySchema "users")
              (DistributedCache.hasSchema "users") Scenario.labelled_cache
              ltac:(left) Hwf)
    as (Hcount & Hcache & _).
  split.
  - rewrite Hcount. vm_compute. reflexivity.
  - rewrite Hcache. vm_compute. reflexivity.
Defined.

(** [cleanup] at time 300002 on the cache holding a (expiry 300001) and b
    (expiry 300003). *)
Lemma cleanup_removes_expired_witness :
  JsMap.keys
    (DistributedCache.cache
       (DistributedCache.cleanup 300002 Scenario.lfu_cache_full))
  = ["b"].
Proof.
  assert (Hwf : JsMap.wf (DistributedCache.cache Scenario.lfu_cache_full)).
  { unfold JsMap.wf. apply (bool_decide_unpack _). vm_compute. exact I. }
  destruct (cleanup_removes_expired 300002 Scenario.lfu_cache_full Hwf)
    as (Hcache & _).
  rewrite Hcache. vm_compute. reflexivity.
Defined.

(** A read of a at time 300002, after its expiry. *)
Lemma get_expired_not_counted_witness :
  JsMap.size
    (DistributedCache.cache
       (DistributedCache.get "a" 300002 300002 Scenario.lfu_cache_full).2)
  = 1
  ∧ DistributedCache.itemCount
      (DistributedCache.stats
         (DistributedCache.get "a" 300002 300002
            Scenario.lfu_cache_full).2)
    = 2.
Proof.
  assert (Hwf : JsMap.wf (DistributedCache.cache Scenario.lfu_cache_full)).
  { unfold JsMap.wf. apply (bool_decide_unpack _). vm_compute. exact I. }
  destruct (get_expired_not_counted "a" 300002 300002
              Scenario.lfu_cache_full
              {| DistributedCache.value := "1";
                 DistributedCache.ttl := 300001;
                 DistributedCache.createdAt := 1;
                 DistributedCache.accessCount := 1;
                 DistributedCache.lastAccessed := 2;
                 DistributedCache.size := 2;
                 DistributedCache.tags := [];
                 DistributedCache.schema := None;
                 DistributedCache.cluster := None |}
              Hwf eq_refl eq_refl)
    as (Hsize & Hcount & _).
  split.
  - apply Nat.succ_inj. etransitivity; [exact Hsize|].
    vm_compute. reflexivity.
  - rewrite Hcount. vm_compute. reflexivity.
Defined.

(** A third key written to the full cache of capacity two. *)
Lemma set_keeps_capacity_witness :
  JsMap.size
    (DistributedCache.cache
       (DistributedCache.set "c" "3" Scenario.plain 4
          Scenario.lfu_cache_full).2)
  ≤ 2.
Proof.
  assert (Hwf : JsMap.wf (DistributedCache.cache Scenario.lfu_cache_full)).
  { unfold JsMap.wf. apply (bool_decide_unpack _). vm_compute. exact I. }
  assert (Hempty :
    "" ∉ JsMap.keys (DistributedCache.cache Scenario.lfu_cache_full)).
  { apply (bool_decide_unpack _). vm_compute. exact I. }
  destruct (set_keeps_capacity "c" "3" Scenario.plain 4
              Scenario.lfu_cache_full Hwf Hempty
              ltac:(discriminate) ltac:(simpl; lia) ltac:(simpl; lia))
    as (Hcfg & _ & _ & Hsize & _).
  rewrite Hcfg in Hsize. exact Hsize.
Defined.

(** Key b rewritten in the full cache of capacity two: a is evicted. *)
Lemma set_overwrite_at_capacity_evicts_witness :
  JsMap.size
    (DistributedCache.cache
       (DistributedCache.set "b" "4" Scenario.plain 4
          Scenario.lfu_cache_full).2)
  = 1
  ∧ "a" ∉ JsMap.keys
            (DistributedCache.cache
               (DistributedCache.set "b" "4" Scenario.plain 4
                  Scenario.lfu_cache_full).2).
Proof.
  assert (Hwf : JsMap.wf (DistributedCache.cache Scenario.lfu_cache_full)).
  { unfold JsMap.wf. apply (bool_decide_unpack _). vm_compute. exact I. }
  destruct (set_overwrite_at_capacity_evicts "b" "4" Scenario.plain 4
              Scenario.lfu_cache_full
              {| DistributedCache.value := "2";
                 DistributedCache.ttl := 300003;
                 DistributedCache.createdAt := 3;
                 DistributedCache.accessCount := 0;
                 DistributedCache.lastAccessed := 3;
                 DistributedCache.size := 2;
                 DistributedCache.tags := [];
                 DistributedCache.schema := None;
                 DistributedCache.cluster := None |}
              "a" Hwf ltac:(simpl; lia) eq_refl eq_refl
              ltac:(discriminate))
    as (_ & _ & _ & Hother & _).
  destruct (Hother ltac:(discriminate)) as (Hsize & Hgone).
  split; [|exact Hgone].
  apply Nat.succ_inj. etransitivity; [exact Hsize|].
  vm_compute. reflexivity.
Defined.

(** A second key written to the cache of capacity one that holds the empty
    key. *)
Lemma set_empty_key_blocks_eviction_witness :
  JsMap.size
    (DistributedCache.cache
       (DistributedCache.set "k" "w" Scenario.plain 2
          Scenario.empty_key_cache).2)
  = 2.
Proof.
  assert (Hfresh :
    "k" ∉ JsMap.keys (DistributedCache.cache Scenario.empty_key_cache)).
  { apply (bool_decide_unpack _). vm_compute. exact I. }
  destruct (set_empty_key_blocks_eviction "k" "w" Scenario.plain 2
              Scenario.empty_key_cache ltac:(simpl; lia) eq_refl Hfresh)
    as (Hsize & _).
  rewrite Hsize. vm_compute. reflexivity.
Defined.

(** ** MigrationManager: what a rollback counts, reports and deletes *)

Section MigrationMore.

Import MigrationManager.

Variable localeCompare : string → string → comparison.
Variable versionOrder : string → string → comparison.
Variable selectFails : string → string → bool.
Variable lockFails : string → bool.
Variable deleteFails : MigrationRecord → bool.

Local Abbreviation _rollbackMigration :=
  (MigrationManager._rollbackMigration lockFails deleteFails).
Local Abbreviation rollbackLoop :=
  (MigrationManager.rollbackLoop lockFails deleteFails).
Local Abbreviation rollback :=
  (MigrationManager.rollback localeCompare versionOrder selectFails lockFails
     deleteFails).
Local Abbreviation _getMigrationsToRollback :=
  (MigrationManager._getMigrationsToRollback localeCompare versionOrder
     selectFails).

(** One record: the loaded migrations are never changed, rows are only
    removed, and only rows of the record itself. *)
Lemma _rollbackMigration_frame (record : MigrationRecord) (force : bool)
    (st : MigrationManager.t) :
  let st' := (_rollbackMigration record force st).2 in
  migrations st' = migrations st
  ∧ isInitialized st' = isInitialized st
  ∧ (∀ row, row ∈ table st' → row ∈ table st)
  ∧ (∀ row, row ∈ table st → same_row row record = false →
       row ∈ table st').
Proof.
  unfold MigrationManager._rollbackMigration.
  destruct (migrations st !! rec_version record) as [m|].
  - destruct (lockFails _); [done|].
    destruct (down_throws m); [done|].
    destruct (deleteFails record); [done|].
    cbn [snd delete_row add_event migrations isInitialized table].
    split; [done|]. split; [done|]. split.
    + intros row Hrow. by apply list_elem_of_filter in Hrow as [_ Hrow].
    + intros row Hrow Hne. by apply list_elem_of_filter.
  - by destruct (negb force).
Qed.

Lemma rollbackLoop_frame (records : list MigrationRecord) (force : bool) :
  ∀ (rolledBack errors : nat) (st : MigrationManager.t),
    let r := rollbackLoop records force rolledBack errors st in
    migrations r.2 = migrations st
    ∧ isInitialized r.2 = isInitialized st
    ∧ (∀ row, row ∈ table r.2 → row ∈ table st)
    ∧ (∀ row, row ∈ table st →
         (∀ record, record ∈ records → same_row row record = false) →
         row ∈ table r.2)
    ∧ rolledBack ≤ r.1.1 ∧ errors ≤ r.1.2
    ∧ r.1.1 + r.1.2 ≤ rolledBack + errors + length records
    ∧ (force = true →
       r.1.1 + r.1.2 = rolledBack + errors + length records)
    ∧ (force = false → r.1.2 ≤ errors + 1).
Proof.
  induction records as [|record records IH]; intros rolledBack errors st.
  - cbn. repeat split; try done; lia.
  - cbn [MigrationManager.rollbackLoop length].
    pose proof (_rollbackMigration_frame record force st) as Hone.
    destruct (_rollbackMigration record force st) as [[u|e] st1];
      cbn [snd] in Hone; destruct Hone as (Hm & Hi & Hsub & Hkeep).
    + specialize (IH (rolledBack + 1) errors st1). cbv zeta in IH.
      destruct IH as (IHm & IHi & IHsub & IHkeep & IH1 & IH2 & IH3 & IH4
                      & IH5).
      split; [congruence|]. split; [congruence|].
      split; [intros row Hrow; by apply Hsub, IHsub|].
      split.
      { intros row Hrow Hne. apply IHkeep.
        - apply Hkeep; [done|]. apply Hne. left.
        - intros r' Hr'. apply Hne. by right. }
      split; [lia|]. split; [lia|]. split; [lia|].
      split; intros Hf; [specialize (IH4 Hf)|specialize (IH5 Hf)]; lia.
    + destruct force; cbn [negb].
      * specialize (IH rolledBack (errors + 1) st1). cbv zeta in IH.
        destruct IH as (IHm & IHi & IHsub & IHkeep & IH1 & IH2 & IH3 & IH4
                        & IH5).
        split; [congruence|]. split; [congruence|].
        split; [intros row Hrow; by apply Hsub, IHsub|].
        split.
        { intros row Hrow Hne. apply IHkeep.
          - apply Hkeep; [done|]. apply Hne. left.
          - intros r' Hr'. apply Hne. by right. }
        split; [lia|]. split; [lia|]. split; [lia|].
        split; [intros _; specialize (IH4 eq_refl); lia|done].
      * cbn [fst snd]. split; [done|]. split; [done|]. split; [done|].
        split.
        { intros row Hrow Hne. apply Hkeep; [done|]. apply Hne. left. }
        split; [lia|]. split; [lia|]. split; [lia|].
        split; [done|lia].
Qed.

Lemma _getMigrationsToRollback_mapped (schemas clusters : list string)
    (targetVersion : option string) (steps : Z) (st : MigrationManager.t) :
  (∀ schema, schema ∈ schemas →
     is_ok (_getClusterForSchema schema st) = true) →
  ∃ selected,
    _getMigrationsToRollback schemas clusters targetVersion steps st
    = Ok selected.
Proof.
  induction schemas as [|schema schemas IH]; intros Hmapped.
  - by exists [].
  - cbn [MigrationManager._getMigrationsToRollback].
    pose proof (Hmapped schema ltac:(left)) as Hc.
    destruct (_getClusterForSchema schema st) as [c|e]; [|done].
    destruct IH as (more & Hmore).
    { intros s Hs. apply Hmapped. by right. }
    rewrite Hmore. by eexists.
Qed.

(** X26. Once the target schemas are mapped to clusters, [rollback]
    resolves whatever happens to the individual migrations: rejected
    locks, [down] functions and DELETEs are counted, not reported. Without
    [force] at most one error is counted; with [force] every selected
    record is counted, as rolled back or as an error. The loaded
    migrations are unchanged, no row is added to the table, the rows of
    records that were not selected stay, and a dry run leaves the state as
    it was. *)
Theorem rollback_failures_not_reported (options : MigrationRollbackOptions)
    (st : MigrationManager.t) :
  isInitialized st = true →
  (∀ schema, schema ∈ _getTargetSchemas (opt_targetSchemas options) st →
     is_ok (_getClusterForSchema schema st) = true) →
  ∃ (selected : list MigrationRecord) (rolledBack errors : nat),
    _getMigrationsToRollback
      (_getTargetSchemas (opt_targetSchemas options) st)
      (_getTargetClusters (opt_targetClusters options) st)
      (opt_targetVersion options) (default 1%Z (opt_steps options)) st
    = Ok selected
    ∧ (rollback options st).1 = Ok (rolledBack, errors)
    ∧ rolledBack + errors ≤ length selected
    ∧ (default false (opt_force options) = false → errors ≤ 1)
    ∧ (default false (opt_force options) = true →
       default false (opt_dryRun options) = false →
       rolledBack + errors = length selected)
    ∧ migrations (rollback options st).2 = migrations st
    ∧ (∀ row, row ∈ table (rollback options st).2 → row ∈ table st)
    ∧ (∀ row, row ∈ table st →
         (∀ record, record ∈ selected → same_row row record = false) →
         row ∈ table (rollback options st).2)
    ∧ (default false (opt_dryRun options) = true →
       rolledBack = 0 ∧ (rollback options st).2 = st).
Proof.
  intros Hinit Hmapped.
  destruct (_getMigrationsToRollback_mapped
              (_getTargetSchemas (opt_targetSchemas options) st)
              (_getTargetClusters (opt_targetClusters options) st)
              (opt_targetVersion options) (default 1%Z (opt_steps options))
              st Hmapped) as (selected & Hsel).
  exists selected. unfold MigrationManager.rollback.
  rewrite Hinit. cbn [negb]. rewrite Hsel.
  destruct (default false (opt_dryRun options)).
  - exists 0, 0. cbn. repeat split; try done; lia.
  - pose proof (rollbackLoop_frame (reverse selected)
                  (default false (opt_force options)) 0 0 st) as Hloop.
    cbv zeta in Hloop. rewrite length_reverse in Hloop.
    destruct (rollbackLoop (reverse selected) _ 0 0 st)
      as [[rolledBack errors] st1].
    cbn [fst snd] in *.
    destruct Hloop as (Hm & _ & Hsub & Hkeep & _ & _ & Hle & Hforce & Hstop).
    exists rolledBack, errors.
    split; [done|]. split; [done|]. split; [lia|].
    split; [intros Hf; specialize (Hstop Hf); lia|].
    split; [intros Hf _; specialize (Hforce Hf); lia|].
    split; [done|]. split; [done|]. split; [|done].
    intros row Hrow Hne. apply Hkeep; [done|].
    intros record Hrecord. apply Hne. by apply elem_of_reverse.
Qed.

(** The loop over two lists in a row: without [force] the second list is
    not entered once the first has counted an error. *)
Lemma rollbackLoop_app (l1 l2 : list MigrationRecord) (force : bool) :
  ∀ (rolledBack errors : nat) (st : MigrationManager.t),
    rollbackLoop (l1 ++ l2) force rolledBack errors st
    = let r := rollbackLoop l1 force rolledBack errors st in
      if negb force && (errors <? r.1.2) then r
      else rollbackLoop l2 force r.1.1 r.1.2 r.2.
Proof.
  induction l1 as [|record l1 IH]; intros rolledBack errors st.
  - cbn [app MigrationManager.rollbackLoop fst snd].
    by rewrite Nat.ltb_irrefl, andb_false_r.
  - cbn [app MigrationManager.rollbackLoop].
    destruct (_rollbackMigration record force st) as [[u|e] st1].
    + rewrite IH. done.
    + destruct force; cbn [negb andb].
      * rewrite IH. done.
      * cbn [fst snd].
        by replace (errors <? errors + 1) with true
          by (symmetry; apply Nat.ltb_lt; lia).
Qed.

(** X27. Without [force] the loop of [rollback] stops at the first record
    that fails: when the records before it were all undone, the failing
    one counts one error and the records after it are not examined; the
    outcome is that of the loop over the list cut after the failing
    record. *)
Theorem rollbackLoop_stops_at_first_failure
    (before rest : list MigrationRecord) (record : MigrationRecord)
    (rolledBack errors : nat) (st : MigrationManager.t) :
  let r1 := rollbackLoop before false rolledBack errors st in
  r1.1 = (rolledBack + length before, errors) →
  is_ok (_rollbackMigration record false r1.2).1 = false →
  rollbackLoop (before ++ record :: rest) false rolledBack errors st
  = (rolledBack + length before, errors + 1,
     (_rollbackMigration record false r1.2).2)
  ∧ rollbackLoop (before ++ record :: rest) false rolledBack errors st
    = rollbackLoop (before ++ [record]) false rolledBack errors st.
Proof.
  intros r1 Hbefore Hfails. subst r1.
  rewrite !rollbackLoop_app. cbv zeta.
  destruct (rollbackLoop before false rolledBack errors st)
    as [[rb1 e1] st1].
  cbn [fst snd] in *. inversion Hbefore. subst rb1 e1.
  rewrite Nat.ltb_irrefl. cbn [negb andb MigrationManager.rollbackLoop].
  destruct (_rollbackMigration record false st1) as [[u|e] st2]; [done|].
  done.
Qed.

(** X28. With [force], a record whose migration is not loaded is counted
    as rolled back although nothing is done for it: no [down] runs and its
    row stays in the table. Without [force] the first such record is an
    error and ends the loop. *)
Theorem force_counts_missing_migrations (records : list MigrationRecord)
    (rolledBack errors : nat) (st : MigrationManager.t) :
  (∀ record, record ∈ records →
     migrations st !! rec_version record = None) →
  rollbackLoop records true rolledBack errors st
  = (rolledBack + length records, errors, st)
  ∧ (records ≠ [] →
     rollbackLoop records false rolledBack errors st
     = (rolledBack, errors + 1, st)).
Proof.
  intros Hmissing. split.
  - revert rolledBack. induction records as [|record records IH];
      intros rolledBack.
    + cbn. by rewrite Nat.add_0_r.
    + cbn [MigrationManager.rollbackLoop length].
      unfold MigrationManager._rollbackMigration.
      rewrite (Hmissing record) by left. cbn [negb].
      rewrite IH.
      * do 2 f_equal. lia.
      * intros r Hr. apply Hmissing. by right.
  - destruct records as [|record records]; [done|]. intros _.
    cbn [MigrationManager.rollbackLoop].
    unfold MigrationManager._rollbackMigration.
    by rewrite (Hmissing record) by left.
Qed.




End MigrationMore.

(** ** MultiClusterPostgres: the outcomes of [withTransaction] *)

Section CoordinatorMore.

Import Driver.
Import ClusterManager.
Import DistributedTransaction.
Import MultiClusterPostgres.

Variable weightedDraw : list ConnectionPool → QueryOptions → option nat.
Variable metricIndex :
  LoadBalancer.LoadBalancingStrategy → list ConnectionPool → QueryOptions → nat.
Variable driver : Log → WrappedConnection → Stmt → result QueryResult.

Local Abbreviation begin :=
  (DistributedTransaction.begin weightedDraw metricIndex driver).
Local Abbreviation commit := (DistributedTransaction.commit driver).
Local Abbreviation rollback := (DistributedTransaction.rollback driver).
Local Abbreviation executeInTransaction :=
  (MultiClusterPostgres.executeInTransaction driver).
Local Abbreviation withTransaction :=
  (MultiClusterPostgres.withTransaction weightedDraw metricIndex driver).

(** A [begin] that resolves returns the id and has the transaction on
    record. *)
Lemma begin_ok_registers (transactionId : string) (schemas : list string)
    (dt : DistributedTransaction.t) (cm : ClusterManager.t) (log : Log) :
  is_ok (returned (begin transactionId schemas dt cm log)) = true →
  ∃ tx,
    returned (begin transactionId schemas dt cm log) = Ok transactionId
    ∧ final_tx (begin transactionId schemas dt cm log) = Some tx
    ∧ activeTransactions (dt_after (begin transactionId schemas dt cm log))
        !! transactionId = Some tx.
Proof.
  unfold DistributedTransaction.begin.
  destruct (DistributedTransaction.openConnections _ _ _ _ _ cm log)
    as [[[tx1|e] cm1] log1]; [|done].
  intros _. eexists. cbn. split; [done|]. split; [done|].
  by rewrite lookup_insert_eq.
Qed.

(** A [commit] of a known transaction forgets it, resolved or not. *)
Lemma commit_forgets (transactionId : string) (duration : Z)
    (dt : DistributedTransaction.t) (cm : ClusterManager.t) (log : Log)
    (tx : DistributedTransactionState) :
  activeTransactions dt !! transactionId = Some tx →
  activeTransactions (dt_after (commit transactionId duration dt cm log))
    !! transactionId = None.
Proof.
  intros Hfound. unfold DistributedTransaction.commit. rewrite Hfound.
  unfold releaseConnections.
  destruct (if 1 <? _ then _ else _) as [[u|e] log1]; cbn;
    by rewrite lookup_delete_eq.
Qed.

(** X30. The outcomes of [withTransaction] once its [begin] has resolved.
    If the callback rejects, every connection of the transaction receives
    [ROLLBACK] and the callback's error is rethrown. If the callback
    resolves and the commit resolves, the callback's result is returned.
    If the commit rejects, its error is lost: the rollback attempted next
    finds the transaction already forgotten and its rejection, transaction
    not found, is what the caller gets. On every path the transaction is
    forgotten. *)
Theorem withTransaction_outcomes {T : Type} (transactionId : string)
    (schemas : list string) (callback : ContextQuery → Log → result T * Log)
    (commitDuration rollbackDuration : Z) (p : MultiClusterPostgres.t)
    (log : Log) (dt : DistributedTransaction.t) :
  MultiClusterPostgres.isInitialized p = true →
  transactionManager p = Some dt →
  let o := begin transactionId schemas dt (clusterManager p) log in
  is_ok (returned o) = true →
  let p1 := set_managers (cm_after o) (dt_after o) p in
  let r := callback (executeInTransaction transactionId p1) (log_after o) in
  let c := commit transactionId commitDuration (dt_after o) (cm_after o)
             r.2 in
  let w := withTransaction transactionId schemas callback commitDuration
             rollbackDuration p log in
  (∀ error, r.1 = Throw error →
     w.1.1 = Throw error
     ∧ ∃ tx, final_tx o = Some tx
             ∧ w.2 = (r.2 ++ map (λ kc : string * WrappedConnection,
                                    (kc.2, ROLLBACK))
                               (tx_connections tx))%list)
  ∧ (∀ v, r.1 = Ok v → returned c = Ok () →
       w.1.1 = Ok v ∧ w.2 = log_after c)
  ∧ (∀ v error, r.1 = Ok v → returned c = Throw error →
       w.1.1 = Throw ("Transaction " +:+ transactionId +:+ " not found")
       ∧ w.2 = log_after c)
  ∧ ∃ dt', transactionManager w.1.2 = Some dt'
           ∧ activeTransactions dt' !! transactionId = None.
Proof.
  intros Hinit Hdt o Hok p1 r c w.
  destruct (begin_ok_registers transactionId schemas dt (clusterManager p)
              log Hok) as (tx & Hret & Hfinal & Hfound).
  fold o in Hret, Hfinal, Hfound.
  assert (Hguard1 : guard p1 = Ok (dt_after o)).
  { unfold guard, p1. cbn. by rewrite Hinit. }
  assert (Hw : w = match r with
                   | (Throw error, log2) =>
                       rollbackAndRethrow driver transactionId error
                         rollbackDuration p1 log2
                   | (Ok result, log2) =>
                       match commitTransaction driver transactionId
                               commitDuration p1 log2 with
                       | (Ok _, p3, log3) => (Ok result, p3, log3)
                       | (Throw error, p3, log3) =>
                           rollbackAndRethrow driver transactionId error
                             rollbackDuration p3 log3
                       end
                   end).
  { unfold w, MultiClusterPostgres.withTransaction, beginTransaction, guard.
    rewrite Hinit, Hdt. cbn [negb]. fold o. rewrite Hret. done. }
  assert (Hrollback : ∀ error log2,
            rollbackAndRethrow (T := T) driver transactionId error
              rollbackDuration p1 log2
            = (Throw error,
               set_managers
                 (cm_after (rollback transactionId rollbackDuration
                              (dt_after o) (cm_after o) log2))
                 (dt_after (rollback transactionId rollbackDuration
                              (dt_after o) (cm_after o) log2)) p1,
               (log2 ++ map (λ kc : string * WrappedConnection,
                               (kc.2, ROLLBACK)) (tx_connections tx))%list)).
  { intros error log2. unfold rollbackAndRethrow, rollbackTransaction.
    rewrite Hguard1. cbn [clusterManager p1 set_managers].
    unfold DistributedTransaction.rollback. rewrite Hfound.
    unfold rollbackConnections, releaseConnections.
    cbn [returned log_after dt_after cm_after set_state tx_connections].
    by rewrite (sendAll_log driver). }
  assert (Hcommit : ∀ log2,
            commitTransaction driver transactionId commitDuration p1 log2
            = (returned (commit transactionId commitDuration (dt_after o)
                           (cm_after o) log2),
               set_managers
                 (cm_after (commit transactionId commitDuration (dt_after o)
                              (cm_after o) log2))
                 (dt_after (commit transactionId commitDuration (dt_after o)
                              (cm_after o) log2)) p1,
               log_after (commit transactionId commitDuration (dt_after o)
                            (cm_after o) log2))).
  { intros log2. unfold commitTransaction. by rewrite Hguard1. }
  assert (Hgone : ∀ log2,
            activeTransactions
              (dt_after (commit transactionId commitDuration (dt_after o)
                           (cm_after o) log2)) !! transactionId = None).
  { intros log2. by apply (commit_forgets _ _ _ _ _ tx). }
  assert (Hlost : ∀ error log2,
            let c2 := commit transactionId commitDuration (dt_after o)
                        (cm_after o) log2 in
            rollbackAndRethrow (T := T) driver transactionId error
              rollbackDuration
              (set_managers (cm_after c2) (dt_after c2) p1) (log_after c2)
            = (Throw ("Transaction " +:+ transactionId +:+ " not found"),
               set_managers (cm_after c2) (dt_after c2) p1, log_after c2)).
  { intros error log2 c2. unfold rollbackAndRethrow, rollbackTransaction.
    unfold guard. cbn [MultiClusterPostgres.isInitialized set_managers p1
                       transactionManager clusterManager].
    rewrite Hinit. cbn [negb].
    unfold DistributedTransaction.rollback. unfold c2. rewrite Hgone.
    cbn. by destruct (set_managers _ _ _). }
  rewrite Hw. subst c. clear Hw w.
  destruct r as [[v|error] log2]; cbn [fst snd].
  - rewrite Hcommit.
    pose proof (Hgone log2) as Hg.
    pose proof (λ error, Hlost error log2) as Hl. cbv zeta in Hl.
    split; [intros error' Habs; discriminate Habs|].
    destruct (returned (commit transactionId commitDuration (dt_after o)
                          (cm_after o) log2)) as [u|error].
    + cbn [fst snd]. split; [by intros v' Hv _; inversion Hv|].
      split; [intros v' error' _ Habs; discriminate Habs|].
      eexists. split; [done|]. apply Hg.
    + rewrite Hl. cbn [fst snd].
      split; [intros v' _ Habs; discriminate Habs|].
      split; [done|]. eexists. split; [done|]. apply Hg.
  - rewrite Hrollback. cbn [fst snd].
    split.
    { intros error' Herror. inversion Herror. subst error'.
      split; [done|]. by exists tx. }
    split; [intros v' Habs; discriminate Habs|].
    split; [intros v' error' Habs; discriminate Habs|].
    eexists. split; [done|].
    unfold DistributedTransaction.rollback. rewrite Hfound. cbn.
    by rewrite lookup_delete_eq.
Qed.

End CoordinatorMore.

(** The rollback of two steps when every lock is taken: it resolves, with
    one error counted and the table as it was. *)
Lemma rollback_failures_not_reported_witness :
  is_ok Scenario.rollback_two_locked.1 = true
  ∧ MigrationManager.migrations Scenario.rollback_two_locked.2
    = MigrationManager.migrations Scenario.three_applied.
Proof.
  destruct (rollback_failures_not_reported Scenario.digitOrder
              Scenario.digitOrder (λ _ _, false) (λ _, true)
              (λ _, false) Scenario.steps_two Scenario.three_applied
              eq_refl)
    as (selected & rolledBack & errors & _ & Hret & _ & _ & _ & Hmig & _).
  { intros schema Hschema. cbn in Hschema.
    apply list_elem_of_singleton in Hschema. subst schema.
    vm_compute. reflexivity. }
  unfold Scenario.rollback_two_locked. rewrite Hret. split; [done|].
  exact Hmig.
Defined.

(** Undoing 002, 003 and 001 in this order when the lock for 003 is taken:
    001 is not examined. *)
Lemma rollbackLoop_stops_at_first_failure_witness :
  (MigrationManager.rollbackLoop Scenario.lock_003_taken (λ _, false)
     [Scenario.applied "002"; Scenario.applied "003"; Scenario.applied "001"]
     false 0 0 Scenario.three_applied).1
  = (1, 1).
Proof.
  destruct (rollbackLoop_stops_at_first_failure Scenario.lock_003_taken
              (λ _, false) [Scenario.applied "002"]
              [Scenario.applied "001"] (Scenario.applied "003") 0 0
              Scenario.three_applied)
    as (Hrun & _).
  - vm_compute. reflexivity.
  - vm_compute. reflexivity.
  - cbn [app] in Hrun. rewrite Hrun. reflexivity.
Defined.

(** Forced rollback of the three rows when no migration is loaded. *)
Lemma force_counts_missing_migrations_witness :
  MigrationManager.rollbackLoop (λ _, false) (λ _, false)
    (MigrationManager.table Scenario.none_loaded) true 0 0
    Scenario.none_loaded
  = (3, 0, Scenario.none_loaded).
Proof.
  destruct (force_counts_missing_migrations (λ _, false) (λ _, false)
              (MigrationManager.table Scenario.none_loaded) 0 0
              Scenario.none_loaded)
    as (Hforce & _).
  - intros record _. apply lookup_empty.
  - exact Hforce.
Defined.


(** An order inserted in a transaction over C and D when D rejects the
    PREPARE: the caller is told that the transaction was not found. *)
Lemma withTransaction_outcomes_witness :
  (Scenario.order_transaction Scenario.prepare_rejected_on_D).1.1
  = Throw "Transaction tx1 not found".
Proof.
  destruct (withTransaction_outcomes Scenario.noDraw Scenario.firstIndex
              Scenario.prepare_rejected_on_D "tx1" ["users"; "orders"]
              Scenario.order_callback 7 1 Scenario.coordinator_CD []
              DistributedTransaction.init eq_refl eq_refl eq_refl)
    as (_ & _ & Hlost & _).
  edestruct Hlost as (Hret & _).
  - vm_compute. reflexivity.
  - vm_compute. reflexivity.
  - exact Hret.
Defined.
